(** * Order lifecycle and billing of the restaurant POS server

    A shallow embedding of the in-memory order store ([MemStorage], file
    [server/storage.ts]) and of the order routes of [server/routes.ts],
    followed by the properties of the order lifecycle, the billing
    calculation and the payment settlement.

    Conventions of the embedding:
    - JavaScript numbers that carry money or quantities are IEEE binary64
      floats ([PrimFloat.float]); their arithmetic is the kernel's.
    - Identifiers (path parameters read with [parseInt], the id counters)
      are integers [Z]; a counter is assumed to stay below 2^53, where
      [x++] on a double is exact, and a path parameter that is not a
      number is outside the model.
    - A record has the fields of its TypeScript type; a field that a JSON
      body leaves out reads [undefined].
    - A JavaScript [Map] keeps its entries in insertion order, and
      [reduce] visits them in that order; floating-point sums depend on
      it, so a [Map] is an association list with unique keys.
    - Every [async] method of the store runs to completion without
      yielding (it awaits nothing that is pending), so a request handler
      is a sequential state transformer. *)

From Stdlib Require Import Floats.PrimFloat Floats.SpecFloat Floats.FloatOps ZArith Ascii String.
From stdpp Require Import base option list strings pretty sorting.

#[local] Set Warnings "-inexact-float".
Open Scope Z_scope.

(** ** JavaScript values *)

(** The primitive values a JSON request body can put in a field, plus
    [undefined] for a field that is absent. *)
Inductive jsval : Type :=
| JUndefined
| JNull
| JBool (b : bool)
| JNum (x : float)
| JStr (s : string).

(** A [Date], as milliseconds since the epoch. *)
Definition Date : Type := Z.

(** ToBoolean. *)
Definition truthy (v : jsval) : bool :=
  match v with
  | JUndefined | JNull => false
  | JBool b => b
  | JNum x => negb (is_zero x || is_nan x)
  | JStr s => negb (String.eqb s EmptyString)
  end.

(** [a || b]. *)
Definition js_or (a b : jsval) : jsval := if truthy a then a else b.

(** [a === b]. *)
Definition strict_eq (a b : jsval) : bool :=
  match a, b with
  | JUndefined, JUndefined => true
  | JNull, JNull => true
  | JBool x, JBool y => Bool.eqb x y
  | JNum x, JNum y => PrimFloat.eqb x y
  | JStr x, JStr y => String.eqb x y
  | _, _ => false
  end.

(** The two conversions between numbers and strings are the host's
  (ECMAScript StringToNumber and Number::toString); the store only calls
    them, so they are an interface here. *)
Class JsRuntime : Type := {
  parseNumber : string -> float;
  numToString : float -> string
}.

(** [Number(v)], which is also the ToNumber that [*] applies to an operand. *)
Definition Number `{JsRuntime} (v : jsval) : float :=
  match v with
  | JUndefined => nan
  | JNull => 0%float
  | JBool b => if b then 1%float else 0%float
  | JNum x => x
  | JStr s => parseNumber s
  end.

(** ** JavaScript [Map] with integer keys *)

Module JsMap.
Section Ops.
Context {V : Type}.

Fixpoint get (k : Z) (m : list (Z * V)) : option V :=
  match m with
  | [] => None
  | (k', v) :: m' => if Z.eqb k' k then Some v else get k m'
  end.

(** [set] overwrites in place, or appends a new key at the end. *)
Fixpoint set (k : Z) (v : V) (m : list (Z * V)) : list (Z * V) :=
  match m with
  | [] => [(k, v)]
  | (k', v') :: m' =>
      if Z.eqb k' k then (k, v) :: m' else (k', v') :: set k v m'
  end.

Fixpoint remove (k : Z) (m : list (Z * V)) : list (Z * V) :=
  match m with
  | [] => []
  | (k', v) :: m' => if Z.eqb k' k then m' else (k', v) :: remove k m'
  end.

(** [delete] answers whether the key was there. *)
Definition delete (k : Z) (m : list (Z * V)) : bool * list (Z * V) :=
  match get k m with
  | Some _ => (true, remove k m)
  | None => (false, m)
  end.

Definition keys (m : list (Z * V)) : list Z := map fst m.
Definition values (m : list (Z * V)) : list V := map snd m.
End Ops.
End JsMap.

Abbreviation JsMap V := (list (Z * V)) (only parsing).

(** ** Records of [shared/schema.ts] *)

Module InsertOrderItem.
Record t : Type := mk {
  orderId : Z;
  menuItemId : jsval;
  quantity : jsval;
  price : jsval;
  status : jsval;
  specialInstructions : jsval
}.
End InsertOrderItem.

Module OrderItem.
Record t : Type := mk {
  id : Z;
  orderId : Z;
  menuItemId : jsval;
  quantity : jsval;
  price : jsval;
  status : jsval;
  specialInstructions : jsval;
  createdAt : Date
}.

(** [{ ...item, status }] *)
Definition with_status (item : t) (st : jsval) : t :=
  mk (id item) (orderId item) (menuItemId item) (quantity item)
    (price item) st (specialInstructions item) (createdAt item).

(** [{ ...item, quantity }] *)
Definition with_quantity (item : t) (q : jsval) : t :=
  mk (id item) (orderId item) (menuItemId item) q
    (price item) (status item) (specialInstructions item) (createdAt item).
End OrderItem.

Module InsertOrder.
Record t : Type := mk {
  orderNumber : jsval;
  orderType : jsval;
  tableNumber : jsval;
  customerName : jsval;
  customerPhone : jsval;
  subtotal : jsval;
  tax : jsval;
  packagingFee : jsval;
  totalAmount : jsval;
  paymentStatus : jsval;
  paymentMethod : jsval;
  bankReference : jsval;
  cashAmount : jsval;
  bankAmount : jsval;
  notes : jsval
}.

(** [{ ...body, orderNumber }] *)
Definition with_orderNumber (body : t) (n : jsval) : t :=
  mk n (orderType body) (tableNumber body) (customerName body)
    (customerPhone body) (subtotal body) (tax body) (packagingFee body)
    (totalAmount body) (paymentStatus body) (paymentMethod body)
    (bankReference body) (cashAmount body) (bankAmount body) (notes body).
End InsertOrder.

(** The body of PUT /api/orders/:id, typed [Partial<InsertOrder>]: [None]
    is a property the object does not have.  The route hands [req.body]
    to [updateOrder] unvalidated, so besides the fields of [InsertOrder]
    the body can carry an [id] and a [createdAt], which the spread in
    [updateOrder] copies over the stored ones.  ([updatedAt] in a body is
    overwritten by the clock; a body [id] that is not an integer, a
    [createdAt] that [new Date] does not read as a time, and properties
    that are no field of an order are outside the model.) *)
Module PartialOrder.
Record t : Type := mk {
  id : option Z;
  createdAt : option Date;
  orderNumber : option jsval;
  orderType : option jsval;
  tableNumber : option jsval;
  customerName : option jsval;
  customerPhone : option jsval;
  subtotal : option jsval;
  tax : option jsval;
  packagingFee : option jsval;
  totalAmount : option jsval;
  paymentStatus : option jsval;
  paymentMethod : option jsval;
  bankReference : option jsval;
  cashAmount : option jsval;
  bankAmount : option jsval;
  notes : option jsval
}.

(** [{ subtotal, tax, totalAmount }] *)
Definition totals (s x a : jsval) : t :=
  mk None None None None None None None (Some s) (Some x) None (Some a)
    None None None None None None.
End PartialOrder.

Module Order.
Record t : Type := mk {
  id : Z;
  orderNumber : jsval;
  orderType : jsval;
  tableNumber : jsval;
  customerName : jsval;
  customerPhone : jsval;
  subtotal : jsval;
  tax : jsval;
  packagingFee : jsval;
  totalAmount : jsval;
  paymentStatus : jsval;
  paymentMethod : jsval;
  bankReference : jsval;
  cashAmount : jsval;
  bankAmount : jsval;
  createdAt : Date;
  updatedAt : Date;
  notes : jsval
}.

(** [{ ...order, id, createdAt, updatedAt }] *)
Definition create (order : InsertOrder.t) (i : Z) (c u : Date) : t :=
  mk i (InsertOrder.orderNumber order) (InsertOrder.orderType order)
    (InsertOrder.tableNumber order) (InsertOrder.customerName order)
    (InsertOrder.customerPhone order) (InsertOrder.subtotal order)
    (InsertOrder.tax order) (InsertOrder.packagingFee order)
    (InsertOrder.totalAmount order) (InsertOrder.paymentStatus order)
    (InsertOrder.paymentMethod order) (InsertOrder.bankReference order)
    (InsertOrder.cashAmount order) (InsertOrder.bankAmount order)
    c u (InsertOrder.notes order).

(** [{ ...existing, ...order, updatedAt }] *)
Definition update (existing : t) (order : PartialOrder.t) (u : Date) : t :=
  mk (default (id existing) (PartialOrder.id order))
    (default (orderNumber existing) (PartialOrder.orderNumber order))
    (default (orderType existing) (PartialOrder.orderType order))
    (default (tableNumber existing) (PartialOrder.tableNumber order))
    (default (customerName existing) (PartialOrder.customerName order))
    (default (customerPhone existing) (PartialOrder.customerPhone order))
    (default (subtotal existing) (PartialOrder.subtotal order))
    (default (tax existing) (PartialOrder.tax order))
    (default (packagingFee existing) (PartialOrder.packagingFee order))
    (default (totalAmount existing) (PartialOrder.totalAmount order))
    (default (paymentStatus existing) (PartialOrder.paymentStatus order))
    (default (paymentMethod existing) (PartialOrder.paymentMethod order))
    (default (bankReference existing) (PartialOrder.bankReference order))
    (default (cashAmount existing) (PartialOrder.cashAmount order))
    (default (bankAmount existing) (PartialOrder.bankAmount order))
    (default (createdAt existing) (PartialOrder.createdAt order)) u
    (default (notes existing) (PartialOrder.notes order)).

(** [{ ...existing, paymentStatus: "paid", paymentMethod, bankReference,
       cashAmount, bankAmount, updatedAt }] *)
Definition settle (existing : t) (method ref cash bank : jsval) (u : Date) : t :=
  mk (id existing) (orderNumber existing) (orderType existing)
    (tableNumber existing) (customerName existing) (customerPhone existing)
    (subtotal existing) (tax existing) (packagingFee existing)
    (totalAmount existing) (JStr "paid") method ref cash bank
    (createdAt existing) u (notes existing).
End Order.

(** [{ ...item, id, createdAt }] *)
Definition newOrderItem (item : InsertOrderItem.t) (i : Z) (c : Date) : OrderItem.t :=
  OrderItem.mk i (InsertOrderItem.orderId item) (InsertOrderItem.menuItemId item)
  (InsertOrderItem.quantity item) (InsertOrderItem.price item)
  (InsertOrderItem.status item) (InsertOrderItem.specialInstructions item) c.

(** ** The store *)

(** The part of [MemStorage] that holds orders and their items. *)
Record MemStorage : Type := mkStorage {
  orders : JsMap Order.t;
  orderItems : JsMap OrderItem.t;
  currentOrderId : Z;
  currentOrderItemId : Z
}.

(** The constructor: empty maps, counters at 1. *)
Definition newStorage : MemStorage := mkStorage [] [] 1 1.

(** A method of the store: it reads and writes [this], and returns. *)
Definition M (A : Type) : Type := MemStorage -> A * MemStorage.

Definition ret {A} (a : A) : M A := fun s => (a, s).

Definition bind {A B} (c : M A) (k : A -> M B) : M B :=
  fun s => let (a, s') := c s in k a s'.

Notation "'let*' x ':=' c 'in' k" := (bind c (fun x => k))
  (at level 10, x name, c at level 100, k at level 200).

(** [await Promise.all(xs.map(f))]: the calls start in order, and each one
    finishes before it returns. *)
Fixpoint forEach {A B} (f : A -> M B) (xs : list A) : M (list B) :=
  match xs with
  | [] => ret []
  | x :: xs' => let* y := f x in let* ys := forEach f xs' in ret (y :: ys)
  end.

Definition set_orders (m : JsMap Order.t) : M unit :=
  fun s => (tt, mkStorage m (orderItems s) (currentOrderId s) (currentOrderItemId s)).

Definition set_orderItems (m : JsMap OrderItem.t) : M unit :=
  fun s => (tt, mkStorage (orders s) m (currentOrderId s) (currentOrderItemId s)).

(** [this.currentOrderId++] *)
Definition nextOrderId : M Z :=
  fun s => (currentOrderId s,
            mkStorage (orders s) (orderItems s) (currentOrderId s + 1) (currentOrderItemId s)).

(** [this.currentOrderItemId++] *)
Definition nextOrderItemId : M Z :=
  fun s => (currentOrderItemId s,
            mkStorage (orders s) (orderItems s) (currentOrderId s) (currentOrderItemId s + 1)).

(** [Array.prototype.sort(compareFn)].  The sort is stable (ECMAScript
    2019, every Node the server's toolchain runs on): of two elements
    that [compareFn] does not put in another order, the one that came
    first stays first.  For a consistent [compareFn] that fixes the result,
    which is the one insertion from the right gives: an element moves
    behind exactly the elements it compares greater than. *)
Section ArraySort.
Context {A : Type} (compareFn : A -> A -> Z).

Fixpoint sort_insert (x : A) (l : list A) : list A :=
  match l with
  | [] => [x]
  | y :: l' => if 0 <? compareFn x y then y :: sort_insert x l' else x :: y :: l'
  end.

Definition array_sort (l : list A) : list A := foldr sort_insert [] l.

End ArraySort.

(** [(a, b) => new Date(b.createdAt).getTime() - new Date(a.createdAt).getTime()] *)
Definition byNewest (a b : Order.t) : Z := Order.createdAt b - Order.createdAt a.

Definition getAllOrders : M (list Order.t) :=
  fun s => (array_sort byNewest (JsMap.values (orders s)), s).

Definition getOrder (id : Z) : M (option Order.t) :=
  fun s => (JsMap.get id (orders s), s).

Definition createOrder (order : InsertOrder.t) (created updated : Date) : M Order.t :=
  let* id := nextOrderId in
  let newOrder := Order.create order id created updated in
  fun s => (newOrder, snd (set_orders (JsMap.set id newOrder (orders s)) s)).

Definition updateOrder (id : Z) (order : PartialOrder.t) (now : Date) : M (option Order.t) :=
  fun s =>
    match JsMap.get id (orders s) with
    | None => (None, s)
    | Some existingOrder =>
        let updatedOrder := Order.update existingOrder order now in
        (Some updatedOrder, snd (set_orders (JsMap.set id updatedOrder (orders s)) s))
    end.

Definition updateOrderPayment (id : Z) (paymentMethod bankReference cashAmount bankAmount : jsval)
    (now : Date) : M (option Order.t) :=
  fun s =>
    match JsMap.get id (orders s) with
    | None => (None, s)
    | Some existingOrder =>
        let updatedOrder :=
          Order.settle existingOrder paymentMethod
            (js_or bankReference JNull) (js_or cashAmount JNull) (js_or bankAmount JNull) now in
        (Some updatedOrder, snd (set_orders (JsMap.set id updatedOrder (orders s)) s))
    end.

Definition getOrderItems (orderId : Z) : M (list OrderItem.t) :=
  fun s => (filter (fun item => OrderItem.orderId item = orderId) (JsMap.values (orderItems s)), s).

Section Billing.
Context `{JsRuntime}.

(** [items.reduce((sum, item) => sum + Number(item.price) * item.quantity, 0)] *)
Definition orderSubtotal (items : list OrderItem.t) : float :=
  fold_left
    (fun sum item => (sum + Number (OrderItem.price item) * Number (OrderItem.quantity item))%float)
    items 0%float.

Definition orderTax (subtotal : float) : float := (subtotal * 0.05)%float.

Definition orderTotalAmount (subtotal tax : float) (packagingFee : jsval) : float :=
  (subtotal + tax + Number (js_or packagingFee (JNum 0)))%float.

Definition recalculateOrderTotal (orderId : Z) (now : Date) : M unit :=
  let* order := getOrder orderId in
  match order with
  | None => ret tt
  | Some order =>
      let* items := getOrderItems orderId in
      let subtotal := orderSubtotal items in
      let tax := orderTax subtotal in
      let totalAmount := orderTotalAmount subtotal tax (Order.packagingFee order) in
      let* _ := updateOrder orderId
                  (PartialOrder.totals (JStr (numToString subtotal))
                     (JStr (numToString tax)) (JStr (numToString totalAmount))) now in
      ret tt
  end.

Definition addOrderItem (item : InsertOrderItem.t) (created now : Date) : M OrderItem.t :=
  let* id := nextOrderItemId in
  let newItem := newOrderItem item id created in
  let* _ := (fun s => set_orderItems (JsMap.set id newItem (orderItems s)) s) in
  let* _ := recalculateOrderTotal (InsertOrderItem.orderId item) now in
  ret newItem.

Definition updateOrderItemStatus (id : Z) (status : jsval) : M (option OrderItem.t) :=
  fun s =>
    match JsMap.get id (orderItems s) with
    | None => (None, s)
    | Some existingItem =>
        let updatedItem := OrderItem.with_status existingItem status in
        (Some updatedItem, snd (set_orderItems (JsMap.set id updatedItem (orderItems s)) s))
    end.

Definition updateOrderItemQuantity (id : Z) (quantity : jsval) (now : Date) : M (option OrderItem.t) :=
  fun s =>
    match JsMap.get id (orderItems s) with
    | None => (None, s)
    | Some existingItem =>
        let updatedItem := OrderItem.with_quantity existingItem quantity in
        let s1 := snd (set_orderItems (JsMap.set id updatedItem (orderItems s)) s) in
        let s2 := snd (recalculateOrderTotal (OrderItem.orderId existingItem) now s1) in
        (Some updatedItem, s2)
    end.

Definition removeOrderItem (id : Z) (now : Date) : M bool :=
  fun s =>
    match JsMap.get id (orderItems s) with
    | None => (false, s)
    | Some item =>
        let (result, items') := JsMap.delete id (orderItems s) in
        let s1 := snd (set_orderItems items' s) in
        if result
        then (result, snd (recalculateOrderTotal (OrderItem.orderId item) now s1))
        else (result, s1)
    end.

End Billing.

(** ** The order routes of [server/routes.ts]

    The routes reach the store through [localIntegratedStorage], which
    hands every order and order-item call to [MemStorage] unchanged.  A
    handler answers with a status code and a JSON body, a message or
    nothing; the session check in front of it is assumed passed. *)

Inductive Response (A : Type) : Type :=
| Json (code : Z) (body : A)
| Message (code : Z) (message : string)
| NoContent (code : Z).
Arguments Json {A} code body.
Arguments Message {A} code message.
Arguments NoContent {A} code.

Record KotBody : Type := mkKot {
  kot_order : Order.t;
  kotItems : list OrderItem.t;
  allItems : list OrderItem.t
}.

Record BillBody : Type := mkBill {
  bill_order : Order.t;
  bill_items : list OrderItem.t
}.

(** [item.status === "pending"] *)
Definition is_pending (item : OrderItem.t) : bool :=
  strict_eq (OrderItem.status item) (JStr "pending").

(** [String(1000 + allOrders.length + 1)]: an integer prints as its
    decimal digits. *)
Definition orderNumberFor (count : nat) : string :=
  pretty (1000 + Z.of_nat count + 1).

Section Routes.
Context `{JsRuntime}.

(** POST /api/orders *)
Definition post_orders (body : InsertOrder.t) (created updated : Date) : M (Response Order.t) :=
  let* allOrders := getAllOrders in
  let orderNumber := orderNumberFor (length allOrders) in
  let orderData := InsertOrder.with_orderNumber body (JStr orderNumber) in
  let* order := createOrder orderData created updated in
  ret (Json 201 order).

(** PUT /api/orders/:id *)
Definition put_order (id : Z) (body : PartialOrder.t) (now : Date) : M (Response Order.t) :=
  let* order := updateOrder id body now in
  match order with
  | None => ret (Message 404 "Order not found")
  | Some order => ret (Json 200 order)
  end.

(** POST /api/orders/:id/payment *)
Definition post_payment (id : Z) (paymentMethod bankReference cashAmount bankAmount : jsval)
    (now : Date) : M (Response Order.t) :=
  let* order := updateOrderPayment id paymentMethod bankReference cashAmount bankAmount now in
  match order with
  | None => ret (Message 404 "Order not found")
  | Some order => ret (Json 200 order)
  end.

(** POST /api/orders/:orderId/items; [{ ...req.body, orderId }] is the
    record [itemData] with its [orderId] taken from the path. *)
Definition post_items (itemData : InsertOrderItem.t) (created now : Date) : M (Response OrderItem.t) :=
  let* item := addOrderItem itemData created now in
  ret (Json 201 item).

(** PUT /api/order-items/:id/status *)
Definition put_item_status (id : Z) (status : jsval) : M (Response OrderItem.t) :=
  let* item := updateOrderItemStatus id status in
  match item with
  | None => ret (Message 404 "Order item not found")
  | Some item => ret (Json 200 item)
  end.

(** PUT /api/order-items/:id/quantity *)
Definition put_item_quantity (id : Z) (quantity : jsval) (now : Date) : M (Response OrderItem.t) :=
  let* item := updateOrderItemQuantity id quantity now in
  match item with
  | None => ret (Message 404 "Order item not found")
  | Some item => ret (Json 200 item)
  end.

(** DELETE /api/order-items/:id *)
Definition delete_item (id : Z) (now : Date) : M (Response unit) :=
  let* success := removeOrderItem id now in
  if success then ret (NoContent 204) else ret (Message 404 "Order item not found").

(** GET /api/kot/:orderId *)
Definition get_kot (orderId : Z) : M (Response KotBody) :=
  let* order := getOrder orderId in
  match order with
  | None => ret (Message 404 "Order not found")
  | Some order =>
      let* items := getOrderItems orderId in
      let pendingItems := filter (fun item => is_pending item = true) items in
      let* _ := forEach (fun item => updateOrderItemStatus (OrderItem.id item) (JStr "kot_printed"))
                  pendingItems in
      let* updatedItems := getOrderItems orderId in
      ret (Json 200 (mkKot order pendingItems updatedItems))
  end.

(** GET /api/bill/:orderId *)
Definition get_bill (orderId : Z) : M (Response BillBody) :=
  let* order := getOrder orderId in
  match order with
  | None => ret (Message 404 "Order not found")
  | Some order =>
      let* items := getOrderItems orderId in
      let pendingItems := filter (fun item => is_pending item = true) items in
      if (0 <? length pendingItems)%nat
      then ret (Message 400 "Cannot print bill with pending items. Please print KOT first.")
      else
        let* _ := forEach (fun item => updateOrderItemStatus (OrderItem.id item) (JStr "completed"))
                    items in
        let* updatedItems := getOrderItems orderId in
        ret (Json 200 (mkBill order updatedItems))
  end.

End Routes.

(** ** Requests and histories *)

(** The requests that change orders or order items.  Each carries the
    clock readings its handler obtains from [new Date()]. *)
Inductive Request : Type :=
| PostOrder (body : InsertOrder.t) (created updated : Date)
| PutOrder (id : Z) (body : PartialOrder.t) (now : Date)
| PostPayment (id : Z) (paymentMethod bankReference cashAmount bankAmount : jsval) (now : Date)
| PostItem (itemData : InsertOrderItem.t) (created now : Date)
| PutItemStatus (id : Z) (status : jsval)
| PutItemQuantity (id : Z) (quantity : jsval) (now : Date)
| DeleteItem (id : Z) (now : Date)
| GetKot (orderId : Z)
| GetBill (orderId : Z).

Inductive Reply : Type :=
| OrderReply (r : Response Order.t)
| ItemReply (r : Response OrderItem.t)
| DeleteReply (r : Response unit)
| KotReply (r : Response KotBody)
| BillReply (r : Response BillBody).

Section Server.
Context `{JsRuntime}.

Definition handle (rq : Request) : M Reply :=
  match rq with
  | PostOrder body created updated =>
      let* r := post_orders body created updated in ret (OrderReply r)
  | PutOrder id body now =>
      let* r := put_order id body now in ret (OrderReply r)
  | PostPayment id method ref cash bank now =>
      let* r := post_payment id method ref cash bank now in ret (OrderReply r)
  | PostItem itemData created now =>
      let* r := post_items itemData created now in ret (ItemReply r)
  | PutItemStatus id status =>
      let* r := put_item_status id status in ret (ItemReply r)
  | PutItemQuantity id quantity now =>
      let* r := put_item_quantity id quantity now in ret (ItemReply r)
  | DeleteItem id now =>
      let* r := delete_item id now in ret (DeleteReply r)
  | GetKot orderId =>
      let* r := get_kot orderId in ret (KotReply r)
  | GetBill orderId =>
      let* r := get_bill orderId in ret (BillReply r)
  end.

(** A sequential history: one request after the other. *)
Definition serve (rqs : list Request) : M (list Reply) := forEach handle rqs.

End Server.

(** The order number a reply to POST /api/orders carries. *)
Definition assignedNumber (rq : Request) (rp : Reply) : option jsval :=
  match rq, rp with
  | PostOrder _ _ _, OrderReply (Json _ order) => Some (Order.orderNumber order)
  | _, _ => None
  end.

Definition assignedNumbers (rqs : list Request) (rps : list Reply) : list jsval :=
  omap (fun p => assignedNumber (fst p) (snd p)) (zip rqs rps).

(** ** A runtime

    The two host conversions, written out after ECMAScript: [parse] is
    StringToNumber (the rounding of §7.1.4.1.1 to the nearest double, ties
    to even) and [render] is Number::toString in radix 10 (§6.1.6.1.20:
    the shortest digit string that reads back as the same double, the
    closest one when several do).  A string is a sequence of code units
    below 256, so of the white space of StringToNumber the characters of
    Latin-1 are recognised.  The theorems below hold for every runtime;
    the worked examples are evaluated on this one. *)

Module DecimalRuntime.

(** The double nearest to [m * 2 ^ e]. *)
Definition ofBinary (m e : Z) : float := SF2Prim (binary_normalize prec emax m e false).

(** The double nearest to [n / d], for positive [n] and [d]: the quotient
    is taken to more than 64 bits, and one more bit records whether the
    division left a remainder. *)
Definition ofQuotient (n d : Z) : float :=
  let shift := Z.max 0 (65 + Z.log2 d - Z.log2 n) in
  let q := (n * 2 ^ shift) / d in
  let sticky := if (n * 2 ^ shift) mod d =? 0 then 0 else 1 in
  ofBinary (2 * q + sticky) (- shift - 1).

(** The double nearest to [m * 10 ^ e], for [0 <= m].  Beyond the two
    bounds the result is known without forming the power. *)
Definition ofDecimal (m e : Z) : float :=
  if m =? 0 then 0%float
  else if 400 <? e then infinity
  else if Z.log2 m + 1 + e <? -400 then 0%float
  else if 0 <=? e then ofBinary (m * 10 ^ e) 0
  else ofQuotient m (10 ^ (- e)).

Definition code (c : ascii) : Z := Z.of_N (N_of_ascii c).

(** StrWhiteSpaceChar, as far as Latin-1 has it. *)
Definition isWhite (c : ascii) : bool :=
  let n := code c in
  ((9 <=? n) && (n <=? 13)) || (n =? 32) || (n =? 160).

Fixpoint trimStart (s : string) : string :=
  match s with
  | String c s' => if isWhite c then trimStart s' else s
  | EmptyString => s
  end.

Fixpoint trimEnd (s : string) : string :=
  match s with
  | EmptyString => EmptyString
  | String c s' =>
      match trimEnd s' with
      | EmptyString => if isWhite c then EmptyString else String c EmptyString
      | t => String c t
      end
  end.

(** The value of a digit in a radix up to 16. *)
Definition digit (radix : Z) (c : ascii) : option Z :=
  let n := code c in
  let v := if (48 <=? n) && (n <=? 57) then n - 48
           else if (97 <=? n) && (n <=? 102) then n - 87
           else if (65 <=? n) && (n <=? 70) then n - 55
           else 16 in
  if v <? radix then Some v else None.

(** Reads digits while there are any: the value read onto [m], how many
    were read, and what is left. *)
Fixpoint digits (radix : Z) (s : string) (m count : Z) : Z * Z * string :=
  match s with
  | String c s' =>
      match digit radix c with
      | Some d => digits radix s' (radix * m + d) (count + 1)
      | None => (m, count, s)
      end
  | EmptyString => (m, count, s)
  end.

(** NonDecimalIntegerLiteral, after its prefix: at least one digit and
    nothing else. *)
Definition integerLiteral (radix : Z) (s : string) : float :=
  match digits radix s 0 0 with
  | (m, count, EmptyString) => if 0 <? count then ofBinary m 0 else nan
  | _ => nan
  end.

(** ExponentPart, or nothing: the exponent, if what is left is that. *)
Definition exponentPart (s : string) : option Z :=
  match s with
  | EmptyString => Some 0
  | String c s' =>
      if Ascii.eqb c "e" || Ascii.eqb c "E"
      then
        let (negative, s'') :=
          match s' with
          | String "+" t => (false, t)
          | String "-" t => (true, t)
          | _ => (false, s')
          end in
        match digits 10 s'' 0 0 with
        | (x, count, EmptyString) =>
            if 0 <? count then Some (if negative then - x else x) else None
        | _ => None
        end
      else None
  end.

(** StrUnsignedDecimalLiteral. *)
Definition unsignedLiteral (s : string) : float :=
  if String.eqb s "Infinity" then infinity
  else
    let '(m1, n1, r1) := digits 10 s 0 0 in
    let '(m2, n2, r2) :=
      match r1 with
      | String "." t => digits 10 t m1 0
      | _ => (m1, 0, r1)
      end in
    if 0 <? n1 + n2
    then match exponentPart r2 with
         | Some e => ofDecimal m2 (e - n2)
         | None => nan
         end
    else nan.

(** StringToNumber. *)
Definition parse (s : string) : float :=
  match trimEnd (trimStart s) with
  | EmptyString => 0%float
  | String "0" (String "x" t) | String "0" (String "X" t) => integerLiteral 16 t
  | String "0" (String "o" t) | String "0" (String "O" t) => integerLiteral 8 t
  | String "0" (String "b" t) | String "0" (String "B" t) => integerLiteral 2 t
  | String "+" t => unsignedLiteral t
  | String "-" t => (- unsignedLiteral t)%float
  | t => unsignedLiteral t
  end.

(** How many decimal digits a positive integer has. *)
Definition digitCount (n : Z) : Z := Z.of_nat (String.length (pretty n)).

(** The [n] with [10 ^ (n - 1) <= num / den < 10 ^ n]. *)
Definition decimalExponent (num den : Z) : Z :=
  let est := digitCount num - digitCount den in
  let reaches := if 0 <=? est then den * 10 ^ est <=? num else den <=? num * 10 ^ (- est) in
  if reaches then est + 1 else est.

(** For [k] digits: the digit string [s] and exponent [n] with
    [s * 10 ^ (n - k)] reading back as [x], nearest to [num / den] and even
    on a tie, if there is one. *)
Definition shortest (x : float) (num den n k : Z) : option (Z * Z) :=
  let a := if n <=? k then num * 10 ^ (k - n) else num in
  let b := if n <=? k then den else den * 10 ^ (n - k) in
  let lo := a / b in
  let r := a mod b in
  let hi := if lo + 1 =? 10 ^ k then (10 ^ (k - 1), n + 1) else (lo + 1, n) in
  let reads (c : Z * Z) := PrimFloat.eqb (ofDecimal (fst c) (snd c - k)) x in
  let lo_ok := reads (lo, n) in
  let hi_ok := negb (r =? 0) && reads hi in
  if lo_ok && hi_ok
  then if 2 * r <? b then Some (lo, n)
       else if b <? 2 * r then Some hi
       else if Z.even lo then Some (lo, n) else Some hi
  else if lo_ok then Some (lo, n)
  else if hi_ok then Some hi
  else None.

(** The least [k], from [k] on; seventeen digits always read back. *)
Fixpoint search (fuel : nat) (x : float) (num den n k : Z) : Z * Z * Z :=
  match fuel with
  | O => (k, num * 10 ^ (k - n) / den, n)
  | S fuel' =>
      match shortest x num den n k with
      | Some (s, n') => (k, s, n')
      | None => search fuel' x num den n (k + 1)
      end
  end.

Fixpoint zeros (n : nat) : string :=
  match n with
  | O => EmptyString
  | S n' => String "0" (zeros n')
  end.

(** Number::toString of a positive finite [m * 2 ^ e]. *)
Definition renderFinite (x : float) (m e : Z) : string :=
  let num := if 0 <=? e then m * 2 ^ e else m in
  let den := if 0 <=? e then 1 else 2 ^ (- e) in
  let '(k, s, n) := search 17 x num den (decimalExponent num den) 1 in
  let ds := pretty s in
  if (k <=? n) && (n <=? 21) then ds +:+ zeros (Z.to_nat (n - k))
  else if (0 <? n) && (n <=? 21)
  then substring 0 (Z.to_nat n) ds +:+ "." +:+ substring (Z.to_nat n) (Z.to_nat (k - n)) ds
  else if (-6 <? n) && (n <=? 0) then "0." +:+ zeros (Z.to_nat (- n)) +:+ ds
  else
    let exponent := (if 0 <=? n - 1 then "+" else "-") +:+ pretty (Z.abs (n - 1)) in
    if k =? 1 then ds +:+ "e" +:+ exponent
    else substring 0 1 ds +:+ "." +:+ substring 1 (Z.to_nat (k - 1)) ds +:+ "e" +:+ exponent.

(** Number::toString. *)
Definition render (x : float) : string :=
  match Prim2SF x with
  | S754_zero _ => "0"
  | S754_infinity s => if s then "-Infinity" else "Infinity"
  | S754_nan => "NaN"
  | S754_finite s m e =>
      (if s then "-" else EmptyString) +:+ renderFinite (abs x) (Z.pos m) e
  end.

Definition runtime : JsRuntime := {| parseNumber := parse; numToString := render |}.

End DecimalRuntime.

(** * Specification vocabulary *)

(** The representation invariant of the store: keys of a [Map] are
    unique; every id in use is below its counter, so the next id is new; an
    item is filed under its own id. *)
Record wf (s : MemStorage) : Prop := mkWf {
  wf_orders_nodup : NoDup (JsMap.keys (orders s));
  wf_orders_fresh : Forall (fun k => k < currentOrderId s) (JsMap.keys (orders s));
  wf_items_nodup : NoDup (JsMap.keys (orderItems s));
  wf_items_fresh : Forall (fun k => k < currentOrderItemId s) (JsMap.keys (orderItems s));
  wf_items_id : Forall (fun p => OrderItem.id (snd p) = fst p) (orderItems s)
}.

(** [s'] differs from [s] at most in the values of the orders map. *)
Definition orders_rewritten (s s' : MemStorage) : Prop :=
  JsMap.keys (orders s') = JsMap.keys (orders s) /\
  orderItems s' = orderItems s /\
  currentOrderId s' = currentOrderId s /\
  currentOrderItemId s' = currentOrderItemId s.

(** The items map after every item whose key is selected got status [st]. *)
Definition restatus (sel : Z -> bool) (st : jsval) (m : JsMap OrderItem.t) : JsMap OrderItem.t :=
  map (fun p => if sel (fst p) then (fst p, OrderItem.with_status (snd p) st) else p) m.

(** The items of an order, as [getOrderItems] lists them. *)
Definition itemsOf (s : MemStorage) (orderId : Z) : list OrderItem.t :=
  fst (getOrderItems orderId s).

(** Whether an item's status is a given string can be decided (by
    comparing strings; no equality test on floats is needed). *)
#[global] Instance status_eq_dec item st : Decision (OrderItem.status item = JStr st).
Proof.
  destruct (OrderItem.status item) as [| | | |s]; try (right; discriminate).
  destruct (decide (s = st)) as [e|n]; [left; by rewrite e | right; congruence].
Defined.

(** The order whose items a request adds to, re-counts or removes from. *)
Definition mutatedOrder (s : MemStorage) (rq : Request) : option Z :=
  match rq with
  | PostItem itemData _ _ => Some (InsertOrderItem.orderId itemData)
  | PutItemQuantity id _ _ | DeleteItem id _ => OrderItem.orderId <$> JsMap.get id (orderItems s)
  | _ => None
  end.

Section TotalsInStep.
Context `{JsRuntime}.

(** The stored totals of [orderId] are the ones its current items give:
    subtotal = sum of price * quantity, tax = subtotal * 0.05,
    totalAmount = subtotal + tax + (packagingFee || 0), each stored as the
    number's string.  The items are read off the item map itself: the
    values, in insertion order, whose [orderId] is this order's. *)
Definition totals_in_step (s : MemStorage) (orderId : Z) : Prop :=
  exists order, JsMap.get orderId (orders s) = Some order /\
    let subtotal :=
      fold_left (fun sum item =>
                   (sum + Number (OrderItem.price item) * Number (OrderItem.quantity item))%float)
        (filter (fun item => OrderItem.orderId item = orderId) (JsMap.values (orderItems s)))
        0%float in
    let tax := (subtotal * 0.05)%float in
    let fee := Number (if truthy (Order.packagingFee order) then Order.packagingFee order else JNum 0) in
    Order.subtotal order = JStr (numToString subtotal) /\
    Order.tax order = JStr (numToString tax) /\
    Order.totalAmount order = JStr (numToString (subtotal + tax + fee)).

End TotalsInStep.

(** The value a settlement argument is stored as, were it stored as
    given: itself, or [null] when the caller left it out. *)
Definition given (v : jsval) : jsval :=
  match v with
  | JUndefined => JNull
  | _ => v
  end.

(** C5 as the specification words it: the reference and both amounts are
    stored as given. *)
Definition settlement_stores_arguments : Prop :=
  forall (s : MemStorage) (id : Z) (order : Order.t)
         (paymentMethod bankReference cashAmount bankAmount : jsval) (now : Date),
    JsMap.get id (orders s) = Some order ->
    exists order',
      fst (updateOrderPayment id paymentMethod bankReference cashAmount bankAmount now s) = Some order' /\
      Order.paymentStatus order' = JStr "paid" /\
      Order.paymentMethod order' = paymentMethod /\
      Order.bankReference order' = given bankReference /\
      Order.cashAmount order' = given cashAmount /\
      Order.bankAmount order' = given bankAmount.

(** C6 as the specification words it: whatever the input carries, the
    created order has subtotal, tax and totalAmount equal to 0. *)
Definition createOrder_zeroes_totals : Prop :=
  forall (R : JsRuntime) (s : MemStorage) (fields : InsertOrder.t) (created updated : Date),
    let order := fst (createOrder fields created updated s) in
    (Number (Order.subtotal order) =? 0)%float = true /\
    (Number (Order.tax order) =? 0)%float = true /\
    (Number (Order.totalAmount order) =? 0)%float = true.

(** [b] is [a], or one of the two moves the print routes make. *)
Definition advances (a b : jsval) : Prop :=
  b = a \/ (a = JStr "pending" /\ b = JStr "kot_printed") \/ b = JStr "completed".

(** PUT /api/order-items/:id/status *)
Definition is_status_update (rq : Request) : bool :=
  match rq with
  | PutItemStatus _ _ => true
  | _ => false
  end.

(** The item data a request posts, if it posts any. *)
Definition posted (rq : Request) : option InsertOrderItem.t :=
  match rq with
  | PostItem itemData _ _ => Some itemData
  | _ => None
  end.

(** From [s] to [s'] every stored item either was there with a status
    that advanced to the present one, or is new and descends from one of
    the posted [news]. *)
Definition items_advance (news : list InsertOrderItem.t) (s s' : MemStorage) : Prop :=
  currentOrderItemId s <= currentOrderItemId s' /\
  forall k item', JsMap.get k (orderItems s') = Some item' ->
    (exists item, JsMap.get k (orderItems s) = Some item /\
                  advances (OrderItem.status item) (OrderItem.status item')) \/
    (currentOrderItemId s <= k /\
     exists d, d ∈ news /\ advances (InsertOrderItem.status d) (OrderItem.status item')).

(** C4 as the specification words it: whatever requests are served, from
    the empty store on, a status never moves back from [kot_printed] or
    [completed], and every stored status is one of the three lifecycle
    states. *)
Definition status_never_reverts : Prop :=
  forall (R : JsRuntime) (before after : list Request) (k : Z) (item item' : OrderItem.t),
    let s := snd (serve before newStorage) in
    let s' := snd (serve after s) in
    JsMap.get k (orderItems s) = Some item ->
    JsMap.get k (orderItems s') = Some item' ->
    (OrderItem.status item = JStr "kot_printed" -> OrderItem.status item' <> JStr "pending") /\
    (OrderItem.status item = JStr "completed" ->
       OrderItem.status item' <> JStr "pending" /\ OrderItem.status item' <> JStr "kot_printed") /\
    (OrderItem.status item' = JStr "pending" \/ OrderItem.status item' = JStr "kot_printed" \/
     OrderItem.status item' = JStr "completed").

(** ** One table's order

    The store after each step of the walk the specification describes:
    create the order, add two dishes, print the kitchen ticket, print the
    bill.  These run on [DecimalRuntime.runtime]. *)

(** What the POS page posts for a new dine-in order at table 3. *)
Definition tableOrder : InsertOrder.t :=
  InsertOrder.mk JUndefined (JStr "dine_in") (JNum 3) JUndefined JUndefined
    JUndefined JUndefined JUndefined JUndefined (JStr "unpaid")
    JUndefined JUndefined JUndefined JUndefined JUndefined.

(** What the POS page posts for a dish: price as the menu's decimal
    string, status "pending". *)
Definition dish (orderId : Z) (menuItemId : float) (price : string) (quantity : float) :
    InsertOrderItem.t :=
  InsertOrderItem.mk orderId (JNum menuItemId) (JNum quantity) (JStr price)
    (JStr "pending") (JStr EmptyString).

Definition opened : MemStorage :=
  snd (serve (H := DecimalRuntime.runtime) [PostOrder tableOrder 10 10] newStorage).

Definition ordered : MemStorage :=
  snd (serve (H := DecimalRuntime.runtime)
         [PostItem (dish 1 7 "150.00" 2) 11 11; PostItem (dish 1 8 "50" 1) 12 12] opened).

Definition ticketed : MemStorage :=
  snd (serve (H := DecimalRuntime.runtime) [GetKot 1] ordered).

Definition billed : MemStorage :=
  snd (serve (H := DecimalRuntime.runtime) [GetBill 1] ticketed).

(** A later round on the same order: ticket, one more dish, a bill that is
    refused, the second ticket, the bill. *)
Definition secondRound : list Request :=
  [GetKot 1; PostItem (dish 1 9 "20" 1) 13 13; GetBill 1; GetKot 1; GetBill 1].

(** * More of the order store and its routes *)

(** [orderDate >= startDate && orderDate <= endDate], newest first. *)
Definition getOrdersByDateRange (startDate endDate : Date) : M (list Order.t) :=
  fun s =>
    (array_sort byNewest
       (filter (fun order => startDate <= Order.createdAt order /\ Order.createdAt order <= endDate)
          (JsMap.values (orders s))),
     s).

(** [Array.from(this.orders.values()).find(order => order.orderNumber === orderNumber)] *)
Definition getOrderByNumber (orderNumber : string) : M (option Order.t) :=
  fun s =>
    (List.find (fun order => strict_eq (Order.orderNumber order) (JStr orderNumber))
       (JsMap.values (orders s)),
     s).

(** [paymentMethod && paymentMethod !== 'all'] *)
Definition wantsMethod (paymentMethod : jsval) : bool :=
  truthy paymentMethod && negb (strict_eq paymentMethod (JStr "all")).

(** POST /api/orders/report, from the point where the two dates of the
    filter are built ([endDate] already moved to the end of its day). *)
Definition report_orders (startDate endDate : Date) (paymentMethod : jsval) :
    M (Response (list Order.t)) :=
  let* orders := getOrdersByDateRange startDate endDate in
  let filteredOrders :=
    if wantsMethod paymentMethod
    then filter (fun order => strict_eq (Order.paymentMethod order) paymentMethod = true) orders
    else orders in
  ret (Json 200 filteredOrders).

(** GET /api/orders/:id *)
Definition get_order (id : Z) : M (Response Order.t) :=
  let* order := getOrder id in
  match order with
  | None => ret (Message 404 "Order not found")
  | Some order => ret (Json 200 order)
  end.

(** The order whose record a request may rewrite. *)
Definition targetOrder (s : MemStorage) (rq : Request) : option Z :=
  match rq with
  | PostOrder _ _ _ => Some (currentOrderId s)
  | PutOrder id _ _ | PostPayment id _ _ _ _ _ => Some id
  | PostItem itemData _ _ => Some (InsertOrderItem.orderId itemData)
  | PutItemQuantity id _ _ | DeleteItem id _ => OrderItem.orderId <$> JsMap.get id (orderItems s)
  | PutItemStatus _ _ | GetKot _ | GetBill _ => None
  end.

(** The order whose item list a request may change. *)
Definition touchedOrder (s : MemStorage) (rq : Request) : option Z :=
  match rq with
  | PostItem itemData _ _ => Some (InsertOrderItem.orderId itemData)
  | PutItemStatus id _ | PutItemQuantity id _ _ | DeleteItem id _ =>
      OrderItem.orderId <$> JsMap.get id (orderItems s)
  | GetKot orderId | GetBill orderId => Some orderId
  | PostOrder _ _ _ | PutOrder _ _ _ | PostPayment _ _ _ _ _ _ => None
  end.

(** A request that leaves order numbers alone: anything but a
    PUT /api/orders/:id whose body carries an [orderNumber]. *)
Definition keeps_numbers (rq : Request) : bool :=
  match rq with
  | PutOrder _ body _ => bool_decide (PartialOrder.orderNumber body = None)
  | _ => true
  end.

(** A request that leaves the [id] field of every record alone: anything
    but a PUT /api/orders/:id whose body carries an [id]. *)
Definition keeps_ids (rq : Request) : bool :=
  match rq with
  | PutOrder _ body _ => bool_decide (PartialOrder.id body = None)
  | _ => true
  end.

(** A request that leaves the billing fields of [orderId] alone: anything
    but a PUT /api/orders/:id on that order whose body carries a subtotal,
    a tax, a total or a packaging fee. *)
Definition keeps_billing (orderId : Z) (rq : Request) : bool :=
  match rq with
  | PutOrder id body _ =>
      negb (Z.eqb id orderId) ||
      (bool_decide (PartialOrder.subtotal body = None) &&
       bool_decide (PartialOrder.tax body = None) &&
       bool_decide (PartialOrder.totalAmount body = None) &&
       bool_decide (PartialOrder.packagingFee body = None))
  | _ => true
  end.

(** What the POS page sends to free a table (pos-page.tsx,
    [freeTableMutation]): a DELETE for every item the order lists, then a
    PUT that marks the order.  [clock] gives the clock reading of the
    DELETE of each item. *)
Definition tableFreed : PartialOrder.t :=
  PartialOrder.mk None None None None None None None None None None None
    (Some (JStr "refunded")) None None None None
    (Some (JStr "TABLE FREED - Order canceled")).

Definition freeTableRequests (s : MemStorage) (orderId : Z) (clock : Z -> Date) (now : Date) :
    list Request :=
  map (fun item => DeleteItem (OrderItem.id item) (clock (OrderItem.id item)))
    (fst (getOrderItems orderId s))
  ++ [PutOrder orderId tableFreed now].

(** What the subtotal reads of an item. *)
Definition billedLine (x : OrderItem.t) : jsval * jsval := (OrderItem.price x, OrderItem.quantity x).

(** Every order carries the number of the key it is filed under,
    [String(1000 + key)]; the next order id is one more than the number of
    orders. *)
Definition numbered (s : MemStorage) : Prop :=
  currentOrderId s = Z.of_nat (length (orders s)) + 1 /\
  forall k order, JsMap.get k (orders s) = Some order ->
    Order.orderNumber order = JStr (pretty (1000 + k)).

(** Every order has the key it is filed under as its [id]. *)
Definition identified (s : MemStorage) : Prop :=
  forall k order, JsMap.get k (orders s) = Some order -> Order.id order = k.

(** The DELETE requests for a list of items. *)
Definition deletions (clock : Z -> Date) (l : list OrderItem.t) : list Request :=
  map (fun item => DeleteItem (OrderItem.id item) (clock (OrderItem.id item))) l.

(** * The menu: [MemStorage] and the file-backed [LocalIntegratedStorage]

    The menu methods of [MemStorage] use two fields of their own, so they
    run on a state of their own.  Category ids are integers, like every
    identifier here; [isActive] is what the record holds, which is
    [undefined] when the item was created without it (the store fills in
    no default). *)

Module MenuItem.
Record t : Type := mk {
  id : Z;
  name : jsval;
  price : jsval;
  categoryId : Z;
  isActive : jsval
}.

(** [{ ...item, isActive: !item.isActive }] *)
Definition toggled (item : t) : t :=
  mk (id item) (name item) (price item) (categoryId item) (JBool (negb (truthy (isActive item)))).
End MenuItem.

Module InsertMenuItem.
Record t : Type := mk {
  name : jsval;
  price : jsval;
  categoryId : Z;
  isActive : jsval
}.
End InsertMenuItem.

(** [Partial<InsertMenuItem>] *)
Module PartialMenuItem.
Record t : Type := mk {
  name : option jsval;
  price : option jsval;
  categoryId : option Z;
  isActive : option jsval
}.
End PartialMenuItem.

(** [{ ...item, id }] *)
Definition newMenuItem (item : InsertMenuItem.t) (i : Z) : MenuItem.t :=
  MenuItem.mk i (InsertMenuItem.name item) (InsertMenuItem.price item)
    (InsertMenuItem.categoryId item) (InsertMenuItem.isActive item).

(** [{ ...existingItem, ...item }] *)
Definition mergeMenuItem (existing : MenuItem.t) (item : PartialMenuItem.t) : MenuItem.t :=
  MenuItem.mk (MenuItem.id existing)
    (default (MenuItem.name existing) (PartialMenuItem.name item))
    (default (MenuItem.price existing) (PartialMenuItem.price item))
    (default (MenuItem.categoryId existing) (PartialMenuItem.categoryId item))
    (default (MenuItem.isActive existing) (PartialMenuItem.isActive item)).

(** The part of [MemStorage] that holds the menu. *)
Record MenuStorage : Type := mkMenu {
  menuItems : JsMap MenuItem.t;
  currentMenuItemId : Z
}.

Module Menu.

Definition getAllMenuItems (s : MenuStorage) : list MenuItem.t * MenuStorage :=
  (JsMap.values (menuItems s), s).

Definition getMenuItem (id : Z) (s : MenuStorage) : option MenuItem.t * MenuStorage :=
  (JsMap.get id (menuItems s), s).

(** [item.categoryId === categoryId && item.isActive] *)
Definition getMenuItemsByCategory (categoryId : Z) (s : MenuStorage) :
    list MenuItem.t * MenuStorage :=
  (filter (fun item => MenuItem.categoryId item = categoryId /\
                       truthy (MenuItem.isActive item) = true)
     (JsMap.values (menuItems s)),
   s).

Definition createMenuItem (item : InsertMenuItem.t) (s : MenuStorage) : MenuItem.t * MenuStorage :=
  let id := currentMenuItemId s in
  let newItem := newMenuItem item id in
  (newItem, mkMenu (JsMap.set id newItem (menuItems s)) (id + 1)).

Definition updateMenuItem (id : Z) (item : PartialMenuItem.t) (s : MenuStorage) :
    option MenuItem.t * MenuStorage :=
  match JsMap.get id (menuItems s) with
  | None => (None, s)
  | Some existingItem =>
      let updatedItem := mergeMenuItem existingItem item in
      (Some updatedItem, mkMenu (JsMap.set id updatedItem (menuItems s)) (currentMenuItemId s))
  end.

Definition toggleMenuItem (id : Z) (s : MenuStorage) : option MenuItem.t * MenuStorage :=
  match JsMap.get id (menuItems s) with
  | None => (None, s)
  | Some existingItem =>
      let updatedItem := MenuItem.toggled existingItem in
      (Some updatedItem, mkMenu (JsMap.set id updatedItem (menuItems s)) (currentMenuItemId s))
  end.

End Menu.

(** ** The menu files of [LocalFileStorage]

    The directory data/menu-items holds one file menu-item-<id>.json per
    saved item.  A file holds [JSON.stringify] of the item and is read back
    with [JSON.parse]: a number that is not finite comes back as [null],
    minus zero as zero, everything else as it was.  Whether a write
    succeeds is the file system's to say, so it is an input; a file that
    exists is taken to be readable.  The order in which [readdir] lists
    the files is the file system's as well: the association list stands
    for the directory in one such order, and the properties of the
    listings below speak of membership only, never of the sequence. *)

Definition jsonValue (v : jsval) : jsval :=
  match v with
  | JNum x => if is_nan x || is_infinity x then JNull
              else if is_zero x then JNum 0%float else JNum x
  | _ => v
  end.

(** [JSON.parse(JSON.stringify(item))] *)
Definition jsonMenuItem (item : MenuItem.t) : MenuItem.t :=
  MenuItem.mk (MenuItem.id item) (jsonValue (MenuItem.name item)) (jsonValue (MenuItem.price item))
    (MenuItem.categoryId item) (jsonValue (MenuItem.isActive item)).

(** What a call gives back: a value, or an exception. *)
Inductive Outcome (A : Type) : Type :=
| Returned (a : A)
| Thrown.
Arguments Returned {A} a.
Arguments Thrown {A}.

Module LocalFileStorage.

(** [saveMenuItem]: rethrows when the write fails. *)
Definition saveMenuItem (menuItemId : Z) (menuItemData : MenuItem.t) (written : bool)
    (files : JsMap MenuItem.t) : Outcome unit * JsMap MenuItem.t :=
  if written
  then (Returned tt, JsMap.set menuItemId (jsonMenuItem menuItemData) files)
  else (Thrown, files).

(** [getMenuItem]: the parsed file, or [null] when there is none. *)
Definition getMenuItem (menuItemId : Z) (files : JsMap MenuItem.t) : option MenuItem.t :=
  JsMap.get menuItemId files.

Definition getAllMenuItems (files : JsMap MenuItem.t) : list MenuItem.t :=
  JsMap.values files.

(** [allItems.filter(item => item.categoryId === categoryId)] *)
Definition getMenuItemsByCategory (categoryId : Z) (files : JsMap MenuItem.t) : list MenuItem.t :=
  filter (fun item => MenuItem.categoryId item = categoryId) (getAllMenuItems files).

End LocalFileStorage.

(** The state [LocalIntegratedStorage] works on: the memory store it
    wraps and the menu files. *)
Record Integrated : Type := mkIntegrated {
  memStorage : MenuStorage;
  menuFiles : JsMap MenuItem.t
}.

Module LocalIntegratedStorage.

Definition getAllMenuItems (s : Integrated) : list MenuItem.t :=
  let menuItems := LocalFileStorage.getAllMenuItems (menuFiles s) in
  if (0 <? length menuItems)%nat then menuItems
  else fst (Menu.getAllMenuItems (memStorage s)).

Definition getMenuItem (id : Z) (s : Integrated) : option MenuItem.t :=
  match LocalFileStorage.getMenuItem id (menuFiles s) with
  | Some menuItem => Some menuItem
  | None => fst (Menu.getMenuItem id (memStorage s))
  end.

Definition getMenuItemsByCategory (categoryId : Z) (s : Integrated) : list MenuItem.t :=
  let menuItems := LocalFileStorage.getMenuItemsByCategory categoryId (menuFiles s) in
  if (0 <? length menuItems)%nat then menuItems
  else fst (Menu.getMenuItemsByCategory categoryId (memStorage s)).

(** The item is created in memory first; a failed write is rethrown, with
    the item already in memory. *)
Definition createMenuItem (item : InsertMenuItem.t) (written : bool) (s : Integrated) :
    Outcome MenuItem.t * Integrated :=
  let (newItem, mem') := Menu.createMenuItem item (memStorage s) in
  let (saved, files') :=
    LocalFileStorage.saveMenuItem (MenuItem.id newItem) newItem written (menuFiles s) in
  match saved with
  | Returned _ => (Returned newItem, mkIntegrated mem' files')
  | Thrown => (Thrown, mkIntegrated mem' files')
  end.

(** The [catch] branch runs the memory update once more and returns
    its result. *)
Definition updateMenuItem (id : Z) (item : PartialMenuItem.t) (written : bool) (s : Integrated) :
    option MenuItem.t * Integrated :=
  let (updatedItem, mem') := Menu.updateMenuItem id item (memStorage s) in
  match updatedItem with
  | None => (None, mkIntegrated mem' (menuFiles s))
  | Some updated =>
      let (saved, files') := LocalFileStorage.saveMenuItem id updated written (menuFiles s) in
      match saved with
      | Returned _ => (Some updated, mkIntegrated mem' files')
      | Thrown =>
          let (again, mem'') := Menu.updateMenuItem id item mem' in
          (again, mkIntegrated mem'' files')
      end
  end.

(** The [catch] branch runs the memory toggle once more and returns
    its result. *)
Definition toggleMenuItem (id : Z) (written : bool) (s : Integrated) :
    option MenuItem.t * Integrated :=
  let (toggled, mem') := Menu.toggleMenuItem id (memStorage s) in
  match toggled with
  | None => (None, mkIntegrated mem' (menuFiles s))
  | Some item =>
      let (saved, files') := LocalFileStorage.saveMenuItem id item written (menuFiles s) in
      match saved with
      | Returned _ => (Some item, mkIntegrated mem' files')
      | Thrown =>
          let (again, mem'') := Menu.toggleMenuItem id mem' in
          (again, mkIntegrated mem'' files')
      end
  end.

End LocalIntegratedStorage.



(** ** Sample data for the further properties *)

(** A second table opened after the first has its two dishes. *)
Definition twoTables : MemStorage :=
  snd (serve (H := DecimalRuntime.runtime) [PostOrder tableOrder 20 20] ordered).

(** A menu item posted without [isActive]. *)
Definition paneer : InsertMenuItem.t :=
  InsertMenuItem.mk (JStr "Paneer Tikka") (JStr "180.00") 2 JUndefined.

(** A menu of one active item, in memory only. *)
Definition menuOfOne : Integrated :=
  mkIntegrated
    (mkMenu [(1, MenuItem.mk 1 (JStr "Paneer Tikka") (JStr "180.00") 2 (JBool true))] 2) [].

(** * Properties *)

(** ** Sorting *)

Lemma sort_insert_Permutation {A} (compareFn : A -> A -> Z) x l :
  sort_insert compareFn x l ≡ₚ x :: l.
Proof.
  induction l as [|y l IH]; [done|]. cbn [sort_insert].
  destruct (0 <? compareFn x y); [|done]. rewrite IH. apply Permutation_swap.
Qed.

Lemma array_sort_Permutation {A} (compareFn : A -> A -> Z) l : array_sort compareFn l ≡ₚ l.
Proof.
  induction l as [|x l IH]; [done|]. unfold array_sort in *. cbn [foldr].
  by rewrite sort_insert_Permutation, IH.
Qed.

(** The sorted list is in the order of [compareFn], when that is a
    consistent comparison. *)
Lemma array_sort_sorted {A} (compareFn : A -> A -> Z) l :
  (forall a b c, compareFn a b <= 0 -> compareFn b c <= 0 -> compareFn a c <= 0) ->
  (forall a b, 0 < compareFn a b -> compareFn b a <= 0) ->
  StronglySorted (fun a b => compareFn a b <= 0) (array_sort compareFn l).
Proof.
  intros Htrans Htotal. induction l as [|x l IH]; [constructor|].
  unfold array_sort in *. cbn [foldr]. revert IH. generalize (foldr (sort_insert compareFn) [] l).
  clear l. intros l. induction 1 as [|y l Hl IH Hy]; cbn [sort_insert].
  - repeat constructor.
  - destruct (Z.ltb_spec 0 (compareFn x y)) as [Hlt|Hge].
    + constructor; [done|]. rewrite sort_insert_Permutation. constructor; [by apply Htotal | done].
    + constructor; [by constructor|]. constructor; [done|].
      eapply Forall_impl; [exact Hy|]. intros z Hz. by eapply Htrans.
Qed.

(** The sort is stable: the elements of one creation time keep the
    sequence they had. *)
Lemma array_sort_stable (t : Date) (l : list Order.t) :
  filter (fun o => Order.createdAt o = t) (array_sort byNewest l) =
  filter (fun o => Order.createdAt o = t) l.
Proof.
  induction l as [|x l IH]; [done|]. unfold array_sort in *. cbn [foldr].
  rewrite filter_cons, <- IH. generalize (foldr (sort_insert byNewest) [] l). clear. intros l.
  induction l as [|y l IH]; [done|]. cbn [sort_insert].
  destruct (Z.ltb_spec 0 (byNewest x y)) as [Hlt|Hge]; [|done].
  rewrite !filter_cons, IH. unfold byNewest in Hlt.
  destruct (decide (Order.createdAt x = t)), (decide (Order.createdAt y = t)); try done. lia.
Qed.

Lemma byNewest_sorted (l : list Order.t) :
  StronglySorted (fun a b => Order.createdAt b <= Order.createdAt a) (array_sort byNewest l).
Proof.
  assert (StronglySorted (fun a b => byNewest a b <= 0) (array_sort byNewest l)) as Hs.
  { apply array_sort_sorted; unfold byNewest; intros; lia. }
  induction Hs as [|x l' Hl IH Hx]; constructor; [done|].
  eapply Forall_impl; [exact Hx|]. unfold byNewest. intros y Hy. simpl in Hy. lia.
Qed.

(** ** The [Map] operations *)

Section JsMapFacts.
Context {V : Type}.
Implicit Types (m : list (Z * V)) (k : Z) (v : V).

Lemma get_elem_of m k v : JsMap.get k m = Some v -> (k, v) ∈ m.
Proof.
  induction m as [|[k' v'] m IH]; simpl; [done|].
  destruct (Z.eqb_spec k' k) as [->|_].
  - intros [= ->]. left.
  - intros Hg. right. auto.
Qed.

Lemma get_None_keys m k : JsMap.get k m = None <-> k ∉ JsMap.keys m.
Proof.
  induction m as [|[k' v'] m IH]; simpl.
  - split; [intros _; apply not_elem_of_nil | done].
  - rewrite not_elem_of_cons. destruct (Z.eqb_spec k' k) as [->|Hne].
    + split; [done | intros [? _]; done].
    + rewrite IH. split; [intros ?; split; [congruence | done] | intros [_ ?]; done].
Qed.

Lemma get_Some_keys m k v : JsMap.get k m = Some v -> k ∈ JsMap.keys m.
Proof.
  intros Hg. apply get_elem_of in Hg.
  unfold JsMap.keys. change k with (fst (k, v)). by apply list_elem_of_fmap_2.
Qed.

Lemma elem_of_keys m k v : (k, v) ∈ m -> k ∈ JsMap.keys m.
Proof.
  intros Hin. unfold JsMap.keys. change k with (fst (k, v)). by apply list_elem_of_fmap_2.
Qed.

Lemma get_of_elem m k v : NoDup (JsMap.keys m) -> (k, v) ∈ m -> JsMap.get k m = Some v.
Proof.
  induction m as [|[k' v'] m IH]; simpl.
  - intros _ Hin. by apply elem_of_nil in Hin.
  - intros Hnd Hin. apply NoDup_cons in Hnd as [Hk' Hnd].
    apply elem_of_cons in Hin as [[= -> ->]|Hin].
    + by rewrite Z.eqb_refl.
    + destruct (Z.eqb_spec k' k) as [->|_]; [|by apply IH].
      exfalso. apply Hk'. by eapply elem_of_keys.
Qed.

Lemma get_set m k k' v : JsMap.get k' (JsMap.set k v m) = if Z.eqb k k' then Some v else JsMap.get k' m.
Proof.
  induction m as [|[k0 v0] m IH]; simpl.
  - done.
  - destruct (Z.eqb_spec k0 k) as [->|Hne]; simpl.
    + destruct (Z.eqb_spec k k'); done.
    + rewrite IH. destruct (Z.eqb_spec k0 k') as [->|_]; [|done].
      destruct (Z.eqb_spec k k'); [congruence | done].
Qed.

Lemma keys_set_present m k v : k ∈ JsMap.keys m -> JsMap.keys (JsMap.set k v m) = JsMap.keys m.
Proof.
  induction m as [|[k0 v0] m IH]; simpl.
  - intros Hin. by apply elem_of_nil in Hin.
  - intros Hin. destruct (Z.eqb_spec k0 k) as [->|Hne]; simpl; [done|].
    f_equal. apply IH. apply elem_of_cons in Hin as [?|?]; [congruence | done].
Qed.

Lemma set_absent m k v : k ∉ JsMap.keys m -> JsMap.set k v m = m ++ [(k, v)].
Proof.
  induction m as [|[k0 v0] m IH]; simpl; [done|].
  intros Hin. apply not_elem_of_cons in Hin as [Hne Hin].
  destruct (Z.eqb_spec k0 k) as [->|_]; [done|]. f_equal. by apply IH.
Qed.

Lemma keys_set m k v :
  JsMap.keys (JsMap.set k v m) = if bool_decide (k ∈ JsMap.keys m) then JsMap.keys m else JsMap.keys m ++ [k].
Proof.
  case_bool_decide.
  - by apply keys_set_present.
  - rewrite set_absent by done. unfold JsMap.keys. by rewrite map_app.
Qed.

Lemma elem_of_set m k v x : x ∈ JsMap.set k v m -> x = (k, v) ∨ x ∈ m.
Proof.
  induction m as [|[k0 v0] m IH]; simpl.
  - intros Hin. apply list_elem_of_singleton in Hin. by left.
  - destruct (Z.eqb_spec k0 k) as [->|_]; intros Hin; apply elem_of_cons in Hin as [->|Hin].
    + by left.
    + right. by right.
    + right. left.
    + destruct (IH Hin); [by left | right; by right].
Qed.

Lemma NoDup_keys_set m k v : NoDup (JsMap.keys m) -> NoDup (JsMap.keys (JsMap.set k v m)).
Proof.
  intros Hnd. rewrite keys_set. case_bool_decide; [done|].
  apply NoDup_app. split_and!; [done | | apply NoDup_singleton].
  intros x Hx Hx'. apply list_elem_of_singleton in Hx'. by subst.
Qed.

Lemma length_set m k v :
  length (JsMap.set k v m) = if bool_decide (k ∈ JsMap.keys m) then length m else S (length m).
Proof.
  case_bool_decide as Hin.
  - apply (keys_set_present m k v) in Hin. apply (f_equal length) in Hin.
    unfold JsMap.keys in Hin. by rewrite !length_map in Hin.
  - rewrite set_absent by done. rewrite length_app. simpl. lia.
Qed.

Lemma elem_of_remove m k x : x ∈ JsMap.remove k m -> x ∈ m.
Proof.
  induction m as [|[k0 v0] m IH]; simpl; [done|].
  destruct (Z.eqb_spec k0 k) as [->|_]; intros Hin.
  - by right.
  - apply elem_of_cons in Hin as [->|Hin]; [left | right; auto].
Qed.

Lemma keys_remove_sub m k x : x ∈ JsMap.keys (JsMap.remove k m) -> x ∈ JsMap.keys m.
Proof.
  unfold JsMap.keys. intros Hin. apply list_elem_of_fmap in Hin as ([k0 v0] & -> & Hin).
  apply elem_of_remove in Hin. by eapply elem_of_keys.
Qed.

Lemma NoDup_keys_remove m k : NoDup (JsMap.keys m) -> NoDup (JsMap.keys (JsMap.remove k m)).
Proof.
  induction m as [|[k0 v0] m IH]; simpl; [done|].
  intros Hnd. apply NoDup_cons in Hnd as [Hk0 Hnd].
  destruct (Z.eqb_spec k0 k) as [->|_]; [done|]. simpl.
  apply NoDup_cons. split; [|by apply IH].
  intros Hin. apply Hk0. by eapply keys_remove_sub.
Qed.

Lemma get_remove m k k' :
  NoDup (JsMap.keys m) ->
  JsMap.get k' (JsMap.remove k m) = if Z.eqb k k' then None else JsMap.get k' m.
Proof.
  induction m as [|[k0 v0] m IH]; simpl.
  - by destruct (Z.eqb k k').
  - intros Hnd. apply NoDup_cons in Hnd as [Hk0 Hnd].
    destruct (Z.eqb_spec k0 k) as [->|Hne]; simpl.
    + destruct (Z.eqb_spec k k') as [Heq|_]; [|done]. subst k'. by apply get_None_keys.
    + rewrite IH by done. destruct (Z.eqb_spec k0 k') as [->|_]; [|done].
      destruct (Z.eqb_spec k k'); [congruence | done].
Qed.

(** Over unique keys, [set] on a present key rewrites that one entry. *)
Lemma set_present_map m k v :
  NoDup (JsMap.keys m) -> k ∈ JsMap.keys m ->
  JsMap.set k v m = map (fun p => if Z.eqb (fst p) k then (k, v) else p) m.
Proof.
  induction m as [|[k0 v0] m IH]; simpl.
  - intros _ Hin. by apply elem_of_nil in Hin.
  - intros Hnd Hin. apply NoDup_cons in Hnd as [Hk0 Hnd].
    destruct (Z.eqb_spec k0 k) as [->|Hne].
    + f_equal. symmetry. rewrite <- (map_id m) at 2. apply map_ext_in.
      intros [k1 v1] Hin1. simpl. destruct (Z.eqb_spec k1 k) as [->|_]; [|done].
      exfalso. apply Hk0. apply list_elem_of_In in Hin1. by eapply elem_of_keys.
    + f_equal. apply IH; [done|]. apply elem_of_cons in Hin as [?|?]; [congruence | done].
Qed.

End JsMapFacts.

(** ** The representation invariant of the store *)

Lemma newStorage_wf : wf newStorage.
Proof. split; simpl; constructor. Qed.

Lemma bind_run {A B} (c : M A) (k : A -> M B) s : bind c k s = k (fst (c s)) (snd (c s)).
Proof. unfold bind. by destruct (c s). Qed.

Lemma forEach_cons {A B} (f : A -> M B) x xs s :
  snd (forEach f (x :: xs) s) = snd (forEach f xs (snd (f x s))).
Proof. simpl. rewrite !bind_run. done. Qed.

(** An invariant of every call is an invariant of the whole batch. *)
Lemma forEach_invariant {A B} (P : MemStorage -> Prop) (f : A -> M B) xs :
  (forall x s, P s -> P (snd (f x s))) -> forall s, P s -> P (snd (forEach f xs s)).
Proof.
  intros Hf. induction xs as [|x xs IH]; intros s Hs; [done|].
  rewrite forEach_cons. apply IH, Hf, Hs.
Qed.

Lemma orders_rewritten_refl s : orders_rewritten s s.
Proof. by repeat split. Qed.

Lemma orders_rewritten_wf s s' : orders_rewritten s s' -> wf s -> wf s'.
Proof.
  intros (Hk & Hi & Hc & Hci) [H1 H2 H3 H4 H5].
  split; rewrite ?Hk, ?Hi, ?Hc, ?Hci; done.
Qed.

Lemma set_present_rewrites s id (o o' : Order.t) :
  JsMap.get id (orders s) = Some o ->
  orders_rewritten s (snd (set_orders (JsMap.set id o' (orders s)) s)).
Proof.
  intros Hg. repeat split; simpl. apply keys_set_present. by eapply get_Some_keys.
Qed.

Lemma updateOrder_rewrites id p now s : orders_rewritten s (snd (updateOrder id p now s)).
Proof.
  unfold updateOrder. destruct (JsMap.get id (orders s)) eqn:Hg.
  - by eapply set_present_rewrites.
  - apply orders_rewritten_refl.
Qed.

Lemma updateOrderPayment_rewrites id pm r c b now s :
  orders_rewritten s (snd (updateOrderPayment id pm r c b now s)).
Proof.
  unfold updateOrderPayment. destruct (JsMap.get id (orders s)) eqn:Hg.
  - by eapply set_present_rewrites.
  - apply orders_rewritten_refl.
Qed.

Section StoreFacts.
Context `{JsRuntime}.

(** What [recalculateOrderTotal] does to a state, in one equation. *)
Lemma recalculateOrderTotal_run orderId now s :
  recalculateOrderTotal orderId now s =
  match JsMap.get orderId (orders s) with
  | None => (tt, s)
  | Some order =>
      let subtotal := orderSubtotal (fst (getOrderItems orderId s)) in
      let tax := orderTax subtotal in
      let totalAmount := orderTotalAmount subtotal tax (Order.packagingFee order) in
      (tt, snd (updateOrder orderId
                  (PartialOrder.totals (JStr (numToString subtotal)) (JStr (numToString tax))
                     (JStr (numToString totalAmount))) now s))
  end.
Proof.
  unfold recalculateOrderTotal. rewrite bind_run. simpl.
  destruct (JsMap.get orderId (orders s)) eqn:Hg; [|done].
  rewrite bind_run. simpl. rewrite bind_run. done.
Qed.

Lemma recalculateOrderTotal_rewrites orderId now s :
  orders_rewritten s (snd (recalculateOrderTotal orderId now s)).
Proof.
  rewrite recalculateOrderTotal_run. destruct (JsMap.get orderId (orders s)).
  - apply updateOrder_rewrites.
  - apply orders_rewritten_refl.
Qed.

Lemma addOrderItem_run item created now s :
  addOrderItem item created now s =
  let id := currentOrderItemId s in
  let newItem := newOrderItem item id created in
  (newItem,
   snd (recalculateOrderTotal (InsertOrderItem.orderId item) now
          (mkStorage (orders s) (JsMap.set id newItem (orderItems s))
             (currentOrderId s) (id + 1)))).
Proof. unfold addOrderItem. rewrite !bind_run. done. Qed.

End StoreFacts.

Section MapInvariants.
Context {V : Type}.
Implicit Types (m : list (Z * V)) (k : Z) (v : V).

Lemma Forall_keys_set (P : Z -> Prop) m k v :
  Forall P (JsMap.keys m) -> P k -> Forall P (JsMap.keys (JsMap.set k v m)).
Proof.
  intros Hm Hk. rewrite keys_set. case_bool_decide; [done|].
  apply Forall_app. split; [done|]. by constructor.
Qed.

Lemma Forall_set (Q : Z * V -> Prop) m k v :
  Forall Q m -> Q (k, v) -> Forall Q (JsMap.set k v m).
Proof.
  rewrite !Forall_forall. intros Hm Hk x Hx.
  apply elem_of_set in Hx as [->|Hx]; auto.
Qed.

Lemma Forall_keys_remove (P : Z -> Prop) m k :
  Forall P (JsMap.keys m) -> Forall P (JsMap.keys (JsMap.remove k m)).
Proof.
  rewrite !Forall_forall. intros Hm x Hx. apply Hm. by eapply keys_remove_sub.
Qed.

Lemma Forall_remove (Q : Z * V -> Prop) m k : Forall Q m -> Forall Q (JsMap.remove k m).
Proof.
  rewrite !Forall_forall. intros Hm x Hx. apply Hm. by eapply elem_of_remove.
Qed.

Lemma Forall_keys_lt_succ m (c : Z) :
  Forall (fun k => k < c) (JsMap.keys m) -> Forall (fun k => k < c + 1) (JsMap.keys m).
Proof. intros Hm. eapply Forall_impl; [exact Hm|]. intros k Hk. simpl in Hk. lia. Qed.

End MapInvariants.

Section Preservation.
Context `{JsRuntime}.

Lemma createOrder_run order created updated s :
  createOrder order created updated s =
  let id := currentOrderId s in
  let newOrder := Order.create order id created updated in
  (newOrder,
   mkStorage (JsMap.set id newOrder (orders s)) (orderItems s) (id + 1) (currentOrderItemId s)).
Proof. unfold createOrder. rewrite bind_run. done. Qed.

Lemma createOrder_wf order created updated s : wf s -> wf (snd (createOrder order created updated s)).
Proof.
  intros [H1 H2 H3 H4 H5]. rewrite createOrder_run. split; simpl; try done.
  - by apply NoDup_keys_set.
  - apply Forall_keys_set; [by apply Forall_keys_lt_succ | lia].
Qed.

Lemma updateOrder_wf id p now s : wf s -> wf (snd (updateOrder id p now s)).
Proof. apply orders_rewritten_wf, updateOrder_rewrites. Qed.

Lemma updateOrderPayment_wf id pm r c b now s : wf s -> wf (snd (updateOrderPayment id pm r c b now s)).
Proof. apply orders_rewritten_wf, updateOrderPayment_rewrites. Qed.

Lemma recalculateOrderTotal_wf orderId now s : wf s -> wf (snd (recalculateOrderTotal orderId now s)).
Proof. apply orders_rewritten_wf, recalculateOrderTotal_rewrites. Qed.

Lemma addOrderItem_wf item created now s : wf s -> wf (snd (addOrderItem item created now s)).
Proof.
  intros [H1 H2 H3 H4 H5]. rewrite addOrderItem_run. simpl.
  apply recalculateOrderTotal_wf. split; simpl; try done.
  - by apply NoDup_keys_set.
  - apply Forall_keys_set; [by apply Forall_keys_lt_succ | lia].
  - by apply Forall_set.
Qed.

(** Writing back a changed copy of the item filed under [id]. *)
Lemma rewrite_item_wf s id (item item' : OrderItem.t) :
  JsMap.get id (orderItems s) = Some item ->
  OrderItem.id item' = OrderItem.id item ->
  wf s -> wf (snd (set_orderItems (JsMap.set id item' (orderItems s)) s)).
Proof.
  intros Hg Hid [H1 H2 H3 H4 H5]. split; simpl; try done.
  - by apply NoDup_keys_set.
  - rewrite keys_set_present; [done | by eapply get_Some_keys].
  - apply Forall_set; [done|]. simpl. rewrite Hid.
    apply get_elem_of in Hg. rewrite Forall_forall in H5. apply (H5 _ Hg).
Qed.

Lemma updateOrderItemStatus_wf id status s : wf s -> wf (snd (updateOrderItemStatus id status s)).
Proof.
  intros Hwf. unfold updateOrderItemStatus.
  destruct (JsMap.get id (orderItems s)) eqn:Hg; [|done].
  by eapply rewrite_item_wf.
Qed.

Lemma updateOrderItemQuantity_wf id quantity now s :
  wf s -> wf (snd (updateOrderItemQuantity id quantity now s)).
Proof.
  intros Hwf. unfold updateOrderItemQuantity.
  destruct (JsMap.get id (orderItems s)) eqn:Hg; [|done].
  cbv zeta. cbn [snd]. apply recalculateOrderTotal_wf. by eapply rewrite_item_wf.
Qed.

Lemma removeOrderItem_run id now s :
  removeOrderItem id now s =
  match JsMap.get id (orderItems s) with
  | None => (false, s)
  | Some item =>
      (true, snd (recalculateOrderTotal (OrderItem.orderId item) now
                    (mkStorage (orders s) (JsMap.remove id (orderItems s))
                       (currentOrderId s) (currentOrderItemId s))))
  end.
Proof.
  unfold removeOrderItem, JsMap.delete. by destruct (JsMap.get id (orderItems s)).
Qed.

Lemma removeOrderItem_wf id now s : wf s -> wf (snd (removeOrderItem id now s)).
Proof.
  intros Hwf. rewrite removeOrderItem_run.
  destruct (JsMap.get id (orderItems s)) eqn:Hg; [|done].
  cbn [snd]. apply recalculateOrderTotal_wf. destruct Hwf as [H1 H2 H3 H4 H5].
  split; simpl; try done.
  - by apply NoDup_keys_remove.
  - by apply Forall_keys_remove.
  - by apply Forall_remove.
Qed.

End Preservation.

(** ** Batches of status updates *)

Lemma keys_restatus sel st m : JsMap.keys (restatus sel st m) = JsMap.keys m.
Proof.
  unfold restatus, JsMap.keys. rewrite map_map. apply map_ext.
  intros [k it]. simpl. by destruct (sel k).
Qed.

Lemma get_restatus sel st m k :
  JsMap.get k (restatus sel st m) =
  (fun it => if sel k then OrderItem.with_status it st else it) <$> JsMap.get k m.
Proof.
  induction m as [|[k0 it0] m IH]; simpl; [done|].
  destruct (sel k0) eqn:Hs; simpl; destruct (Z.eqb_spec k0 k) as [->|_]; simpl; try done.
  - by rewrite Hs.
  - by rewrite Hs.
Qed.

Lemma restatus_ext sel sel' st m :
  (forall k, k ∈ JsMap.keys m -> sel k = sel' k) -> restatus sel st m = restatus sel' st m.
Proof.
  intros Hs. unfold restatus. apply map_ext_in. intros [k it] Hin. simpl.
  rewrite (Hs k); [done|]. apply list_elem_of_In in Hin. by eapply elem_of_keys.
Qed.

Lemma restatus_none st m : restatus (fun _ => false) st m = m.
Proof. unfold restatus. rewrite <- (map_id m) at 2. by apply map_ext. Qed.

Lemma restatus_restatus sel sel' st m :
  restatus sel' st (restatus sel st m) = restatus (fun k => sel k || sel' k) st m.
Proof.
  unfold restatus. rewrite map_map. apply map_ext. intros [k it]. simpl.
  destruct (sel k); simpl; [|done]. by destruct (sel' k).
Qed.

Lemma updateOrderItemStatus_run id st s :
  NoDup (JsMap.keys (orderItems s)) ->
  snd (updateOrderItemStatus id st s) =
  mkStorage (orders s) (restatus (Z.eqb id) st (orderItems s))
    (currentOrderId s) (currentOrderItemId s).
Proof.
  intros Hnd. unfold updateOrderItemStatus.
  destruct (JsMap.get id (orderItems s)) as [item|] eqn:Hg; simpl.
  - f_equal. rewrite set_present_map; [|done|by eapply get_Some_keys].
    unfold restatus. apply map_ext_in. intros [k it] Hin. simpl.
    rewrite (Z.eqb_sym id k). destruct (Z.eqb_spec k id) as [->|_]; [|done].
    apply list_elem_of_In in Hin. apply (get_of_elem _ _ _ Hnd) in Hin. congruence.
  - rewrite (restatus_ext _ (fun _ => false)), restatus_none; [by destruct s|].
    intros k Hk. destruct (Z.eqb_spec id k) as [<-|_]; [|done].
    by apply get_None_keys in Hg.
Qed.

Lemma forEach_updateOrderItemStatus st (items : list OrderItem.t) s :
  NoDup (JsMap.keys (orderItems s)) ->
  snd (forEach (fun item => updateOrderItemStatus (OrderItem.id item) st) items s) =
  mkStorage (orders s)
    (restatus (fun k => bool_decide (k ∈ map OrderItem.id items)) st (orderItems s))
    (currentOrderId s) (currentOrderItemId s).
Proof.
  revert s. induction items as [|item items IH]; intros s Hnd.
  - change (snd (forEach _ [] s)) with s.
    rewrite (restatus_ext _ (fun _ => false)), restatus_none; [by destruct s|].
    intros k _. apply bool_decide_eq_false, not_elem_of_nil.
  - rewrite forEach_cons, updateOrderItemStatus_run by done.
    rewrite IH by (simpl; by rewrite keys_restatus). simpl.
    f_equal. rewrite restatus_restatus. apply restatus_ext. intros k _.
    destruct (Z.eqb_spec (OrderItem.id item) k) as [<-|Hne]; simpl.
    + symmetry. apply bool_decide_eq_true. left.
    + apply bool_decide_ext. rewrite elem_of_cons.
      split; [by right | intros [Heq|Hin]; [congruence | done]].
Qed.

(** In a well-formed store an item is selected through its [id] field
    exactly when it is the one filed under that key. *)
Lemma selected_by_id s (P : OrderItem.t -> Prop) `{!forall x, Decision (P x)} k item :
  wf s -> JsMap.get k (orderItems s) = Some item ->
  k ∈ map OrderItem.id (filter P (JsMap.values (orderItems s))) <-> P item.
Proof.
  intros [_ _ Hnd _ Hid] Hg. rewrite Forall_forall in Hid. split.
  - intros Hin. apply list_elem_of_fmap in Hin as (item' & -> & Hin).
    apply list_elem_of_filter in Hin as [HP Hin].
    apply list_elem_of_fmap in Hin as ([k' it'] & -> & Hin). simpl in *.
    pose proof (Hid _ Hin) as Hk. simpl in Hk. subst k'.
    apply (get_of_elem _ _ _ Hnd) in Hin. congruence.
  - intros HP. apply get_elem_of in Hg. pose proof (Hid _ Hg) as Hk. simpl in Hk.
    apply list_elem_of_fmap. exists item. split; [done|].
    apply list_elem_of_filter. split; [done|].
    apply list_elem_of_fmap. by exists (k, item).
Qed.

(** ** Printing the kitchen ticket and the bill *)

Lemma is_pending_spec item : is_pending item = true <-> OrderItem.status item = JStr "pending".
Proof.
  unfold is_pending. destruct (OrderItem.status item) as [| | |x|st]; simpl; try done.
  destruct (String.eqb_spec st "pending"); split; congruence.
Qed.

Lemma filter_none {A} (P : A -> Prop) `{!forall x, Decision (P x)} (l : list A) :
  Forall (fun x => ~ P x) l -> filter P l = [].
Proof.
  induction 1 as [|x l Hx _ IH]; [done|]. by rewrite filter_cons_False.
Qed.

Lemma get_kot_run orderId s :
  get_kot orderId s =
  match JsMap.get orderId (orders s) with
  | None => (Message 404 "Order not found", s)
  | Some order =>
      let pendingItems := filter (fun item => is_pending item = true) (itemsOf s orderId) in
      let s' := snd (forEach (fun item => updateOrderItemStatus (OrderItem.id item) (JStr "kot_printed"))
                       pendingItems s) in
      (Json 200 (mkKot order pendingItems (itemsOf s' orderId)), s')
  end.
Proof.
  unfold get_kot. rewrite bind_run. simpl.
  destruct (JsMap.get orderId (orders s)); [|done].
  rewrite !bind_run. done.
Qed.

Lemma get_bill_run orderId s :
  get_bill orderId s =
  match JsMap.get orderId (orders s) with
  | None => (Message 404 "Order not found", s)
  | Some order =>
      let items := itemsOf s orderId in
      if (0 <? length (filter (fun item => is_pending item = true) items))%nat
      then (Message 400 "Cannot print bill with pending items. Please print KOT first.", s)
      else
        let s' := snd (forEach (fun item => updateOrderItemStatus (OrderItem.id item) (JStr "completed"))
                         items s) in
        (Json 200 (mkBill order (itemsOf s' orderId)), s')
  end.
Proof.
  unfold get_bill. rewrite bind_run. simpl.
  destruct (JsMap.get orderId (orders s)); [|done].
  rewrite bind_run. simpl. fold (itemsOf s orderId).
  destruct (0 <? length _)%nat; [done|]. rewrite !bind_run. done.
Qed.

(** The items map after a batch that sets [st] on the items of
    [orderId] that satisfy [P]. *)
Lemma batch_lookup s orderId (P : OrderItem.t -> Prop) `{!forall x, Decision (P x)} st k item :
  wf s -> JsMap.get k (orderItems s) = Some item ->
  JsMap.get k (orderItems (snd (forEach (fun item => updateOrderItemStatus (OrderItem.id item) st)
                                  (filter P (itemsOf s orderId)) s))) =
  Some (if decide (OrderItem.orderId item = orderId /\ P item)
        then OrderItem.with_status item st else item).
Proof.
  intros Hwf Hg. rewrite forEach_updateOrderItemStatus by apply Hwf. simpl.
  rewrite get_restatus, Hg. simpl. f_equal.
  unfold itemsOf, getOrderItems. simpl. rewrite list_filter_filter.
  pose proof (selected_by_id s (fun x => P x /\ OrderItem.orderId x = orderId) k item Hwf Hg) as Hsel.
  case_bool_decide as Hin; case_decide as HP; try done.
  - exfalso. apply HP. apply Hsel in Hin. tauto.
  - exfalso. apply Hin. apply Hsel. tauto.
Qed.

Lemma batch_frame s st (items : list OrderItem.t) :
  wf s ->
  let s' := snd (forEach (fun item => updateOrderItemStatus (OrderItem.id item) st) items s) in
  orders s' = orders s /\
  JsMap.keys (orderItems s') = JsMap.keys (orderItems s) /\
  currentOrderId s' = currentOrderId s /\
  currentOrderItemId s' = currentOrderItemId s /\
  wf s'.
Proof.
  intros Hwf. cbv zeta. split_and!.
  - by rewrite forEach_updateOrderItemStatus by apply Hwf.
  - rewrite forEach_updateOrderItemStatus by apply Hwf. apply keys_restatus.
  - by rewrite forEach_updateOrderItemStatus by apply Hwf.
  - by rewrite forEach_updateOrderItemStatus by apply Hwf.
  - apply (forEach_invariant wf); [|done]. intros x t. apply updateOrderItemStatus_wf.
Qed.

Lemma lookup_of_listed s orderId x :
  wf s -> x ∈ itemsOf s orderId ->
  OrderItem.orderId x = orderId /\ JsMap.get (OrderItem.id x) (orderItems s) = Some x.
Proof.
  intros [_ _ Hnd _ Hid] Hin. unfold itemsOf, getOrderItems in Hin. simpl in Hin.
  apply list_elem_of_filter in Hin as [Ho Hin]. split; [done|].
  apply list_elem_of_fmap in Hin as ([k it] & -> & Hin). simpl.
  rewrite Forall_forall in Hid. pose proof (Hid _ Hin) as Hk. simpl in Hk. rewrite Hk.
  by apply get_of_elem.
Qed.

Lemma listed_of_lookup s k item :
  JsMap.get k (orderItems s) = Some item -> item ∈ itemsOf s (OrderItem.orderId item).
Proof.
  intros Hg. unfold itemsOf, getOrderItems. simpl.
  apply list_elem_of_filter. split; [done|].
  apply list_elem_of_fmap. exists (k, item). split; [done | by apply get_elem_of].
Qed.

(** Every item an order lists after a batch is the image of an item it
    listed before. *)
Lemma listed_after_batch s orderId (P : OrderItem.t -> Prop) `{!forall x, Decision (P x)} st x :
  wf s ->
  x ∈ itemsOf (snd (forEach (fun item => updateOrderItemStatus (OrderItem.id item) st)
                      (filter P (itemsOf s orderId)) s)) orderId ->
  exists item, item ∈ itemsOf s orderId /\
    x = if decide (P item) then OrderItem.with_status item st else item.
Proof.
  intros Hwf Hin.
  destruct (batch_frame s st (filter P (itemsOf s orderId)) Hwf) as (_ & Hk & _ & _ & Hwf').
  apply (lookup_of_listed _ _ _ Hwf') in Hin as [Ho Hg].
  pose proof (get_Some_keys _ _ _ Hg) as Hkey. rewrite Hk in Hkey.
  destruct (JsMap.get (OrderItem.id x) (orderItems s)) as [item|] eqn:Hg0;
    [|by apply get_None_keys in Hg0].
  rewrite (batch_lookup s orderId P st _ item Hwf Hg0) in Hg.
  injection Hg as Hx. exists item.
  assert (OrderItem.orderId item = orderId) as Hoi.
  { rewrite <- Ho, <- Hx. by case_decide. }
  split.
  - rewrite <- Hoi. by eapply listed_of_lookup.
  - rewrite <- Hx. repeat case_decide; tauto.
Qed.

Lemma pending_filter (l : list OrderItem.t) :
  filter (fun item => is_pending item = true) l =
  filter (fun item => OrderItem.status item = JStr "pending") l.
Proof. apply list_filter_iff. intros x. apply is_pending_spec. Qed.


Lemma values_after_restatus (Q P : OrderItem.t -> Prop)
    `{!forall x, Decision (Q x)} `{!forall x, Decision (P x)} sel st (m : JsMap OrderItem.t) :
  (forall x, Q (OrderItem.with_status x st) <-> Q x) ->
  (forall k item, (k, item) ∈ m -> sel k = true <-> Q item /\ P item) ->
  filter Q (JsMap.values (restatus sel st m)) =
  map (fun item => if decide (P item) then OrderItem.with_status item st else item)
    (filter Q (JsMap.values m)).
Proof.
  intros HQ. induction m as [|[k item] m IH]; intros Hsel; [done|].
  assert (forall k' item', (k', item') ∈ m -> sel k' = true <-> Q item' /\ P item') as Hsel'.
  { intros k' item' Hin. apply Hsel. by right. }
  specialize (IH Hsel'). pose proof (Hsel k item ltac:(left)) as Hk.
  unfold restatus, JsMap.values in *. cbn [map fst snd].
  destruct (sel k) eqn:Hs; cbn [snd].
  - destruct Hk as [Hk _]. destruct (Hk eq_refl) as [Hq Hp].
    rewrite (filter_cons_True Q item) by done.
    rewrite (filter_cons_True Q (OrderItem.with_status item st)) by (by apply HQ).
    cbn [map]. rewrite decide_True by done. f_equal. apply IH.
  - destruct (decide (Q item)) as [Hq|Hq].
    + rewrite !(filter_cons_True Q item) by done. cbn [map].
      rewrite decide_False; [f_equal; apply IH|]. intros Hp.
      destruct Hk as [_ Hk]. by specialize (Hk (conj Hq Hp)).
    + rewrite !(filter_cons_False Q item) by done. apply IH.
Qed.

(** What an order lists after a batch that sets [st] on those of its items
    that satisfy [P]. *)
Lemma itemsOf_after_batch s orderId (P : OrderItem.t -> Prop) `{!forall x, Decision (P x)} st :
  wf s ->
  itemsOf (snd (forEach (fun item => updateOrderItemStatus (OrderItem.id item) st)
                  (filter P (itemsOf s orderId)) s)) orderId =
  map (fun item => if decide (P item) then OrderItem.with_status item st else item)
    (itemsOf s orderId).
Proof.
  intros Hwf. rewrite forEach_updateOrderItemStatus by apply Hwf.
  unfold itemsOf at 1 3. unfold getOrderItems. cbn [fst orderItems].
  apply values_after_restatus; [done|]. intros k item Hin.
  apply get_of_elem in Hin; [|apply Hwf].
  rewrite bool_decide_eq_true. unfold itemsOf, getOrderItems. cbn [fst].
  rewrite list_filter_filter.
  rewrite (selected_by_id s (fun x => P x /\ OrderItem.orderId x = orderId) k item Hwf Hin).
  tauto.
Qed.

Lemma filter_all {A} (l : list A) : filter (fun _ => True) l = l.
Proof. induction l as [|x l IH]; [done|]. by rewrite filter_cons_True, IH. Qed.

Lemma some_pending (l : list OrderItem.t) :
  (0 <? length (filter (fun item => is_pending item = true) l))%nat =
  bool_decide (Exists (fun item => OrderItem.status item = JStr "pending") l).
Proof.
  rewrite pending_filter. induction l as [|x l IH]; [done|].
  destruct (decide (OrderItem.status x = JStr "pending")) as [Hx|Hx].
  - rewrite filter_cons_True by done. simpl. symmetry. apply bool_decide_eq_true. by left.
  - rewrite filter_cons_False by done. rewrite IH. apply bool_decide_ext.
    rewrite Exists_cons. tauto.
Qed.

(** C3. GET /api/kot/:orderId on a well-formed store.  For an unknown
    order it answers 404 "Order not found" and changes nothing.  For a known
    order it answers with the order, the items of the order that were
    [pending] before the call (as they were then) and the order's items
    after the call; exactly the order's [pending] items now carry
    [kot_printed], every other item of the store is as it was, no item
    appears or disappears, no order changes; and a second call right after
    leaves the store as the first call left it. *)
Theorem printKOT_transitions_pending (s : MemStorage) (orderId : Z) :
  wf s ->
  match JsMap.get orderId (orders s) with
  | None => get_kot orderId s = (Message 404 "Order not found", s)
  | Some order =>
      let pending :=
        filter (fun item => OrderItem.status item = JStr "pending") (itemsOf s orderId) in
      let s' := snd (get_kot orderId s) in
      fst (get_kot orderId s) = Json 200 (mkKot order pending (itemsOf s' orderId)) /\
      itemsOf s' orderId =
        map (fun item => if decide (OrderItem.status item = JStr "pending")
                         then OrderItem.with_status item (JStr "kot_printed") else item)
          (itemsOf s orderId) /\
      (forall k item, JsMap.get k (orderItems s) = Some item ->
         JsMap.get k (orderItems s') =
         Some (if decide (OrderItem.orderId item = orderId /\ OrderItem.status item = JStr "pending")
               then OrderItem.with_status item (JStr "kot_printed") else item)) /\
      JsMap.keys (orderItems s') = JsMap.keys (orderItems s) /\
      orders s' = orders s /\
      snd (get_kot orderId s') = s'
  end.
Proof.
  intros Hwf. destruct (JsMap.get orderId (orders s)) as [order|] eqn:Hg.
  2: { by rewrite get_kot_run, Hg. }
  cbv zeta. rewrite get_kot_run, Hg. cbv zeta. cbn [fst snd].
  rewrite !pending_filter.
  set (P := fun item => OrderItem.status item = JStr "pending").
  set (s' := snd (forEach _ (filter P (itemsOf s orderId)) s)).
  destruct (batch_frame s (JStr "kot_printed") (filter P (itemsOf s orderId)) Hwf)
    as (Ho & Hk & _ & _ & Hwf').
  fold s' in Ho, Hk, Hwf'. split_and!; try done.
  - apply (itemsOf_after_batch s orderId P _ Hwf).
  - intros k item Hgi. unfold s'. by rewrite (batch_lookup s orderId P _ k item Hwf Hgi).
  - rewrite get_kot_run, Ho, Hg. cbv zeta. cbn [snd]. rewrite pending_filter.
    rewrite filter_none; [done|]. apply Forall_forall. intros x Hx HPx.
    apply (listed_after_batch s orderId P _ x Hwf) in Hx as (item & _ & ->).
    unfold P in HPx. by case_decide.
Qed.

(** C2. GET /api/bill/:orderId for an order of a well-formed store.  If
    one of the order's items is [pending], the answer is the refusal (400,
    "Cannot print bill with pending items. Please print KOT first.") and the
    store is unchanged.  Otherwise the answer carries the order and its full
    item list, which is the list from before the call with every item set to
    [completed]; items of other orders are as they were, no item appears or
    disappears and no order changes. *)
Theorem printBill_refuses_pending (s : MemStorage) (orderId : Z) (order : Order.t) :
  wf s ->
  JsMap.get orderId (orders s) = Some order ->
  if bool_decide (Exists (fun item => OrderItem.status item = JStr "pending") (itemsOf s orderId))
  then
    get_bill orderId s =
    (Message 400 "Cannot print bill with pending items. Please print KOT first.", s)
  else
    let s' := snd (get_bill orderId s) in
    fst (get_bill orderId s) = Json 200 (mkBill order (itemsOf s' orderId)) /\
    itemsOf s' orderId =
      map (fun item => OrderItem.with_status item (JStr "completed")) (itemsOf s orderId) /\
    Forall (fun item => OrderItem.status item = JStr "completed") (itemsOf s' orderId) /\
    (forall k item, JsMap.get k (orderItems s) = Some item ->
       JsMap.get k (orderItems s') =
       Some (if decide (OrderItem.orderId item = orderId)
             then OrderItem.with_status item (JStr "completed") else item)) /\
    JsMap.keys (orderItems s') = JsMap.keys (orderItems s) /\
    orders s' = orders s.
Proof.
  intros Hwf Hg. rewrite get_bill_run, Hg. cbv zeta. rewrite some_pending.
  destruct (bool_decide (Exists _ _)); [done|]. cbn [fst snd].
  pose proof (batch_frame s (JStr "completed") (itemsOf s orderId) Hwf) as (Ho & Hk & _ & _ & _).
  pose proof (itemsOf_after_batch s orderId (fun _ => True) (JStr "completed") Hwf) as Hlist.
  rewrite filter_all in Hlist.
  assert (itemsOf (snd (forEach (fun item => updateOrderItemStatus (OrderItem.id item) (JStr "completed"))
                          (itemsOf s orderId) s)) orderId =
          map (fun item => OrderItem.with_status item (JStr "completed")) (itemsOf s orderId)) as Hlist'.
  { rewrite Hlist. apply map_ext. intros item. by rewrite decide_True. }
  split_and!; try done.
  - rewrite Hlist'. apply Forall_forall. intros x Hx.
    by apply list_elem_of_fmap in Hx as (item & -> & _).
  - intros k item Hgi.
    pose proof (batch_lookup s orderId (fun _ => True) (JStr "completed") k item Hwf Hgi) as Hl.
    rewrite filter_all in Hl. rewrite Hl. f_equal. repeat case_decide; tauto.
Qed.

(** ** Billing: totals after an item mutation *)

Section Totals.
Context `{JsRuntime}.

Lemma recalculateOrderTotal_totals orderId now s order :
  JsMap.get orderId (orders s) = Some order ->
  totals_in_step (snd (recalculateOrderTotal orderId now s)) orderId.
Proof.
  intros Hg. rewrite recalculateOrderTotal_run, Hg. cbv zeta. cbn [snd].
  unfold updateOrder. rewrite Hg. cbn [snd set_orders].
  eexists. split.
  - cbn [orders]. rewrite get_set, Z.eqb_refl. reflexivity.
  - done.
Qed.

(** C1. After a request that adds an item to an order of the store,
    changes the quantity of one of its items or removes one of its items,
    the order's stored subtotal is the sum of price * quantity over the
    items the order now has, its stored tax is that subtotal times 0.05,
    and its stored totalAmount is subtotal + tax + packagingFee, the fee
    read as 0 when it is absent. *)
Theorem item_mutation_recalculates_totals (s : MemStorage) (rq : Request) (orderId : Z) :
  mutatedOrder s rq = Some orderId ->
  is_Some (JsMap.get orderId (orders s)) ->
  totals_in_step (snd (handle rq s)) orderId.
Proof.
  intros Hmu [order Hg]. destruct rq; simpl in Hmu; try discriminate.
  - injection Hmu as <-. unfold handle, post_items. rewrite !bind_run. cbn [snd ret].
    rewrite addOrderItem_run. cbv zeta. cbn [snd].
    by eapply recalculateOrderTotal_totals.
  - unfold handle, put_item_quantity. rewrite !bind_run.
    unfold updateOrderItemQuantity.
    destruct (JsMap.get id (orderItems s)) as [item|] eqn:Hgi; [|discriminate].
    injection Hmu as Ho. cbn [fst snd]. rewrite Ho.
    by eapply recalculateOrderTotal_totals.
  - unfold handle, delete_item. rewrite !bind_run. rewrite removeOrderItem_run.
    destruct (JsMap.get id (orderItems s)) as [item|] eqn:Hgi; [|discriminate].
    injection Hmu as Ho. cbn [fst snd]. rewrite Ho.
    by eapply recalculateOrderTotal_totals.
Qed.

End Totals.

(** ** Unknown ids *)

Section UnknownIds.
Context `{JsRuntime}.

(** C7. Removing an item id that the item store does not hold returns
    [false], which the route answers with 404 "Order item not found", and
    the store afterwards is the store before: no order, total or item
    changed. *)
Theorem removeOrderItem_unknown_id (s : MemStorage) (id : Z) (now : Date) :
  JsMap.get id (orderItems s) = None ->
  removeOrderItem id now s = (false, s) /\
  delete_item id now s = (Message 404 "Order item not found", s).
Proof.
  intros Hg.
  assert (removeOrderItem id now s = (false, s)) as Hr.
  { unfold removeOrderItem. by rewrite Hg. }
  split; [done|]. unfold delete_item. by rewrite bind_run, Hr.
Qed.


End UnknownIds.

(** ** Payment settlement *)

(** C10. Settling an existing order with cashAmount 0, bankAmount 0 or
    an empty bankReference stores [null] in that field: the order the
    store then holds under the id has [null] there and is marked "paid",
    and it is the order the call returns.  Both the returned order and the
    store are then the same as if the argument had been left out. *)
Theorem updateOrderPayment_falsy_is_null (s : MemStorage) (id : Z) (order : Order.t)
    (paymentMethod bankReference cashAmount bankAmount : jsval) (now : Date) :
  JsMap.get id (orders s) = Some order ->
  let settle := fun ref cash bank => updateOrderPayment id paymentMethod ref cash bank now s in
  let stored := fun ref cash bank => JsMap.get id (orders (snd (settle ref cash bank))) in
  Order.cashAmount <$> fst (settle bankReference (JNum 0) bankAmount) = Some JNull /\
  Order.bankAmount <$> fst (settle bankReference cashAmount (JNum 0)) = Some JNull /\
  Order.bankReference <$> fst (settle (JStr EmptyString) cashAmount bankAmount) = Some JNull /\
  settle bankReference (JNum 0) bankAmount = settle bankReference JUndefined bankAmount /\
  settle bankReference cashAmount (JNum 0) = settle bankReference cashAmount JUndefined /\
  settle (JStr EmptyString) cashAmount bankAmount = settle JUndefined cashAmount bankAmount /\
  (Order.cashAmount <$> stored bankReference (JNum 0) bankAmount = Some JNull /\
   Order.paymentStatus <$> stored bankReference (JNum 0) bankAmount = Some (JStr "paid") /\
   stored bankReference (JNum 0) bankAmount = fst (settle bankReference (JNum 0) bankAmount)) /\
  (Order.bankAmount <$> stored bankReference cashAmount (JNum 0) = Some JNull /\
   Order.paymentStatus <$> stored bankReference cashAmount (JNum 0) = Some (JStr "paid") /\
   stored bankReference cashAmount (JNum 0) = fst (settle bankReference cashAmount (JNum 0))) /\
  (Order.bankReference <$> stored (JStr EmptyString) cashAmount bankAmount = Some JNull /\
   Order.paymentStatus <$> stored (JStr EmptyString) cashAmount bankAmount =
     Some (JStr "paid") /\
   stored (JStr EmptyString) cashAmount bankAmount =
     fst (settle (JStr EmptyString) cashAmount bankAmount)).
Proof.
  intros Hg settle stored. unfold stored, settle, updateOrderPayment. rewrite Hg.
  cbn [fst snd set_orders orders]. rewrite !get_set, !Z.eqb_refl. done.
Qed.

(** C5, amended. For an unknown id the settlement returns not-found and
    the store is unchanged.  For an existing order it returns the order as
    now stored under that id: paymentStatus "paid", the payment method as
    given, and the reference and each amount as given when the value is
    truthy, [null] otherwise; every other field but [updatedAt] is as it
    was.  In particular a split settlement with amounts 60 and 40 stores
    "paid", 60 and 40. *)
Theorem updateOrderPayment_settles (s : MemStorage) (id : Z)
    (paymentMethod bankReference cashAmount bankAmount : jsval) (now : Date) :
  let r := updateOrderPayment id paymentMethod bankReference cashAmount bankAmount now s in
  match JsMap.get id (orders s) with
  | None => r = (None, s)
  | Some order =>
      exists order',
        fst r = Some order' /\
        JsMap.get id (orders (snd r)) = Some order' /\
        orderItems (snd r) = orderItems s /\
        Order.paymentStatus order' = JStr "paid" /\
        Order.paymentMethod order' = paymentMethod /\
        Order.bankReference order' = (if truthy bankReference then bankReference else JNull) /\
        Order.cashAmount order' = (if truthy cashAmount then cashAmount else JNull) /\
        Order.bankAmount order' = (if truthy bankAmount then bankAmount else JNull) /\
        Order.updatedAt order' = now /\
        (Order.id order', Order.orderNumber order', Order.subtotal order', Order.tax order',
         Order.packagingFee order', Order.totalAmount order', Order.createdAt order') =
        (Order.id order, Order.orderNumber order, Order.subtotal order, Order.tax order,
         Order.packagingFee order, Order.totalAmount order, Order.createdAt order) /\
        let split := fst (updateOrderPayment id (JStr "split") bankReference (JNum 60) (JNum 40) now s) in
        Order.paymentStatus <$> split = Some (JStr "paid") /\
        Order.cashAmount <$> split = Some (JNum 60) /\
        Order.bankAmount <$> split = Some (JNum 40)
  end.
Proof.
  cbv zeta. unfold updateOrderPayment.
  destruct (JsMap.get id (orders s)) as [order|] eqn:Hg; [|done].
  eexists. split; [reflexivity|]. cbn [fst snd set_orders orders orderItems].
  rewrite get_set, Z.eqb_refl. done.
Qed.

(** ** Order creation *)

(** C6, amended. [createOrder] returns, and files under the next order
    id, an order with that id (one no stored order has), the two clock
    readings as created and updated timestamps, and subtotal, tax and
    totalAmount exactly as the input fields carry them: the totals are not
    reset. *)
Theorem createOrder_keeps_input_totals (s : MemStorage) (fields : InsertOrder.t)
    (created updated : Date) :
  wf s ->
  let order := fst (createOrder fields created updated s) in
  let s' := snd (createOrder fields created updated s) in
  Order.id order = currentOrderId s /\
  JsMap.get (Order.id order) (orders s) = None /\
  JsMap.get (Order.id order) (orders s') = Some order /\
  currentOrderId s' = currentOrderId s + 1 /\
  Order.createdAt order = created /\
  Order.updatedAt order = updated /\
  Order.subtotal order = InsertOrder.subtotal fields /\
  Order.tax order = InsertOrder.tax fields /\
  Order.totalAmount order = InsertOrder.totalAmount fields.
Proof.
  intros Hwf. cbv zeta. rewrite createOrder_run. cbv zeta. cbn [fst snd].
  split_and!; try done.
  - cbn [Order.id Order.create]. apply get_None_keys. intros Hin.
    destruct Hwf as [_ Hfresh _ _ _]. rewrite Forall_forall in Hfresh.
    specialize (Hfresh _ Hin). simpl in Hfresh. lia.
  - cbn [orders Order.id Order.create]. by rewrite get_set, Z.eqb_refl.
Qed.

(** ** Order numbers *)

Lemma orderNumberFor_inj : Inj (=) (=) orderNumberFor.
Proof.
  intros a b Hab. unfold orderNumberFor in Hab.
  apply (inj pretty) in Hab. lia.
Qed.

Lemma getAllOrders_length s : length (fst (getAllOrders s)) = length (orders s).
Proof.
  unfold getAllOrders. cbn [fst]. rewrite array_sort_Permutation.
  unfold JsMap.values. apply length_map.
Qed.

Lemma post_orders_run body created updated s :
  post_orders body created updated s =
  let orderData :=
    InsertOrder.with_orderNumber body (JStr (orderNumberFor (length (orders s)))) in
  let order := Order.create orderData (currentOrderId s) created updated in
  (Json 201 order,
   mkStorage (JsMap.set (currentOrderId s) order (orders s)) (orderItems s)
     (currentOrderId s + 1) (currentOrderItemId s)).
Proof.
  unfold post_orders. rewrite bind_run. cbv zeta.
  replace (length (fst (getAllOrders s))) with (length (orders s)) by (by rewrite getAllOrders_length).
  cbn [snd getAllOrders]. rewrite bind_run, createOrder_run. done.
Qed.

(** ** Histories *)

Section Histories.
Context `{JsRuntime}.

(** The store after a request, in terms of the store method it calls. *)
Lemma handle_effect rq s :
  snd (handle rq s) =
  match rq with
  | PostOrder body created updated => snd (post_orders body created updated s)
  | PutOrder id body now => snd (updateOrder id body now s)
  | PostPayment id method ref cash bank now => snd (updateOrderPayment id method ref cash bank now s)
  | PostItem itemData created now => snd (addOrderItem itemData created now s)
  | PutItemStatus id status => snd (updateOrderItemStatus id status s)
  | PutItemQuantity id quantity now => snd (updateOrderItemQuantity id quantity now s)
  | DeleteItem id now => snd (removeOrderItem id now s)
  | GetKot orderId => snd (get_kot orderId s)
  | GetBill orderId => snd (get_bill orderId s)
  end.
Proof.
  destruct rq; unfold handle; rewrite bind_run; cbn [snd ret]; try done.
  - unfold put_order. rewrite bind_run. by destruct (fst (updateOrder id body now s)).
  - unfold post_payment. rewrite bind_run. by destruct (fst (updateOrderPayment _ _ _ _ _ _ s)).
  - unfold post_items. by rewrite bind_run.
  - unfold put_item_status. rewrite bind_run. by destruct (fst (updateOrderItemStatus id status s)).
  - unfold put_item_quantity. rewrite bind_run.
    by destruct (fst (updateOrderItemQuantity id quantity now s)).
  - unfold delete_item. rewrite bind_run. by destruct (fst (removeOrderItem id now s)).
Qed.

Lemma get_kot_wf orderId s : wf s -> wf (snd (get_kot orderId s)).
Proof.
  intros Hwf. rewrite get_kot_run. destruct (JsMap.get orderId (orders s)); [|done].
  cbv zeta. cbn [snd]. by apply batch_frame.
Qed.

Lemma get_bill_wf orderId s : wf s -> wf (snd (get_bill orderId s)).
Proof.
  intros Hwf. rewrite get_bill_run. destruct (JsMap.get orderId (orders s)); [|done].
  cbv zeta. destruct (0 <? _)%nat; [done|]. cbn [snd]. by apply batch_frame.
Qed.

Lemma handle_wf rq s : wf s -> wf (snd (handle rq s)).
Proof.
  intros Hwf. rewrite handle_effect. destruct rq.
  - unfold post_orders. rewrite !bind_run. cbn [snd ret getAllOrders]. by apply createOrder_wf.
  - by apply updateOrder_wf.
  - by apply updateOrderPayment_wf.
  - by apply addOrderItem_wf.
  - by apply updateOrderItemStatus_wf.
  - by apply updateOrderItemQuantity_wf.
  - by apply removeOrderItem_wf.
  - by apply get_kot_wf.
  - by apply get_bill_wf.
Qed.

Lemma serve_cons rq rqs s :
  serve (rq :: rqs) s =
  (fst (handle rq s) :: fst (serve rqs (snd (handle rq s))), snd (serve rqs (snd (handle rq s)))).
Proof. unfold serve. simpl. rewrite !bind_run. done. Qed.

(** Every store a history reaches from a well-formed store is well formed. *)
Lemma serve_wf rqs s : wf s -> wf (snd (serve rqs s)).
Proof. apply (forEach_invariant wf). intros rq t. apply handle_wf. Qed.

(** So is every store the server can be in. *)
Lemma reachable_wf rqs : wf (snd (serve rqs newStorage)).
Proof. apply serve_wf, newStorage_wf. Qed.

(** No request removes an order, and only POST /api/orders adds one. *)
Lemma handle_order_count rq s :
  wf s ->
  length (orders (snd (handle rq s))) =
  match rq with
  | PostOrder _ _ _ => S (length (orders s))
  | _ => length (orders s)
  end.
Proof.
  intros Hwf.
  assert (forall s0 s', orders_rewritten s0 s' -> length (orders s') = length (orders s0)) as Hlen.
  { intros s0 s' (Hk & _). apply (f_equal length) in Hk. unfold JsMap.keys in Hk.
    by rewrite !length_map in Hk. }
  rewrite handle_effect. destruct rq.
  - rewrite post_orders_run. cbv zeta. cbn [snd orders]. rewrite length_set.
    rewrite bool_decide_eq_false_2; [done|]. intros Hin.
    destruct Hwf as [_ Hfresh _ _ _]. rewrite Forall_forall in Hfresh.
    specialize (Hfresh _ Hin). simpl in Hfresh. lia.
  - apply Hlen, updateOrder_rewrites.
  - apply Hlen, updateOrderPayment_rewrites.
  - rewrite addOrderItem_run. cbv zeta. cbn [snd].
    erewrite Hlen; [|apply recalculateOrderTotal_rewrites]. done.
  - unfold updateOrderItemStatus. by destruct (JsMap.get id (orderItems s)).
  - unfold updateOrderItemQuantity. destruct (JsMap.get id (orderItems s)); [|done].
    cbv zeta. cbn [snd]. erewrite Hlen; [|apply recalculateOrderTotal_rewrites]. done.
  - rewrite removeOrderItem_run. destruct (JsMap.get id (orderItems s)); [|done].
    cbn [snd]. erewrite Hlen; [|apply recalculateOrderTotal_rewrites]. done.
  - rewrite get_kot_run. destruct (JsMap.get orderId (orders s)); [|done].
    cbv zeta. cbn [snd]. f_equal. by apply batch_frame.
  - rewrite get_bill_run. destruct (JsMap.get orderId (orders s)); [|done].
    cbv zeta. destruct (0 <? _)%nat; [done|]. cbn [snd]. f_equal. by apply batch_frame.
Qed.

Lemma handle_assigned rq s :
  assignedNumber rq (fst (handle rq s)) =
  match rq with
  | PostOrder _ _ _ => Some (JStr (orderNumberFor (length (orders s))))
  | _ => None
  end.
Proof.
  destruct rq; unfold handle; rewrite bind_run; cbn [fst ret];
    try (unfold assignedNumber; done).
  by rewrite post_orders_run.
Qed.

Lemma assignedNumbers_cons rq rqs s :
  assignedNumbers (rq :: rqs) (fst (serve (rq :: rqs) s)) =
  match rq with
  | PostOrder _ _ _ => [JStr (orderNumberFor (length (orders s)))]
  | _ => []
  end ++ assignedNumbers rqs (fst (serve rqs (snd (handle rq s)))).
Proof.
  rewrite serve_cons. cbn [fst]. unfold assignedNumbers.
  cbn [zip zip_with omap list_omap fst snd].
  rewrite handle_assigned. by destruct rq.
Qed.

(** Every number a history assigns is that of a count not below the
    count in its first state. *)
Lemma assigned_counts rqs s x :
  wf s -> x ∈ assignedNumbers rqs (fst (serve rqs s)) ->
  exists n, (length (orders s) <= n)%nat /\ x = JStr (orderNumberFor n).
Proof.
  revert s. induction rqs as [|rq rqs IH]; intros s Hwf Hin.
  - by apply elem_of_nil in Hin.
  - rewrite assignedNumbers_cons in Hin. apply elem_of_app in Hin as [Hin|Hin].
    + destruct rq; try (by apply elem_of_nil in Hin).
      apply list_elem_of_singleton in Hin. by exists (length (orders s)).
    + apply IH in Hin as (n & Hn & ->); [|by apply handle_wf].
      exists n. split; [|done]. rewrite handle_order_count in Hn by done.
      destruct rq; lia.
Qed.

End Histories.

Section OrderNumbers.
Context `{JsRuntime}.

Lemma assigned_numbers_NoDup rqs s : wf s -> NoDup (assignedNumbers rqs (fst (serve rqs s))).
Proof.
  revert s. induction rqs as [|rq rqs IH]; intros s Hwf; [constructor|].
  rewrite assignedNumbers_cons. apply NoDup_app. split_and!.
  - destruct rq; try constructor; [apply not_elem_of_nil | constructor].
  - intros x Hx Hx'. destruct rq; try (by apply elem_of_nil in Hx).
    apply list_elem_of_singleton in Hx.
    apply assigned_counts in Hx' as (n & Hn & Hx'); [|by apply handle_wf].
    rewrite handle_order_count in Hn by done.
    rewrite Hx in Hx'. injection Hx' as Hx'. apply orderNumberFor_inj in Hx'. lia.
  - apply IH. by apply handle_wf.
Qed.

(** C8. In every state of the store POST /api/orders creates the order
    under the number that is the decimal string of 1000 + count + 1, where
    count is the number of orders the store holds at that moment; and in a
    sequential history from a well-formed store (no request removes an
    order) the numbers assigned to the orders it creates are pairwise
    distinct. *)
Theorem order_number_from_count (s : MemStorage) (body : InsertOrder.t) (created updated : Date)
    (rqs : list Request) :
  (exists order,
     fst (post_orders body created updated s) = Json 201 order /\
     JsMap.get (Order.id order) (orders (snd (post_orders body created updated s))) = Some order /\
     Order.orderNumber order = JStr (pretty (1000 + Z.of_nat (length (orders s)) + 1))) /\
  (wf s -> NoDup (assignedNumbers rqs (fst (serve rqs s)))).
Proof.
  split.
  - rewrite post_orders_run. cbv zeta. eexists. split; [reflexivity|]. split; [|done].
    cbn [snd orders Order.id Order.create]. by rewrite get_set, Z.eqb_refl.
  - apply assigned_numbers_NoDup.
Qed.

End OrderNumbers.

(** ** The lifecycle of an item's status *)

Lemma advances_refl a : advances a a.
Proof. by left. Qed.

Lemma advances_trans a b c : advances a b -> advances b c -> advances a c.
Proof.
  unfold advances.
  intros [Hb | [[Ha Hb] | Hb]] [Hc | [[Hb' Hc] | Hc]]; subst; try discriminate; auto.
Qed.

Lemma items_advance_same news s s' :
  orderItems s' = orderItems s -> currentOrderItemId s' = currentOrderItemId s ->
  items_advance news s s'.
Proof.
  intros Hi Hc. split; [lia|]. intros k item' Hg. left. exists item'.
  rewrite <- Hi. split; [done | apply advances_refl].
Qed.

Lemma items_advance_rewritten news s s1 s' :
  orders_rewritten s1 s' -> items_advance news s s1 -> items_advance news s s'.
Proof.
  intros (_ & Hi & _ & Hc) [Hle Hadv]. split; [lia|]. intros k item' Hg.
  rewrite Hi in Hg. by apply Hadv.
Qed.

Lemma items_advance_batch news s orderId (P : OrderItem.t -> Prop) `{!forall x, Decision (P x)}
    (b : string) :
  wf s ->
  (forall item, P item -> advances (OrderItem.status item) (JStr b)) ->
  items_advance news s
    (snd (forEach (fun item => updateOrderItemStatus (OrderItem.id item) (JStr b))
            (filter P (itemsOf s orderId)) s)).
Proof.
  intros Hwf HP.
  destruct (batch_frame s (JStr b) (filter P (itemsOf s orderId)) Hwf) as (_ & Hk & _ & Hc & _).
  split; [lia|]. intros k item' Hg. left.
  pose proof (get_Some_keys _ _ _ Hg) as Hkey. rewrite Hk in Hkey.
  destruct (JsMap.get k (orderItems s)) as [item|] eqn:Hg0; [|by apply get_None_keys in Hg0].
  exists item. split; [done|].
  rewrite (batch_lookup s orderId P (JStr b) k item Hwf Hg0) in Hg. injection Hg as <-.
  case_decide as Hsel; [|apply advances_refl]. apply HP, Hsel.
Qed.

Section Lifecycle.
Context `{JsRuntime}.

Lemma handle_advances rq s :
  wf s -> is_status_update rq = false ->
  items_advance (from_option (fun d => [d]) [] (posted rq)) s (snd (handle rq s)).
Proof.
  intros Hwf Hrq. rewrite handle_effect. destruct rq; try discriminate; cbn [posted from_option].
  - rewrite post_orders_run. by apply items_advance_same.
  - eapply items_advance_rewritten; [apply updateOrder_rewrites|]. by apply items_advance_same.
  - eapply items_advance_rewritten; [apply updateOrderPayment_rewrites|].
    by apply items_advance_same.
  - rewrite addOrderItem_run. cbv zeta. cbn [snd].
    eapply items_advance_rewritten; [apply recalculateOrderTotal_rewrites|].
    split; [simpl; lia|]. cbn [orderItems]. intros k item' Hg. rewrite get_set in Hg.
    destruct (Z.eqb_spec (currentOrderItemId s) k) as [<-|_].
    + right. split; [lia|]. exists itemData. split; [left|].
      injection Hg as <-. apply advances_refl.
    + left. exists item'. split; [done | apply advances_refl].
  - unfold updateOrderItemQuantity.
    destruct (JsMap.get id (orderItems s)) as [item|] eqn:Hgi; [|by apply items_advance_same].
    cbv zeta. cbn [snd].
    eapply items_advance_rewritten; [apply recalculateOrderTotal_rewrites|].
    split; [simpl; lia|]. cbn [orderItems set_orderItems snd]. intros k item' Hg. left.
    rewrite get_set in Hg. destruct (Z.eqb_spec id k) as [<-|_].
    + exists item. split; [done|]. injection Hg as <-. apply advances_refl.
    + exists item'. split; [done | apply advances_refl].
  - rewrite removeOrderItem_run.
    destruct (JsMap.get id (orderItems s)) as [item|] eqn:Hgi; [|by apply items_advance_same].
    cbn [snd]. eapply items_advance_rewritten; [apply recalculateOrderTotal_rewrites|].
    split; [simpl; lia|]. cbn [orderItems]. intros k item' Hg. left.
    rewrite get_remove in Hg by apply Hwf. destruct (Z.eqb id k); [discriminate|].
    exists item'. split; [done | apply advances_refl].
  - rewrite get_kot_run.
    destruct (JsMap.get orderId (orders s)); [|by apply items_advance_same].
    cbv zeta. cbn [snd]. rewrite pending_filter.
    apply (items_advance_batch _ s orderId _ "kot_printed" Hwf).
    intros item Hp. right. left. done.
  - rewrite get_bill_run.
    destruct (JsMap.get orderId (orders s)); [|by apply items_advance_same].
    cbv zeta. destruct (0 <? _)%nat; [by apply items_advance_same|]. cbn [snd].
    rewrite <- (filter_all (itemsOf s orderId)).
    apply (items_advance_batch _ s orderId (fun _ => True) "completed" Hwf).
    intros item _. right. right. done.
Qed.

Lemma serve_advances rqs s :
  wf s -> forallb (fun rq => negb (is_status_update rq)) rqs = true ->
  items_advance (omap posted rqs) s (snd (serve rqs s)).
Proof.
  revert s. induction rqs as [|rq rqs IH]; intros s Hwf Hrqs.
  - by apply items_advance_same.
  - cbn [forallb] in Hrqs. apply andb_true_iff in Hrqs as [Hrq Hrqs].
    apply negb_true_iff in Hrq.
    destruct (handle_advances rq s Hwf Hrq) as [Hle1 Hadv1].
    destruct (IH (snd (handle rq s)) (handle_wf rq s Hwf) Hrqs) as [Hle2 Hadv2].
    rewrite serve_cons. cbn [snd]. split; [lia|]. intros k item' Hg.
    assert (forall d, d ∈ from_option (fun d => [d]) [] (posted rq) -> d ∈ omap posted (rq :: rqs)) as Hhd.
    { intros d Hd. cbn [omap list_omap]. destruct (posted rq); [|by apply elem_of_nil in Hd].
      apply list_elem_of_singleton in Hd as ->. left. }
    assert (forall d, d ∈ omap posted rqs -> d ∈ omap posted (rq :: rqs)) as Htl.
    { intros d Hd. cbn [omap list_omap]. destruct (posted rq); [by right | done]. }
    destruct (Hadv2 k item' Hg) as [(item1 & Hg1 & Ha1)|(Hk & d & Hd & Ha)].
    + destruct (Hadv1 k item1 Hg1) as [(item & Hg0 & Ha0)|(Hk & d & Hd & Ha)].
      * left. exists item. split; [done|]. by eapply advances_trans.
      * right. split; [done|]. exists d. split; [by apply Hhd|]. by eapply advances_trans.
    + right. split; [lia|]. exists d. split; [by apply Htl | done].
Qed.

End Lifecycle.

Section LifecycleTheorem.
Context `{JsRuntime}.

(** C4, amended. Along a history that contains no request to
    PUT /api/order-items/:id/status, an item that stays in the store
    keeps its status or moves it forward: [pending] to [kot_printed] (by
    the KOT route) or to [completed] (by the bill route); once
    [kot_printed] it is [kot_printed] or [completed], once [completed] it
    stays [completed].  An item that is new at the end has the status it
    was posted with, advanced in the same way; so the only statuses these
    routes write themselves are [kot_printed] and [completed].  The
    status-update request is left out: it stores the status it is given. *)
Theorem status_advances_without_status_update (s : MemStorage) (rqs : list Request) :
  wf s ->
  forallb (fun rq => negb (is_status_update rq)) rqs = true ->
  let s' := snd (serve rqs s) in
  (forall k item item',
     JsMap.get k (orderItems s) = Some item ->
     JsMap.get k (orderItems s') = Some item' ->
     advances (OrderItem.status item) (OrderItem.status item') /\
     (OrderItem.status item = JStr "kot_printed" ->
        OrderItem.status item' = JStr "kot_printed" \/ OrderItem.status item' = JStr "completed") /\
     (OrderItem.status item = JStr "completed" -> OrderItem.status item' = JStr "completed")) /\
  (forall k item',
     JsMap.get k (orderItems s') = Some item' ->
     is_Some (JsMap.get k (orderItems s)) \/
     exists d, d ∈ omap posted rqs /\
               advances (InsertOrderItem.status d) (OrderItem.status item')).
Proof.
  intros Hwf Hrqs. cbv zeta. destruct (serve_advances rqs s Hwf Hrqs) as [_ Hadv]. split.
  - intros k item item' Hg Hg'.
    assert (advances (OrderItem.status item) (OrderItem.status item')) as Ha.
    { destruct (Hadv k item' Hg') as [(item0 & Hg0 & Ha)|(Hk & _)]; [congruence|].
      apply get_Some_keys in Hg. destruct Hwf as [_ _ _ Hfresh _].
      rewrite Forall_forall in Hfresh. specialize (Hfresh _ Hg). simpl in Hfresh. lia. }
    split; [done|]. unfold advances in Ha. split.
    + intros Hs. rewrite Hs in Ha. destruct Ha as [Ha|[[Ha _]|Ha]]; [by left | done | by right].
    + intros Hs. rewrite Hs in Ha. destruct Ha as [Ha|[[Ha _]|Ha]]; done.
  - intros k item' Hg'. destruct (Hadv k item' Hg') as [(item0 & Hg0 & _)|(_ & d & Hd & Ha)].
    + left. by exists item0.
    + right. by exists d.
Qed.

End LifecycleTheorem.

(** * Further properties of the store *)

(** ** Lookups after a write *)

Lemma updateOrder_lookup id p now s k :
  JsMap.get k (orders (snd (updateOrder id p now s))) =
  if Z.eqb id k then (fun o => Order.update o p now) <$> JsMap.get k (orders s)
  else JsMap.get k (orders s).
Proof.
  unfold updateOrder. destruct (JsMap.get id (orders s)) as [o|] eqn:Hg; cbn [snd set_orders orders].
  - rewrite get_set. destruct (Z.eqb_spec id k) as [<-|_]; [by rewrite Hg | done].
  - destruct (Z.eqb_spec id k) as [<-|_]; [by rewrite Hg | done].
Qed.

Lemma updateOrderPayment_lookup id pm r c b now s k :
  JsMap.get k (orders (snd (updateOrderPayment id pm r c b now s))) =
  if Z.eqb id k
  then (fun o => Order.settle o pm (js_or r JNull) (js_or c JNull) (js_or b JNull) now)
         <$> JsMap.get k (orders s)
  else JsMap.get k (orders s).
Proof.
  unfold updateOrderPayment.
  destruct (JsMap.get id (orders s)) as [o|] eqn:Hg; cbn [snd set_orders orders].
  - rewrite get_set. destruct (Z.eqb_spec id k) as [<-|_]; [by rewrite Hg | done].
  - destruct (Z.eqb_spec id k) as [<-|_]; [by rewrite Hg | done].
Qed.

Lemma forEach_status_orders st (items : list OrderItem.t) s :
  orders (snd (forEach (fun item => updateOrderItemStatus (OrderItem.id item) st) items s)) =
  orders s.
Proof.
  apply (forEach_invariant (fun t => orders t = orders s)); [|done].
  intros x t Ht. unfold updateOrderItemStatus. by destruct (JsMap.get _ (orderItems t)).
Qed.

Section Lookups.
Context `{JsRuntime}.

(** The totals [recalculateOrderTotal] writes into [order] in state [s]. *)
Lemma recalculateOrderTotal_lookup orderId now s k :
  JsMap.get k (orders (snd (recalculateOrderTotal orderId now s))) =
  if Z.eqb orderId k
  then (fun o =>
          let subtotal := orderSubtotal (itemsOf s orderId) in
          let tax := orderTax subtotal in
          Order.update o
            (PartialOrder.totals (JStr (numToString subtotal)) (JStr (numToString tax))
               (JStr (numToString (orderTotalAmount subtotal tax (Order.packagingFee o))))) now)
         <$> JsMap.get k (orders s)
  else JsMap.get k (orders s).
Proof.
  rewrite recalculateOrderTotal_run.
  destruct (JsMap.get orderId (orders s)) as [o|] eqn:Hg.
  - cbv zeta. cbn [snd]. rewrite updateOrder_lookup.
    destruct (Z.eqb_spec orderId k) as [<-|_]; [by rewrite Hg | done].
  - cbn [snd]. destruct (Z.eqb_spec orderId k) as [<-|_]; [by rewrite Hg | done].
Qed.

Lemma recalculateOrderTotal_other orderId now s k :
  orderId <> k ->
  JsMap.get k (orders (snd (recalculateOrderTotal orderId now s))) = JsMap.get k (orders s).
Proof.
  intros Hne. rewrite recalculateOrderTotal_lookup. by destruct (Z.eqb_spec orderId k).
Qed.

Lemma recalculateOrderTotal_items orderId now s :
  orderItems (snd (recalculateOrderTotal orderId now s)) = orderItems s /\
  currentOrderId (snd (recalculateOrderTotal orderId now s)) = currentOrderId s /\
  currentOrderItemId (snd (recalculateOrderTotal orderId now s)) = currentOrderItemId s.
Proof. destruct (recalculateOrderTotal_rewrites orderId now s) as (_ & ? & ? & ?). done. Qed.

(** A request rewrites no order record but that of its target. *)
Lemma handle_other_orders rq s k :
  targetOrder s rq <> Some k ->
  JsMap.get k (orders (snd (handle rq s))) = JsMap.get k (orders s).
Proof.
  intros Ht. rewrite handle_effect. destruct rq; cbn [targetOrder] in Ht.
  - rewrite post_orders_run. cbv zeta. cbn [snd orders]. rewrite get_set.
    destruct (Z.eqb_spec (currentOrderId s) k); [congruence | done].
  - rewrite updateOrder_lookup. destruct (Z.eqb_spec id k); [congruence | done].
  - rewrite updateOrderPayment_lookup. destruct (Z.eqb_spec id k); [congruence | done].
  - rewrite addOrderItem_run. cbv zeta. cbn [snd].
    rewrite recalculateOrderTotal_other; [done | congruence].
  - unfold updateOrderItemStatus. by destruct (JsMap.get id (orderItems s)).
  - unfold updateOrderItemQuantity.
    destruct (JsMap.get id (orderItems s)) as [item|] eqn:Hg; [|done].
    cbv zeta. cbn [snd]. rewrite recalculateOrderTotal_other; [done|]. simpl in Ht. congruence.
  - rewrite removeOrderItem_run.
    destruct (JsMap.get id (orderItems s)) as [item|] eqn:Hg; [|done].
    cbn [snd]. rewrite recalculateOrderTotal_other; [done|]. simpl in Ht. congruence.
  - rewrite get_kot_run. destruct (JsMap.get orderId (orders s)); [|done].
    cbv zeta. cbn [snd]. by rewrite forEach_status_orders.
  - rewrite get_bill_run. destruct (JsMap.get orderId (orders s)); [|done].
    cbv zeta. destruct (0 <? _)%nat; [done|]. cbn [snd]. by rewrite forEach_status_orders.
Qed.

End Lookups.

(** ** The three PUT routes on a missing and on a present id *)


Section PutItem.
Context `{JsRuntime}.

(** X2. PUT /api/order-items/:id/quantity.  For an unknown item id the
    answer is 404 "Order item not found" and the store is unchanged.  For a
    stored item the answer is the item with the given quantity, whatever
    value that is (nothing checks it is a positive integer, or a number at
    all); the store holds it under the same id and at the same place in the
    map, every other item is as it was, and the item's order keeps its
    place in the orders map. *)
Theorem put_item_quantity_overwrites (s : MemStorage) (id : Z) (quantity : jsval) (now : Date) :
  match JsMap.get id (orderItems s) with
  | None => put_item_quantity id quantity now s = (Message 404 "Order item not found", s)
  | Some item =>
      let updated := OrderItem.with_quantity item quantity in
      let s' := snd (put_item_quantity id quantity now s) in
      fst (put_item_quantity id quantity now s) = Json 200 updated /\
      OrderItem.quantity updated = quantity /\
      JsMap.get id (orderItems s') = Some updated /\
      (forall k, k <> id -> JsMap.get k (orderItems s') = JsMap.get k (orderItems s)) /\
      JsMap.keys (orderItems s') = JsMap.keys (orderItems s) /\
      JsMap.keys (orders s') = JsMap.keys (orders s) /\
      currentOrderItemId s' = currentOrderItemId s
  end.
Proof.
  destruct (JsMap.get id (orderItems s)) as [item|] eqn:Hg.
  - cbv zeta. unfold put_item_quantity. rewrite bind_run. unfold updateOrderItemQuantity.
    rewrite Hg. cbv zeta. cbn [fst snd ret].
    set (s1 := snd (set_orderItems _ s)).
    destruct (recalculateOrderTotal_rewrites (OrderItem.orderId item) now s1) as (Hk & Hi & Hc & Hci).
    rewrite Hi, Hk, Hci. unfold s1. cbn [snd set_orderItems orderItems orders currentOrderItemId].
    split_and!; try done.
    + by rewrite get_set, Z.eqb_refl.
    + intros k Hne. rewrite get_set. destruct (Z.eqb_spec id k); [congruence | done].
    + apply keys_set_present. by eapply get_Some_keys.
  - unfold put_item_quantity. rewrite bind_run. unfold updateOrderItemQuantity. by rewrite Hg.
Qed.

End PutItem.

(** X3. PUT /api/order-items/:id/status.  For an unknown item id the
    answer is 404 "Order item not found" and the store is unchanged.  For a
    stored item the answer is the item with exactly the status sent; the
    store holds it under the same id, every other item and every order
    record (totals included) is as it was. *)
Theorem put_item_status_overwrites (s : MemStorage) (id : Z) (status : jsval) :
  match JsMap.get id (orderItems s) with
  | None => put_item_status id status s = (Message 404 "Order item not found", s)
  | Some item =>
      let updated := OrderItem.with_status item status in
      let s' := snd (put_item_status id status s) in
      fst (put_item_status id status s) = Json 200 updated /\
      OrderItem.status updated = status /\
      JsMap.get id (orderItems s') = Some updated /\
      (forall k, k <> id -> JsMap.get k (orderItems s') = JsMap.get k (orderItems s)) /\
      JsMap.keys (orderItems s') = JsMap.keys (orderItems s) /\
      orders s' = orders s /\
      currentOrderItemId s' = currentOrderItemId s
  end.
Proof.
  destruct (JsMap.get id (orderItems s)) as [item|] eqn:Hg.
  - cbv zeta. unfold put_item_status. rewrite bind_run. unfold updateOrderItemStatus.
    rewrite Hg. cbn [fst snd ret set_orderItems orderItems orders currentOrderItemId].
    split_and!; try done.
    + by rewrite get_set, Z.eqb_refl.
    + intros k Hne. rewrite get_set. destruct (Z.eqb_spec id k); [congruence | done].
    + apply keys_set_present. by eapply get_Some_keys.
  - unfold put_item_status. rewrite bind_run. unfold updateOrderItemStatus. by rewrite Hg.
Qed.

(** ** The item list of an order *)

Section ItemLists.
Context (Q : OrderItem.t -> Prop) `{!forall x, Decision (Q x)}.
Implicit Types (m : JsMap OrderItem.t).

Lemma filter_values_set_other m id old new :
  JsMap.get id m = Some old -> ~ Q old -> ~ Q new ->
  filter Q (JsMap.values (JsMap.set id new m)) = filter Q (JsMap.values m).
Proof.
  intros Hg Hold Hnew. induction m as [|[k x] m IH]; [done|].
  simpl in Hg |- *. destruct (Z.eqb_spec k id) as [->|_].
  - injection Hg as ->. unfold JsMap.values. cbn [map snd].
    by rewrite !filter_cons_False.
  - unfold JsMap.values in *. cbn [map snd]. rewrite !filter_cons. by rewrite IH.
Qed.

Lemma filter_values_remove_other m id old :
  JsMap.get id m = Some old -> ~ Q old ->
  filter Q (JsMap.values (JsMap.remove id m)) = filter Q (JsMap.values m).
Proof.
  intros Hg Hold. induction m as [|[k x] m IH]; [done|].
  simpl in Hg |- *. destruct (Z.eqb_spec k id) as [->|_].
  - injection Hg as ->. unfold JsMap.values. cbn [map snd]. by rewrite filter_cons_False.
  - unfold JsMap.values in *. cbn [map snd]. rewrite !filter_cons. by rewrite IH.
Qed.

Lemma filter_values_restatus_other sel st m :
  (forall x, Q (OrderItem.with_status x st) <-> Q x) ->
  (forall k item, (k, item) ∈ m -> sel k = true -> ~ Q item) ->
  filter Q (JsMap.values (restatus sel st m)) = filter Q (JsMap.values m).
Proof.
  intros HQ. induction m as [|[k item] m IH]; intros Hsel; [done|].
  assert (filter Q (JsMap.values (restatus sel st m)) = filter Q (JsMap.values m)) as IH'.
  { apply IH. intros k' item' Hin. apply Hsel. by right. }
  unfold restatus, JsMap.values in *. cbn [map fst snd].
  destruct (sel k) eqn:Hs; cbn [snd].
  - pose proof (Hsel k item ltac:(left) Hs) as Hn.
    rewrite (filter_cons_False Q item) by done.
    rewrite (filter_cons_False Q (OrderItem.with_status item st)) by (by rewrite HQ).
    apply IH'.
  - rewrite !(filter_cons Q item). by rewrite IH'.
Qed.

End ItemLists.

Lemma filter_keeps_all {A} (P : A -> Prop) `{!forall x, Decision (P x)} (l : list A) :
  Forall P l -> filter P l = l.
Proof. induction 1 as [|x l Hx _ IH]; [done|]. by rewrite filter_cons_True, IH. Qed.

Lemma remove_is_filter {V} (m : JsMap V) k :
  NoDup (JsMap.keys m) -> JsMap.remove k m = filter (fun p => fst p <> k) m.
Proof.
  induction m as [|[k0 v0] m IH]; [done|]. simpl. intros Hnd.
  apply NoDup_cons in Hnd as [Hk0 Hnd]. destruct (Z.eqb_spec k0 k) as [->|Hne].
  - rewrite filter_cons_False by (simpl; tauto).
    symmetry. apply filter_keeps_all. apply Forall_forall. intros [k1 v1] Hin. simpl.
    intros ->. apply Hk0. by eapply elem_of_keys.
  - rewrite filter_cons_True by done. f_equal. by apply IH.
Qed.

Lemma values_filter_by_id (m : JsMap OrderItem.t) k :
  Forall (fun p => OrderItem.id (snd p) = fst p) m ->
  JsMap.values (filter (fun p => fst p <> k) m) =
  filter (fun x => OrderItem.id x <> k) (JsMap.values m).
Proof.
  induction 1 as [|[k0 x] m Hx _ IH]; [done|]. simpl in Hx.
  unfold JsMap.values in *. cbn [map snd]. rewrite !filter_cons. cbn [fst]. rewrite Hx.
  destruct (decide (k0 <> k)); cbn [map snd]; by rewrite IH.
Qed.

Section OtherItems.
Context `{JsRuntime}.

(** A request changes no item list but that of the order it touches. *)
Lemma handle_other_items rq s k :
  wf s -> touchedOrder s rq <> Some k ->
  itemsOf (snd (handle rq s)) k = itemsOf s k.
Proof.
  intros Hwf Ht. rewrite handle_effect. unfold itemsOf, getOrderItems. cbn [fst].
  destruct rq; cbn [touchedOrder] in Ht.
  - rewrite post_orders_run. done.
  - destruct (updateOrder_rewrites id body now s) as (_ & Hi & _). by rewrite Hi.
  - destruct (updateOrderPayment_rewrites id paymentMethod bankReference cashAmount bankAmount
                now s) as (_ & Hi & _). by rewrite Hi.
  - rewrite addOrderItem_run. cbv zeta. cbn [snd].
    destruct (recalculateOrderTotal_items (InsertOrderItem.orderId itemData) now
                (mkStorage (orders s)
                   (JsMap.set (currentOrderItemId s)
                      (newOrderItem itemData (currentOrderItemId s) created) (orderItems s))
                   (currentOrderId s) (currentOrderItemId s + 1))) as (Hi & _). rewrite Hi.
    cbn [orderItems]. rewrite set_absent.
    + unfold JsMap.values. rewrite map_app, filter_app. cbn [map snd].
      rewrite filter_cons_False, filter_nil, app_nil_r; [done|]. simpl. congruence.
    + intros Hin. destruct Hwf as [_ _ _ Hfresh _]. rewrite Forall_forall in Hfresh.
      specialize (Hfresh _ Hin). simpl in Hfresh. lia.
  - unfold updateOrderItemStatus.
    destruct (JsMap.get id (orderItems s)) as [item|] eqn:Hg; [|done].
    cbn [snd set_orderItems orderItems]. simpl in Ht.
    apply (filter_values_set_other _ _ _ item); [done | congruence | simpl; congruence].
  - unfold updateOrderItemQuantity.
    destruct (JsMap.get id (orderItems s)) as [item|] eqn:Hg; [|done].
    cbv zeta. cbn [snd].
    destruct (recalculateOrderTotal_items (OrderItem.orderId item) now
                (snd (set_orderItems
                        (JsMap.set id (OrderItem.with_quantity item quantity) (orderItems s)) s)))
      as (Hi & _). rewrite Hi.
    cbn [snd set_orderItems orderItems]. simpl in Ht.
    apply (filter_values_set_other _ _ _ item); [done | congruence | simpl; congruence].
  - rewrite removeOrderItem_run.
    destruct (JsMap.get id (orderItems s)) as [item|] eqn:Hg; [|done].
    cbn [snd].
    destruct (recalculateOrderTotal_items (OrderItem.orderId item) now
                (mkStorage (orders s) (JsMap.remove id (orderItems s))
                   (currentOrderId s) (currentOrderItemId s))) as (Hi & _). rewrite Hi.
    cbn [orderItems]. simpl in Ht.
    apply (filter_values_remove_other _ _ _ item); [done | congruence].
  - rewrite get_kot_run. destruct (JsMap.get orderId (orders s)); [|done].
    cbv zeta. cbn [snd]. rewrite forEach_updateOrderItemStatus by apply Hwf.
    cbn [orderItems]. apply filter_values_restatus_other; [done|].
    intros k0 item Hin Hsel. apply bool_decide_eq_true in Hsel.
    apply get_of_elem in Hin; [|apply Hwf].
    unfold itemsOf, getOrderItems in Hsel. cbn [fst] in Hsel. rewrite list_filter_filter in Hsel.
    apply (proj1 (selected_by_id s
                    (fun a => is_pending a = true /\ OrderItem.orderId a = orderId)
                    k0 item Hwf Hin)) in Hsel.
    destruct Hsel as [_ Ho]. congruence.
  - rewrite get_bill_run. destruct (JsMap.get orderId (orders s)); [|done].
    cbv zeta. destruct (0 <? _)%nat; [done|]. cbn [snd].
    rewrite forEach_updateOrderItemStatus by apply Hwf.
    cbn [orderItems]. apply filter_values_restatus_other; [done|].
    intros k0 item Hin Hsel. apply bool_decide_eq_true in Hsel.
    apply get_of_elem in Hin; [|apply Hwf].
    rewrite <- (filter_all (itemsOf s orderId)) in Hsel.
    unfold itemsOf, getOrderItems in Hsel. cbn [fst] in Hsel. rewrite list_filter_filter in Hsel.
    apply (proj1 (selected_by_id s (fun a => True /\ OrderItem.orderId a = orderId)
                    k0 item Hwf Hin)) in Hsel.
    destruct Hsel as [_ Ho]. congruence.
Qed.

Lemma request_untouched s rq k :
  wf s -> targetOrder s rq <> Some k -> touchedOrder s rq <> Some k ->
  itemsOf (snd (handle rq s)) k = itemsOf s k /\
  JsMap.get k (orders (snd (handle rq s))) = JsMap.get k (orders s).
Proof.
  intros Hwf Ht Hi. split; [by apply handle_other_items | by apply handle_other_orders].
Qed.

(** X4. Isolation.  A request rewrites the record of at most one order
    and the item list of at most one order: for any other order of a
    well-formed store, the record and the list of items are afterwards
    what they were. *)
Theorem request_leaves_other_orders (s : MemStorage) (rq : Request) (k : Z) :
  wf s ->
  targetOrder s rq <> Some k ->
  touchedOrder s rq <> Some k ->
  JsMap.get k (orders (snd (handle rq s))) = JsMap.get k (orders s) /\
  itemsOf (snd (handle rq s)) k = itemsOf s k.
Proof.
  intros Hwf Ht Hi. split; [by apply handle_other_orders | by apply handle_other_items].
Qed.

End OtherItems.

(** ** Adding and removing items *)

Lemma ids_are_keys (m : JsMap OrderItem.t) :
  Forall (fun p => OrderItem.id (snd p) = fst p) m ->
  map OrderItem.id (JsMap.values m) = JsMap.keys m.
Proof.
  induction 1 as [|[k x] m Hx _ IH]; [done|]. simpl in Hx.
  unfold JsMap.values, JsMap.keys in *. cbn [map fst snd]. by rewrite Hx, IH.
Qed.

Lemma NoDup_map_filter {A B} (f : A -> B) (P : A -> Prop) `{!forall x, Decision (P x)} (l : list A) :
  NoDup (map f l) -> NoDup (map f (filter P l)).
Proof.
  induction l as [|x l IH]; [done|]. cbn [map]. intros Hnd.
  apply NoDup_cons in Hnd as [Hx Hnd]. rewrite filter_cons.
  destruct (decide (P x)); [|by apply IH]. cbn [map]. apply NoDup_cons. split; [|by apply IH].
  intros Hin. apply Hx. apply list_elem_of_fmap in Hin as (y & -> & Hy).
  apply list_elem_of_filter in Hy as [_ Hy]. apply list_elem_of_fmap. by exists y.
Qed.

Section AddRemove.
Context `{JsRuntime}.

(** X5. Adding an item to a well-formed store appends it to the list of
    its order: the list afterwards is the list before followed by the
    returned item.  The item has the next item id, which no stored item
    has, and carries the posted status and quantity as they are (no
    default is filled in: an absent status stays absent). *)
Theorem addOrderItem_appends (s : MemStorage) (item : InsertOrderItem.t) (created now : Date) :
  wf s ->
  let newItem := fst (addOrderItem item created now s) in
  let s' := snd (addOrderItem item created now s) in
  itemsOf s' (InsertOrderItem.orderId item) = itemsOf s (InsertOrderItem.orderId item) ++ [newItem] /\
  OrderItem.id newItem = currentOrderItemId s /\
  JsMap.get (OrderItem.id newItem) (orderItems s) = None /\
  JsMap.get (OrderItem.id newItem) (orderItems s') = Some newItem /\
  currentOrderItemId s' = currentOrderItemId s + 1 /\
  OrderItem.status newItem = InsertOrderItem.status item /\
  OrderItem.quantity newItem = InsertOrderItem.quantity item /\
  OrderItem.price newItem = InsertOrderItem.price item /\
  OrderItem.createdAt newItem = created.
Proof.
  intros Hwf. cbv zeta. rewrite addOrderItem_run. cbv zeta. cbn [fst snd].
  set (newItem := newOrderItem item (currentOrderItemId s) created).
  set (s1 := mkStorage _ _ _ _).
  destruct (recalculateOrderTotal_items (InsertOrderItem.orderId item) now s1) as (Hi & _ & Hci).
  assert (currentOrderItemId s ∉ JsMap.keys (orderItems s)) as Hfresh.
  { intros Hin. destruct Hwf as [_ _ _ Hf _]. rewrite Forall_forall in Hf.
    specialize (Hf _ Hin). simpl in Hf. lia. }
  unfold itemsOf, getOrderItems. cbn [fst]. rewrite Hi, Hci. unfold s1.
  cbn [orderItems currentOrderItemId]. split_and!; try done.
  - rewrite set_absent by done. unfold JsMap.values. rewrite map_app, filter_app.
    cbn [map snd]. by rewrite filter_cons_True.
  - by apply get_None_keys.
  - cbn [OrderItem.id newItem newOrderItem]. by rewrite get_set, Z.eqb_refl.
Qed.

(** X6. Removing a stored item from a well-formed store returns [true]
    (204 from the route); the list of the item's order afterwards is the
    list before without that item, in the same sequence; the id is no
    longer in the item store, and removing it once more returns [false]. *)
Theorem removeOrderItem_removes (s : MemStorage) (id : Z) (item : OrderItem.t) (now again : Date) :
  wf s ->
  JsMap.get id (orderItems s) = Some item ->
  let s' := snd (removeOrderItem id now s) in
  fst (removeOrderItem id now s) = true /\
  delete_item id now s = (NoContent 204, s') /\
  itemsOf s' (OrderItem.orderId item) =
    filter (fun x => OrderItem.id x <> id) (itemsOf s (OrderItem.orderId item)) /\
  JsMap.get id (orderItems s') = None /\
  JsMap.keys (orders s') = JsMap.keys (orders s) /\
  removeOrderItem id again s' = (false, s').
Proof.
  intros Hwf Hg. cbv zeta.
  assert (removeOrderItem id now s =
          (true, snd (recalculateOrderTotal (OrderItem.orderId item) now
                        (mkStorage (orders s) (JsMap.remove id (orderItems s))
                           (currentOrderId s) (currentOrderItemId s))))) as Hrun.
  { by rewrite removeOrderItem_run, Hg. }
  rewrite Hrun. cbn [fst snd]. set (s1 := mkStorage _ _ _ _).
  destruct (recalculateOrderTotal_rewrites (OrderItem.orderId item) now s1) as (Hk & Hi & _ & _).
  assert (JsMap.get id (orderItems (snd (recalculateOrderTotal (OrderItem.orderId item) now s1))) =
          None) as Hgone.
  { rewrite Hi. unfold s1. cbn [orderItems]. rewrite get_remove by apply Hwf.
    by rewrite Z.eqb_refl. }
  split_and!; try done.
  - unfold delete_item. by rewrite bind_run, Hrun.
  - unfold itemsOf, getOrderItems. cbn [fst]. rewrite Hi. unfold s1. cbn [orderItems].
    rewrite remove_is_filter by apply Hwf. rewrite values_filter_by_id by apply Hwf.
    rewrite !list_filter_filter. apply list_filter_iff. intros x. tauto.
  - unfold removeOrderItem. by rewrite Hgone.
Qed.

(** From a well-formed store a request brings no item key into the item
    store but the next item id, and never lowers that id. *)
Lemma handle_item_keys rq s k :
  wf s ->
  currentOrderItemId s <= currentOrderItemId (snd (handle rq s)) /\
  (k ∈ JsMap.keys (orderItems (snd (handle rq s))) ->
   k ∈ JsMap.keys (orderItems s) \/ k = currentOrderItemId s).
Proof.
  intros Hwf. rewrite handle_effect. destruct rq.
  - rewrite post_orders_run. cbv zeta. cbn [snd orderItems currentOrderItemId]. split; [lia | auto].
  - destruct (updateOrder_rewrites id body now s) as (_ & Hi & _ & Hci).
    rewrite Hi, Hci. split; [lia | auto].
  - destruct (updateOrderPayment_rewrites id paymentMethod bankReference cashAmount bankAmount
                now s) as (_ & Hi & _ & Hci).
    rewrite Hi, Hci. split; [lia | auto].
  - rewrite addOrderItem_run. cbv zeta. cbn [snd]. set (s1 := mkStorage _ _ _ _).
    destruct (recalculateOrderTotal_items (InsertOrderItem.orderId itemData) now s1) as (Hi & _ & Hci).
    rewrite Hi, Hci. unfold s1. cbn [orderItems currentOrderItemId]. split; [lia|].
    rewrite keys_set. case_bool_decide; [auto|]. intros Hin.
    apply elem_of_app in Hin as [Hin|Hin]; [auto|]. apply list_elem_of_singleton in Hin. auto.
  - unfold updateOrderItemStatus.
    destruct (JsMap.get id (orderItems s)) as [item|] eqn:Hg; [|cbn [snd]; split; [lia | auto]].
    cbn [snd set_orderItems orderItems currentOrderItemId]. split; [lia|].
    rewrite keys_set_present by (by eapply get_Some_keys). auto.
  - unfold updateOrderItemQuantity.
    destruct (JsMap.get id (orderItems s)) as [item|] eqn:Hg; [|cbn [snd]; split; [lia | auto]].
    cbv zeta. cbn [snd]. set (s1 := snd (set_orderItems _ s)).
    destruct (recalculateOrderTotal_items (OrderItem.orderId item) now s1) as (Hi & _ & Hci).
    rewrite Hi, Hci. unfold s1. cbn [snd set_orderItems orderItems currentOrderItemId].
    split; [lia|]. rewrite keys_set_present by (by eapply get_Some_keys). auto.
  - rewrite removeOrderItem_run.
    destruct (JsMap.get id (orderItems s)) as [item|] eqn:Hg; [|cbn [snd]; split; [lia | auto]].
    cbn [snd]. set (s1 := mkStorage _ _ _ _).
    destruct (recalculateOrderTotal_items (OrderItem.orderId item) now s1) as (Hi & _ & Hci).
    rewrite Hi, Hci. unfold s1. cbn [orderItems currentOrderItemId]. split; [lia|].
    intros Hin. left. by eapply keys_remove_sub.
  - rewrite get_kot_run. destruct (JsMap.get orderId (orders s)); [|cbn [snd]; split; [lia | auto]].
    cbv zeta. cbn [snd].
    destruct (batch_frame s (JStr "kot_printed")
                (filter (fun item => is_pending item = true) (itemsOf s orderId)) Hwf)
      as (_ & Hk & _ & Hci & _).
    cbv zeta in Hk, Hci. rewrite Hk, Hci. split; [lia | auto].
  - rewrite get_bill_run. destruct (JsMap.get orderId (orders s)); [|cbn [snd]; split; [lia | auto]].
    cbv zeta. destruct (0 <? _)%nat; [cbn [snd]; split; [lia | auto]|]. cbn [snd].
    destruct (batch_frame s (JStr "completed") (itemsOf s orderId) Hwf) as (_ & Hk & _ & Hci & _).
    cbv zeta in Hk, Hci. rewrite Hk, Hci. split; [lia | auto].
Qed.

Lemma serve_absent_stays rqs s k :
  wf s -> k < currentOrderItemId s -> JsMap.get k (orderItems s) = None ->
  JsMap.get k (orderItems (snd (serve rqs s))) = None.
Proof.
  revert s. induction rqs as [|rq rqs IH]; intros s Hwf Hlt Hg; [done|].
  rewrite serve_cons. cbn [snd]. destruct (handle_item_keys rq s k Hwf) as [Hle Hkeys].
  apply IH; [by apply handle_wf | lia |].
  apply get_None_keys. intros Hin. apply Hkeys in Hin as [Hin| ->]; [|lia].
  by apply get_None_keys in Hg.
Qed.

(** X7. Item ids are never reused.  Once an item of a well-formed store
    is removed, no later sequence of requests brings an item with that id
    back: the ids of added items only go up. *)
Theorem removed_item_never_returns (s : MemStorage) (id : Z) (item : OrderItem.t) (now : Date)
    (rqs : list Request) :
  wf s ->
  JsMap.get id (orderItems s) = Some item ->
  JsMap.get id (orderItems (snd (serve (DeleteItem id now :: rqs) s))) = None.
Proof.
  intros Hwf Hg. rewrite serve_cons. cbn [snd].
  destruct (handle_item_keys (DeleteItem id now) s id Hwf) as [Hle _].
  apply serve_absent_stays; [by apply handle_wf | |].
  - apply get_Some_keys in Hg. destruct Hwf as [_ _ _ Hf _]. rewrite Forall_forall in Hf.
    specialize (Hf _ Hg). simpl in Hf. lia.
  - rewrite handle_effect, removeOrderItem_run, Hg. cbn [snd].
    destruct (recalculateOrderTotal_items (OrderItem.orderId item) now
                (mkStorage (orders s) (JsMap.remove id (orderItems s))
                   (currentOrderId s) (currentOrderItemId s))) as (Hi & _).
    rewrite Hi. cbn [orderItems]. rewrite get_remove by apply Hwf. by rewrite Z.eqb_refl.
Qed.

(** X8. In every store the server can reach from its start, the items
    an order lists have pairwise distinct ids, belong to that order, are
    found under their own id, and have ids below the next item id. *)
Theorem listed_items_identified (rqs : list Request) (orderId : Z) :
  let s := snd (serve rqs newStorage) in
  NoDup (map OrderItem.id (itemsOf s orderId)) /\
  Forall (fun x => OrderItem.orderId x = orderId /\
                   JsMap.get (OrderItem.id x) (orderItems s) = Some x /\
                   OrderItem.id x < currentOrderItemId s)
    (itemsOf s orderId).
Proof.
  cbv zeta. pose proof (reachable_wf rqs) as Hwf. set (s := snd (serve rqs newStorage)) in *.
  split.
  - unfold itemsOf, getOrderItems. cbn [fst]. apply NoDup_map_filter.
    rewrite ids_are_keys by apply Hwf. apply Hwf.
  - apply Forall_forall. intros x Hx. destruct (lookup_of_listed s orderId x Hwf Hx) as [Ho Hg].
    split_and!; try done. apply get_Some_keys in Hg. destruct Hwf as [_ _ _ Hf _].
    rewrite Forall_forall in Hf. apply (Hf _ Hg).
Qed.

End AddRemove.

(** ** Totals along a history *)

Lemma billedLines_restatus (Q : OrderItem.t -> Prop) `{!forall x, Decision (Q x)} sel st
    (m : JsMap OrderItem.t) :
  (forall x, Q (OrderItem.with_status x st) <-> Q x) ->
  map billedLine (filter Q (JsMap.values (restatus sel st m))) =
  map billedLine (filter Q (JsMap.values m)).
Proof.
  intros HQ. induction m as [|[k item] m IH]; [done|].
  unfold restatus, JsMap.values in *. cbn [map fst snd].
  destruct (sel k); cbn [snd]; rewrite !filter_cons.
  - destruct (decide (Q item)) as [Hq|Hq].
    + rewrite decide_True by (by apply HQ). cbn [map]. by rewrite IH.
    + rewrite decide_False by (by rewrite HQ). apply IH.
  - destruct (decide (Q item)); cbn [map]; by rewrite IH.
Qed.

Section TotalsKept.
Context `{JsRuntime}.

Lemma subtotal_of_lines (l1 l2 : list OrderItem.t) (a : float) :
  map billedLine l1 = map billedLine l2 ->
  fold_left (fun sum item =>
               (sum + Number (OrderItem.price item) * Number (OrderItem.quantity item))%float) l1 a =
  fold_left (fun sum item =>
               (sum + Number (OrderItem.price item) * Number (OrderItem.quantity item))%float) l2 a.
Proof.
  revert l2 a. induction l1 as [|x l1 IH]; intros [|y l2] a Hl; try discriminate; [done|].
  cbn [map] in Hl. unfold billedLine at 1 3 in Hl. injection Hl as Hp Hq Hl.
  cbn [fold_left]. rewrite Hp, Hq. by apply IH.
Qed.

Lemma mutation_recalculates s rq orderId order :
  mutatedOrder s rq = Some orderId ->
  JsMap.get orderId (orders s) = Some order ->
  totals_in_step (snd (handle rq s)) orderId.
Proof.
  intros Hmu Hg. rewrite handle_effect. destruct rq; simpl in Hmu; try discriminate.
  - injection Hmu as <-. rewrite addOrderItem_run. cbv zeta. cbn [snd].
    by eapply recalculateOrderTotal_totals.
  - unfold updateOrderItemQuantity.
    destruct (JsMap.get id (orderItems s)) as [item|] eqn:Hgi; [|discriminate].
    injection Hmu as Ho. cbv zeta. cbn [snd]. rewrite Ho. by eapply recalculateOrderTotal_totals.
  - rewrite removeOrderItem_run.
    destruct (JsMap.get id (orderItems s)) as [item|] eqn:Hgi; [|discriminate].
    injection Hmu as Ho. cbn [snd]. rewrite Ho. by eapply recalculateOrderTotal_totals.
Qed.

(** Apart from item mutations on the order, a request that keeps its
    billing fields leaves them as they are. *)
Lemma billing_fields_kept rq s orderId order :
  wf s -> keeps_billing orderId rq = true ->
  mutatedOrder s rq <> Some orderId ->
  JsMap.get orderId (orders s) = Some order ->
  exists order',
    JsMap.get orderId (orders (snd (handle rq s))) = Some order' /\
    Order.subtotal order' = Order.subtotal order /\
    Order.tax order' = Order.tax order /\
    Order.totalAmount order' = Order.totalAmount order /\
    Order.packagingFee order' = Order.packagingFee order.
Proof.
  intros Hwf Hkb Hmu Hg.
  destruct (decide (targetOrder s rq = Some orderId)) as [Ht|Ht].
  2: { exists order. by rewrite handle_other_orders. }
  rewrite handle_effect. destruct rq; cbn [targetOrder mutatedOrder] in Ht, Hmu; try congruence.
  - injection Ht as <-. apply get_Some_keys in Hg. destruct Hwf as [_ Hf _ _ _].
    rewrite Forall_forall in Hf. specialize (Hf _ Hg). simpl in Hf. lia.
  - injection Ht as ->. rewrite updateOrder_lookup, Z.eqb_refl, Hg. eexists. split; [done|].
    cbn [keeps_billing] in Hkb. rewrite Z.eqb_refl in Hkb. cbn [negb orb] in Hkb.
    repeat (apply andb_true_iff in Hkb as [Hkb ?]).
    repeat match goal with Hb : bool_decide _ = true |- _ => apply bool_decide_eq_true in Hb end.
    cbn [Order.update Order.subtotal Order.tax Order.totalAmount Order.packagingFee].
    by repeat match goal with Hn : _ = None |- _ => rewrite Hn; clear Hn end.
  - injection Ht as ->. rewrite updateOrderPayment_lookup, Z.eqb_refl, Hg. by eexists.
Qed.

(** Apart from item mutations on the order, a request leaves the prices
    and quantities of its items as they are. *)
Lemma billed_lines_kept rq s orderId :
  wf s -> mutatedOrder s rq <> Some orderId ->
  map billedLine (itemsOf (snd (handle rq s)) orderId) = map billedLine (itemsOf s orderId).
Proof.
  intros Hwf Hmu.
  destruct (decide (touchedOrder s rq = Some orderId)) as [Ht|Ht].
  2: { by rewrite handle_other_items. }
  rewrite handle_effect. unfold itemsOf, getOrderItems. cbn [fst].
  destruct rq; cbn [touchedOrder mutatedOrder] in Ht, Hmu; try congruence.
  - rewrite updateOrderItemStatus_run by apply Hwf. cbn [orderItems].
    by apply billedLines_restatus.
  - rewrite get_kot_run. destruct (JsMap.get orderId0 (orders s)); [|done].
    cbv zeta. cbn [snd]. rewrite forEach_updateOrderItemStatus by apply Hwf.
    cbn [orderItems]. by apply billedLines_restatus.
  - rewrite get_bill_run. destruct (JsMap.get orderId0 (orders s)); [|done].
    cbv zeta. destruct (0 <? _)%nat; [done|]. cbn [snd].
    rewrite forEach_updateOrderItemStatus by apply Hwf.
    cbn [orderItems]. by apply billedLines_restatus.
Qed.

Lemma handle_keeps_totals rq s orderId :
  wf s -> keeps_billing orderId rq = true ->
  totals_in_step s orderId -> totals_in_step (snd (handle rq s)) orderId.
Proof.
  intros Hwf Hkb (order & Hg & Hstep).
  destruct (decide (mutatedOrder s rq = Some orderId)) as [Hmu|Hmu].
  { by eapply mutation_recalculates. }
  destruct (billing_fields_kept rq s orderId order Hwf Hkb Hmu Hg)
    as (order' & Hg' & Hs & Ht & Ha & Hf).
  exists order'. split; [done|]. cbv zeta in Hstep |- *.
  rewrite Hs, Ht, Ha, Hf.
  rewrite (subtotal_of_lines _ (itemsOf s orderId)) by (by apply billed_lines_kept).
  exact Hstep.
Qed.

Lemma serve_keeps_totals rqs s orderId :
  wf s -> totals_in_step s orderId -> forallb (keeps_billing orderId) rqs = true ->
  totals_in_step (snd (serve rqs s)) orderId.
Proof.
  revert s. induction rqs as [|rq rqs IH]; intros s Hwf Hstep Hrqs; [done|].
  cbn [forallb] in Hrqs. apply andb_true_iff in Hrqs as [Hrq Hrqs].
  rewrite serve_cons. cbn [snd].
  apply IH; [by apply handle_wf | by apply handle_keeps_totals | done].
Qed.

(** X9. Once the stored totals of an order agree with its items, they
    keep agreeing along every later history from a well-formed store, as
    long as no PUT /api/orders/:id on that order carries a subtotal, tax,
    total or packaging fee of its own (such a PUT stores what it is given,
    and nothing recomputes the total).  Printing, status updates,
    settlement and anything done to other orders leave the agreement
    intact; item mutations on the order re-establish it; and the order is
    still there at the end. *)
Theorem totals_stay_in_step (s : MemStorage) (rqs : list Request) (orderId : Z) :
  wf s ->
  totals_in_step s orderId ->
  forallb (keeps_billing orderId) rqs = true ->
  totals_in_step (snd (serve rqs s)) orderId /\
  is_Some (JsMap.get orderId (orders (snd (serve rqs s)))).
Proof.
  intros Hwf Hstep Hrqs.
  pose proof (serve_keeps_totals rqs s orderId Hwf Hstep Hrqs) as Hend.
  split; [done|]. destruct Hend as (order & Hg & _). by exists order.
Qed.

End TotalsKept.

(** ** Order numbers and ids *)

Lemma find_by_number (m : JsMap Order.t) (k : Z) :
  (forall k' o, (k', o) ∈ m -> Order.orderNumber o = JStr (pretty (1000 + k'))) ->
  List.find (fun o => strict_eq (Order.orderNumber o) (JStr (pretty (1000 + k)))) (JsMap.values m) =
  JsMap.get k m.
Proof.
  induction m as [|[k0 o0] m IH]; intros Hm; [done|].
  unfold JsMap.values in *. cbn [map snd List.find JsMap.get].
  rewrite (Hm k0 o0) by left. cbn [strict_eq].
  destruct (Z.eqb_spec k0 k) as [->|Hne].
  - by rewrite String.eqb_refl.
  - destruct (String.eqb_spec (pretty (1000 + k0)) (pretty (1000 + k))) as [Heq|_].
    + apply (inj pretty) in Heq. lia.
    + apply IH. intros k' o Hin. apply Hm. by right.
Qed.

Section Numbers.
Context `{JsRuntime}.

Lemma handle_order_counter rq s :
  wf s ->
  currentOrderId (snd (handle rq s)) =
  match rq with
  | PostOrder _ _ _ => currentOrderId s + 1
  | _ => currentOrderId s
  end.
Proof.
  intros Hwf. rewrite handle_effect. destruct rq.
  - by rewrite post_orders_run.
  - by destruct (updateOrder_rewrites id body now s) as (_ & _ & Hc & _).
  - by destruct (updateOrderPayment_rewrites id paymentMethod bankReference cashAmount bankAmount
                   now s) as (_ & _ & Hc & _).
  - rewrite addOrderItem_run. cbv zeta. cbn [snd].
    by destruct (recalculateOrderTotal_items (InsertOrderItem.orderId itemData) now
                   (mkStorage (orders s)
                      (JsMap.set (currentOrderItemId s)
                         (newOrderItem itemData (currentOrderItemId s) created) (orderItems s))
                      (currentOrderId s) (currentOrderItemId s + 1))) as (_ & Hc & _).
  - unfold updateOrderItemStatus. by destruct (JsMap.get id (orderItems s)).
  - unfold updateOrderItemQuantity. destruct (JsMap.get id (orderItems s)) as [item|]; [|done].
    cbv zeta. cbn [snd].
    by destruct (recalculateOrderTotal_items (OrderItem.orderId item) now
                   (snd (set_orderItems
                           (JsMap.set id (OrderItem.with_quantity item quantity) (orderItems s)) s)))
      as (_ & Hc & _).
  - rewrite removeOrderItem_run. destruct (JsMap.get id (orderItems s)) as [item|]; [|done].
    cbn [snd].
    by destruct (recalculateOrderTotal_items (OrderItem.orderId item) now
                   (mkStorage (orders s) (JsMap.remove id (orderItems s))
                      (currentOrderId s) (currentOrderItemId s))) as (_ & Hc & _).
  - rewrite get_kot_run. destruct (JsMap.get orderId (orders s)); [|done].
    cbv zeta. cbn [snd]. by apply batch_frame.
  - rewrite get_bill_run. destruct (JsMap.get orderId (orders s)); [|done].
    cbv zeta. destruct (0 <? _)%nat; [done|]. cbn [snd]. by apply batch_frame.
Qed.

(** The id and number of the record a request leaves under a key are
    those of the record it found there, or those of a new order. *)
Lemma handle_order_identity rq s k order' :
  JsMap.get k (orders (snd (handle rq s))) = Some order' ->
  (exists order, JsMap.get k (orders s) = Some order /\
                 (keeps_ids rq = true -> Order.id order' = Order.id order) /\
                 (keeps_numbers rq = true ->
                  Order.orderNumber order' = Order.orderNumber order)) \/
  (k = currentOrderId s /\ Order.id order' = k /\
   Order.orderNumber order' = JStr (orderNumberFor (length (orders s))) /\
   exists body created updated, rq = PostOrder body created updated).
Proof.
  intros Hg'.
  destruct (decide (targetOrder s rq = Some k)) as [Ht|Ht].
  2: { left. exists order'. by rewrite <- (handle_other_orders rq s k Ht). }
  rewrite handle_effect in Hg'. destruct rq; cbn [targetOrder] in Ht; try discriminate.
  - injection Ht as <-. right. rewrite post_orders_run in Hg'. cbv zeta in Hg'.
    cbn [snd orders] in Hg'. rewrite get_set, Z.eqb_refl in Hg'. injection Hg' as <-.
    split_and!; try done. by eexists _, _, _.
  - injection Ht as ->. left. rewrite updateOrder_lookup, Z.eqb_refl in Hg'.
    destruct (JsMap.get k (orders s)) as [order|]; [|discriminate]. injection Hg' as <-.
    exists order. split_and!; try done.
    + intros Hki. cbn [keeps_ids] in Hki. apply bool_decide_eq_true in Hki.
      cbn [Order.update Order.id]. by rewrite Hki.
    + intros Hkn. cbn [keeps_numbers] in Hkn. apply bool_decide_eq_true in Hkn.
      cbn [Order.update Order.orderNumber]. by rewrite Hkn.
  - injection Ht as ->. left. rewrite updateOrderPayment_lookup, Z.eqb_refl in Hg'.
    destruct (JsMap.get k (orders s)) as [order|]; [|discriminate]. injection Hg' as <-.
    by exists order.
  - injection Ht as Ht. left. rewrite addOrderItem_run in Hg'. cbv zeta in Hg'. cbn [snd] in Hg'.
    rewrite recalculateOrderTotal_lookup in Hg'. cbn [orders] in Hg'.
    rewrite Ht, Z.eqb_refl in Hg'.
    destruct (JsMap.get k (orders s)) as [order|]; [|discriminate]. injection Hg' as <-.
    by exists order.
  - left. unfold updateOrderItemQuantity in Hg'.
    destruct (JsMap.get id (orderItems s)) as [item|]; [|discriminate].
    injection Ht as Ht. cbv zeta in Hg'. cbn [snd] in Hg'.
    rewrite recalculateOrderTotal_lookup in Hg'. cbn [orders set_orderItems snd] in Hg'.
    rewrite Ht, Z.eqb_refl in Hg'.
    destruct (JsMap.get k (orders s)) as [order|]; [|discriminate]. injection Hg' as <-.
    by exists order.
  - left. rewrite removeOrderItem_run in Hg'.
    destruct (JsMap.get id (orderItems s)) as [item|]; [|discriminate].
    injection Ht as Ht. cbn [snd] in Hg'.
    rewrite recalculateOrderTotal_lookup in Hg'. cbn [orders] in Hg'.
    rewrite Ht, Z.eqb_refl in Hg'.
    destruct (JsMap.get k (orders s)) as [order|]; [|discriminate]. injection Hg' as <-.
    by exists order.
Qed.

Lemma newStorage_numbered : numbered newStorage.
Proof. split; [done|]. intros k order Hg. discriminate. Qed.

Lemma handle_numbered rq s :
  wf s -> keeps_numbers rq = true -> numbered s -> numbered (snd (handle rq s)).
Proof.
  intros Hwf Hkn [Hc Hn]. split.
  - rewrite handle_order_counter, handle_order_count by done. destruct rq; lia.
  - intros k order' Hg'.
    destruct (handle_order_identity rq s k order' Hg')
      as [(order & Hg & _ & Hnum)|(-> & Hid & -> & _)].
    + rewrite Hnum by done. by apply Hn.
    + unfold orderNumberFor. f_equal. f_equal. lia.
Qed.

Lemma handle_identified rq s :
  keeps_ids rq = true -> identified s -> identified (snd (handle rq s)).
Proof.
  intros Hki Hn k order' Hg'.
  destruct (handle_order_identity rq s k order' Hg')
    as [(order & Hg & Hid & _)|(-> & Hid & _)]; [|done].
  rewrite Hid by done. by apply Hn.
Qed.

Lemma serve_numbered rqs s :
  wf s -> forallb keeps_numbers rqs = true -> numbered s -> numbered (snd (serve rqs s)).
Proof.
  revert s. induction rqs as [|rq rqs IH]; intros s Hwf Hrqs Hn; [done|].
  cbn [forallb] in Hrqs. apply andb_true_iff in Hrqs as [Hrq Hrqs].
  rewrite serve_cons. cbn [snd]. apply IH; [by apply handle_wf | done | by apply handle_numbered].
Qed.

Lemma serve_identified rqs s :
  forallb keeps_ids rqs = true -> identified s -> identified (snd (serve rqs s)).
Proof.
  revert s. induction rqs as [|rq rqs IH]; intros s Hrqs Hn; [done|].
  cbn [forallb] in Hrqs. apply andb_true_iff in Hrqs as [Hrq Hrqs].
  rewrite serve_cons. cbn [snd]. apply IH; [done | by apply handle_identified].
Qed.

(** X10. Along every history from the server's start in which no
    PUT /api/orders/:id carries an [orderNumber], the order stored under
    a key has the number String(1000 + key), and looking that number up
    with [getOrderByNumber] returns exactly that order.  Its [id] field is
    the key as well when, besides, no PUT /api/orders/:id of the history
    carried an [id]: a PUT body is spread over the record unvalidated, so
    one that carries an [id] leaves the record with that id under the old
    key. *)
Theorem order_number_names_order (rqs : list Request) (k : Z) (order : Order.t) :
  forallb keeps_numbers rqs = true ->
  JsMap.get k (orders (snd (serve rqs newStorage))) = Some order ->
  Order.orderNumber order = JStr (pretty (1000 + k)) /\
  fst (getOrderByNumber (pretty (1000 + k)) (snd (serve rqs newStorage))) = Some order /\
  (forallb keeps_ids rqs = true -> Order.id order = k).
Proof.
  intros Hrqs Hg.
  destruct (serve_numbered rqs newStorage newStorage_wf Hrqs newStorage_numbered) as [_ Hn].
  split_and!.
  - by apply Hn.
  - unfold getOrderByNumber. cbn [fst]. rewrite find_by_number; [done|].
    intros k' o Hin. apply Hn. apply get_of_elem; [apply reachable_wf | done].
  - intros Hids. by apply (serve_identified rqs newStorage Hids).
Qed.

End Numbers.

(** ** Settling twice *)

Lemma set_set {V} (m : JsMap V) k (v v' : V) : JsMap.set k v (JsMap.set k v' m) = JsMap.set k v m.
Proof.
  induction m as [|[k0 v0] m IH]; simpl.
  - by rewrite Z.eqb_refl.
  - destruct (Z.eqb_spec k0 k) as [->|Hne]; simpl.
    + by rewrite Z.eqb_refl.
    + destruct (Z.eqb_spec k0 k); [done|]. by rewrite IH.
Qed.

(** X11. Nothing stops a second settlement of a paid order, and the last
    one wins: settling with one set of arguments and then with another
    returns the same order and leaves the same store as settling with the
    second set alone. *)
Theorem settlement_last_write_wins (s : MemStorage) (id : Z)
    (method1 ref1 cash1 bank1 method2 ref2 cash2 bank2 : jsval) (t1 t2 : Date) :
  updateOrderPayment id method2 ref2 cash2 bank2 t2
    (snd (updateOrderPayment id method1 ref1 cash1 bank1 t1 s)) =
  updateOrderPayment id method2 ref2 cash2 bank2 t2 s.
Proof.
  unfold updateOrderPayment. destruct (JsMap.get id (orders s)) as [order|] eqn:Hg.
  - cbn [snd set_orders orders orderItems currentOrderId currentOrderItemId].
    rewrite get_set, Z.eqb_refl, set_set. done.
  - cbn [snd]. by rewrite Hg.
Qed.

(** ** Listing orders *)

Lemma StronglySorted_filter {A} (R : relation A) (P : A -> Prop) `{!forall x, Decision (P x)}
    (l : list A) :
  StronglySorted R l -> StronglySorted R (filter P l).
Proof.
  induction 1 as [|x l Hl IH Hx]; [constructor|]. rewrite filter_cons.
  destruct (decide (P x)); [|done]. constructor; [done|].
  apply Forall_forall. intros y Hy. apply list_elem_of_filter in Hy as [_ Hy].
  rewrite Forall_forall in Hx. by apply Hx.
Qed.

(** X12. [getAllOrders] returns the stored orders, each once, newest
    first.  [getOrdersByDateRange] returns, newest first and each once,
    exactly the stored orders created from [startDate] to [endDate], both
    ends included; with [endDate] before [startDate] it returns none.
    Neither changes the store. *)
Theorem orders_listed_newest_first (s : MemStorage) (startDate endDate : Date) :
  let all := getAllOrders s in
  let range := getOrdersByDateRange startDate endDate s in
  snd all = s /\ snd range = s /\
  fst all ≡ₚ JsMap.values (orders s) /\
  StronglySorted (fun a b => Order.createdAt b <= Order.createdAt a) (fst all) /\
  fst range ≡ₚ
    filter (fun o => startDate <= Order.createdAt o /\ Order.createdAt o <= endDate)
      (JsMap.values (orders s)) /\
  StronglySorted (fun a b => Order.createdAt b <= Order.createdAt a) (fst range) /\
  (forall o, o ∈ fst range <->
             o ∈ JsMap.values (orders s) /\
             startDate <= Order.createdAt o /\ Order.createdAt o <= endDate) /\
  (if decide (endDate < startDate) then fst range = [] else True).
Proof.
  cbv zeta. unfold getAllOrders, getOrdersByDateRange. cbn [fst snd]. split_and!; try done.
  - apply array_sort_Permutation.
  - apply byNewest_sorted.
  - apply array_sort_Permutation.
  - apply byNewest_sorted.
  - intros o. rewrite array_sort_Permutation, list_elem_of_filter. tauto.
  - case_decide as Hlt; [|done]. apply Permutation_nil_r. rewrite array_sort_Permutation.
    rewrite filter_none; [done|]. apply Forall_forall. intros o _. lia.
Qed.

(** X13. The sales report (POST /api/orders/report, once its dates are
    built) answers 200 with, newest first, exactly the stored orders
    created within the two dates whose payment method is the one asked
    for; when no method, an empty one or "all" is asked for, it answers
    with all orders within the dates.  An order not yet settled has no
    method, so naming a method leaves it out.  The store is unchanged. *)
Theorem report_orders_filters (s : MemStorage) (startDate endDate : Date) (paymentMethod : jsval) :
  wantsMethod JUndefined = false /\
  wantsMethod (JStr EmptyString) = false /\
  wantsMethod (JStr "all") = false /\
  exists listed,
    report_orders startDate endDate paymentMethod s = (Json 200 listed, s) /\
    StronglySorted (fun a b => Order.createdAt b <= Order.createdAt a) listed /\
    forall o, o ∈ listed <->
      o ∈ JsMap.values (orders s) /\
      startDate <= Order.createdAt o /\ Order.createdAt o <= endDate /\
      if wantsMethod paymentMethod
      then strict_eq (Order.paymentMethod o) paymentMethod = true
      else True.
Proof.
  split_and!; try done. unfold report_orders. rewrite bind_run. cbn [fst snd ret getOrdersByDateRange].
  eexists. split; [reflexivity|]. destruct (wantsMethod paymentMethod).
  - split.
    + apply StronglySorted_filter. apply byNewest_sorted.
    + intros o. rewrite list_elem_of_filter, array_sort_Permutation, list_elem_of_filter. tauto.
  - split.
    + apply byNewest_sorted.
    + intros o. rewrite array_sort_Permutation, list_elem_of_filter. tauto.
Qed.

(** ** Freeing a table *)

Section FreeTable.
Context `{JsRuntime}.

Lemma serve_app rqs1 rqs2 s :
  snd (serve (rqs1 ++ rqs2) s) = snd (serve rqs2 (snd (serve rqs1 s))).
Proof.
  revert s. induction rqs1 as [|rq rqs1 IH]; intros s; [done|].
  cbn [app]. rewrite !serve_cons. cbn [snd]. apply IH.
Qed.

Lemma delete_listed s id item now :
  wf s -> JsMap.get id (orderItems s) = Some item ->
  orderItems (snd (handle (DeleteItem id now) s)) = JsMap.remove id (orderItems s) /\
  itemsOf (snd (handle (DeleteItem id now) s)) (OrderItem.orderId item) =
    filter (fun y => OrderItem.id y <> id) (itemsOf s (OrderItem.orderId item)).
Proof.
  intros Hwf Hg. rewrite handle_effect, removeOrderItem_run, Hg. cbn [snd].
  destruct (recalculateOrderTotal_items (OrderItem.orderId item) now
              (mkStorage (orders s) (JsMap.remove id (orderItems s))
                 (currentOrderId s) (currentOrderItemId s))) as (Hi & _).
  unfold itemsOf, getOrderItems. cbn [fst]. rewrite Hi. cbn [orderItems]. split; [done|].
  rewrite remove_is_filter by apply Hwf. rewrite values_filter_by_id by apply Hwf.
  rewrite !list_filter_filter. apply list_filter_iff. intros x. tauto.
Qed.

Lemma delete_all (clock : Z -> Date) (orderId : Z) (l : list OrderItem.t) s :
  wf s ->
  NoDup (map OrderItem.id l) ->
  (forall x, x ∈ l -> JsMap.get (OrderItem.id x) (orderItems s) = Some x /\
                      OrderItem.orderId x = orderId) ->
  is_Some (JsMap.get orderId (orders s)) ->
  let s' := snd (serve (deletions clock l) s) in
  itemsOf s' orderId = filter (fun y => OrderItem.id y ∉ map OrderItem.id l) (itemsOf s orderId) /\
  (forall k, k <> orderId ->
     itemsOf s' k = itemsOf s k /\ JsMap.get k (orders s') = JsMap.get k (orders s)) /\
  match l with
  | [] => s' = s
  | _ :: _ => totals_in_step s' orderId
  end.
Proof.
  cbv zeta. revert s. induction l as [|x l IH]; intros s Hwf Hnd Hl Ho.
  - cbn [deletions map]. split_and!; try done.
    symmetry. apply filter_keeps_all. apply Forall_forall. intros y _. apply not_elem_of_nil.
  - cbn [deletions map]. fold (deletions clock l). rewrite serve_cons. cbn [snd].
    cbn [map] in Hnd. apply NoDup_cons in Hnd as [Hx Hnd].
    destruct (Hl x ltac:(left)) as [Hgx Hox].
    set (rq := DeleteItem (OrderItem.id x) (clock (OrderItem.id x))).
    set (s1 := snd (handle rq s)).
    destruct (delete_listed s (OrderItem.id x) x (clock (OrderItem.id x)) Hwf Hgx) as [Hi1 Hl1].
    fold rq s1 in Hi1, Hl1. rewrite Hox in Hl1.
    assert (wf s1) as Hwf1 by (by apply handle_wf).
    assert (totals_in_step s1 orderId) as Hstep1.
    { destruct Ho as [order Hgo]. apply (mutation_recalculates s rq orderId order); [|done].
      cbn [rq mutatedOrder]. by rewrite Hgx, <- Hox. }
    assert (forall y, y ∈ l -> JsMap.get (OrderItem.id y) (orderItems s1) = Some y /\
                               OrderItem.orderId y = orderId) as Hl'.
    { intros y Hy. destruct (Hl y ltac:(by right)) as [Hgy Hoy]. split; [|done].
      rewrite Hi1, get_remove by apply Hwf.
      destruct (Z.eqb_spec (OrderItem.id x) (OrderItem.id y)) as [Heq|_]; [|done].
      exfalso. apply Hx. rewrite Heq. apply list_elem_of_fmap. by exists y. }
    assert (is_Some (JsMap.get orderId (orders s1))) as Ho1.
    { destruct Hstep1 as (order1 & Hg1 & _). by exists order1. }
    destruct (IH s1 Hwf1 Hnd Hl' Ho1) as (Hlist & Hother & Hend).
    split_and!.
    + rewrite Hlist, Hl1, list_filter_filter. apply list_filter_iff. intros y. cbn [map].
      rewrite not_elem_of_cons. tauto.
    + intros k Hk. destruct (Hother k Hk) as [Hik Hgk]. rewrite Hik, Hgk.
      apply (request_untouched s rq k); [done | |]; cbn [rq targetOrder touchedOrder];
        rewrite Hgx; simpl; congruence.
    + destruct l as [|y l']; [by rewrite Hend|done].
Qed.

(** X14. Freeing a table, as the POS page does it: a DELETE for each item
    the order lists, then a PUT with paymentStatus "refunded" and the
    note.  From a well-formed store holding the order, the order ends with
    no items, marked "refunded" with the note "TABLE FREED - Order
    canceled"; if it had items, its stored subtotal and tax are those of
    zero and its total is its packaging fee alone; if it had none, its
    totals are as they were.  No other order's record or item list
    changes. *)
Theorem free_table_clears_order (s : MemStorage) (orderId : Z) (order : Order.t)
    (clock : Z -> Date) (now : Date) :
  wf s ->
  JsMap.get orderId (orders s) = Some order ->
  let s' := snd (serve (freeTableRequests s orderId clock now) s) in
  itemsOf s' orderId = [] /\
  (exists order',
     JsMap.get orderId (orders s') = Some order' /\
     Order.paymentStatus order' = JStr "refunded" /\
     Order.notes order' = JStr "TABLE FREED - Order canceled" /\
     match itemsOf s orderId with
     | [] =>
         (Order.subtotal order', Order.tax order', Order.totalAmount order') =
         (Order.subtotal order, Order.tax order, Order.totalAmount order)
     | _ :: _ =>
         Order.subtotal order' = JStr (numToString 0%float) /\
         Order.tax order' = JStr (numToString (0 * 0.05)%float) /\
         Order.totalAmount order' =
           JStr (numToString
                   (0 + 0 * 0.05 + Number (js_or (Order.packagingFee order') (JNum 0)))%float)
     end) /\
  (forall k, k <> orderId ->
     itemsOf s' k = itemsOf s k /\ JsMap.get k (orders s') = JsMap.get k (orders s)).
Proof.
  intros Hwf Hg. cbv zeta. unfold freeTableRequests. fold (itemsOf s orderId).
  fold (deletions clock (itemsOf s orderId)). rewrite serve_app.
  assert (NoDup (map OrderItem.id (itemsOf s orderId))) as Hnd.
  { unfold itemsOf, getOrderItems. cbn [fst]. apply NoDup_map_filter.
    rewrite ids_are_keys by apply Hwf. apply Hwf. }
  assert (forall x, x ∈ itemsOf s orderId ->
            JsMap.get (OrderItem.id x) (orderItems s) = Some x /\
            OrderItem.orderId x = orderId) as Hl.
  { intros x Hx. by destruct (lookup_of_listed s orderId x Hwf Hx). }
  destruct (delete_all clock orderId (itemsOf s orderId) s Hwf Hnd Hl ltac:(by exists order))
    as (Hlist & Hother & Hend).
  set (s1 := snd (serve (deletions clock (itemsOf s orderId)) s)) in *.
  assert (itemsOf s1 orderId = []) as Hnone.
  { rewrite Hlist. apply filter_none. apply Forall_forall. intros y Hy Hn. apply Hn.
    apply list_elem_of_fmap. by exists y. }
  rewrite serve_cons. cbn [snd serve forEach ret]. rewrite handle_effect.
  destruct (updateOrder_rewrites orderId tableFreed now s1) as (_ & Hi & _).
  split_and!.
  - unfold itemsOf, getOrderItems in Hnone |- *. cbn [fst] in Hnone |- *. by rewrite Hi.
  - rewrite updateOrder_lookup, Z.eqb_refl.
    destruct (itemsOf s orderId) as [|x l] eqn:Hitems.
    + rewrite Hend, Hg. eexists. split; [reflexivity|]. done.
    + destruct Hend as (order1 & Hg1 & Hs & Ht & Ha). rewrite Hg1.
      eexists. split; [reflexivity|]. cbv zeta in Hs, Ht, Ha.
      unfold itemsOf, getOrderItems in Hnone. cbn [fst] in Hnone.
      rewrite Hnone in Hs, Ht, Ha. cbn [fold_left] in Hs, Ht, Ha.
      cbn [Order.update tableFreed PartialOrder.subtotal PartialOrder.tax PartialOrder.totalAmount
           PartialOrder.packagingFee PartialOrder.paymentStatus PartialOrder.notes
           Order.subtotal Order.tax Order.totalAmount Order.packagingFee Order.paymentStatus
           Order.notes default from_option].
      unfold js_or. by rewrite Hs, Ht, Ha.
  - intros k Hk. destruct (Hother k Hk) as [Hik Hgk]. split.
    + rewrite <- Hik. unfold itemsOf, getOrderItems. cbn [fst]. by rewrite Hi.
    + rewrite updateOrder_lookup. destruct (Z.eqb_spec orderId k); [congruence | done].
Qed.

End FreeTable.

(** ** The menu *)

Lemma set_get_same {V} (m : JsMap V) k (v : V) : JsMap.get k m = Some v -> JsMap.set k v m = m.
Proof.
  induction m as [|[k0 v0] m IH]; simpl; [done|].
  destruct (Z.eqb_spec k0 k) as [->|_].
  - by intros [= ->].
  - intros Hg. by rewrite IH.
Qed.

Lemma elem_of_values_set {V} (m : JsMap V) k (v : V) : v ∈ JsMap.values (JsMap.set k v m).
Proof.
  induction m as [|[k0 v0] m IH]; simpl.
  - left.
  - destruct (Z.eqb k0 k); unfold JsMap.values in *; cbn [map snd]; [left | by right].
Qed.

Lemma toggled_twice item :
  MenuItem.toggled (MenuItem.toggled item) =
  MenuItem.mk (MenuItem.id item) (MenuItem.name item) (MenuItem.price item)
    (MenuItem.categoryId item) (JBool (truthy (MenuItem.isActive item))).
Proof. unfold MenuItem.toggled. simpl. by rewrite negb_involutive. Qed.

(** X15. [toggleMenuItem] in memory.  An unknown id gives [undefined] and
    changes nothing.  For a stored item the result, and what the store
    then holds under the id, is the item with [isActive] replaced by its
    negation; no other item and no key changes.  Three toggles leave the
    store as one does, and when [isActive] is a boolean two toggles leave
    it exactly as it was. *)
Theorem toggleMenuItem_flips (s : MenuStorage) (id : Z) :
  match JsMap.get id (menuItems s) with
  | None => Menu.toggleMenuItem id s = (None, s)
  | Some item =>
      let s1 := snd (Menu.toggleMenuItem id s) in
      let s2 := snd (Menu.toggleMenuItem id s1) in
      let s3 := snd (Menu.toggleMenuItem id s2) in
      fst (Menu.toggleMenuItem id s) = Some (MenuItem.toggled item) /\
      MenuItem.isActive (MenuItem.toggled item) = JBool (negb (truthy (MenuItem.isActive item))) /\
      JsMap.get id (menuItems s1) = Some (MenuItem.toggled item) /\
      (forall k, k <> id -> JsMap.get k (menuItems s1) = JsMap.get k (menuItems s)) /\
      JsMap.keys (menuItems s1) = JsMap.keys (menuItems s) /\
      currentMenuItemId s1 = currentMenuItemId s /\
      s3 = s1 /\
      match MenuItem.isActive item with
      | JBool _ => s2 = s
      | _ => True
      end
  end.
Proof.
  destruct (JsMap.get id (menuItems s)) as [item|] eqn:Hg.
  2: { unfold Menu.toggleMenuItem. by rewrite Hg. }
  cbv zeta. unfold Menu.toggleMenuItem. rewrite Hg. cbn [fst snd menuItems currentMenuItemId].
  rewrite !get_set, !Z.eqb_refl. cbn [fst snd menuItems currentMenuItemId].
  rewrite !get_set, !Z.eqb_refl. cbn [fst snd menuItems currentMenuItemId].
  rewrite !set_set. split_and!; try done.
  - intros k Hne. rewrite get_set. destruct (Z.eqb_spec id k); [congruence | done].
  - apply keys_set_present. by eapply get_Some_keys.
  - f_equal. f_equal. by rewrite toggled_twice.
  - destruct item as [i n p c a]. destruct a; try done.
    rewrite toggled_twice. simpl. rewrite set_get_same by done. by destruct s.
Qed.

(** X16. [createMenuItem] fills in no default.  An item created without
    [isActive] is stored with [isActive] undefined, under the next id, and
    [getMenuItemsByCategory] does not list it in its category; after one
    toggle it is active and listed. *)
Theorem created_without_isActive_is_hidden (s : MenuStorage) (item : InsertMenuItem.t) :
  InsertMenuItem.isActive item = JUndefined ->
  let created := fst (Menu.createMenuItem item s) in
  let s1 := snd (Menu.createMenuItem item s) in
  let s2 := snd (Menu.toggleMenuItem (MenuItem.id created) s1) in
  MenuItem.id created = currentMenuItemId s /\
  JsMap.get (MenuItem.id created) (menuItems s1) = Some created /\
  MenuItem.isActive created = JUndefined /\
  (created ∉ fst (Menu.getMenuItemsByCategory (InsertMenuItem.categoryId item) s1)) /\
  fst (Menu.toggleMenuItem (MenuItem.id created) s1) = Some (MenuItem.toggled created) /\
  MenuItem.isActive (MenuItem.toggled created) = JBool true /\
  MenuItem.toggled created ∈ fst (Menu.getMenuItemsByCategory (InsertMenuItem.categoryId item) s2).
Proof.
  intros Hu. cbv zeta. unfold Menu.createMenuItem. cbv zeta. cbn [fst snd menuItems].
  assert (JsMap.get (currentMenuItemId s)
            (JsMap.set (currentMenuItemId s) (newMenuItem item (currentMenuItemId s)) (menuItems s)) =
          Some (newMenuItem item (currentMenuItemId s))) as Hg.
  { by rewrite get_set, Z.eqb_refl. }
  unfold Menu.toggleMenuItem. cbn [MenuItem.id newMenuItem menuItems]. rewrite Hg.
  cbn [fst snd menuItems]. split_and!; try done.
  - unfold Menu.getMenuItemsByCategory. cbn [fst]. intros Hin.
    apply list_elem_of_filter in Hin as [[_ Ha] _]. simpl in Ha. rewrite Hu in Ha. discriminate.
  - unfold MenuItem.toggled. simpl. by rewrite Hu.
  - unfold Menu.getMenuItemsByCategory. cbn [fst menuItems]. apply list_elem_of_filter. split.
    + simpl. by rewrite Hu.
    + apply elem_of_values_set.
Qed.

(** ** The menu behind the routes: memory and files *)



(** X19. Blocking an item does not take it off the menu grid.  After a
    toggle through [LocalIntegratedStorage] whose file write succeeded,
    the category listing comes from the files, which are filtered by
    category only: the toggled item (its JSON image) is in the listing of
    its category whether it is now active or not. *)
Theorem blocked_item_still_listed (s : Integrated) (id : Z) (item : MenuItem.t) :
  JsMap.get id (menuItems (memStorage s)) = Some item ->
  truthy (MenuItem.isActive item) = true ->
  let s' := snd (LocalIntegratedStorage.toggleMenuItem id true s) in
  let listed := LocalIntegratedStorage.getMenuItemsByCategory (MenuItem.categoryId item) s' in
  MenuItem.isActive (jsonMenuItem (MenuItem.toggled item)) = JBool false /\
  jsonMenuItem (MenuItem.toggled item) ∈ listed /\
  (MenuItem.toggled item ∉
     fst (Menu.getMenuItemsByCategory (MenuItem.categoryId item) (memStorage s'))).
Proof.
  intros Hg Hact. cbv zeta.
  unfold LocalIntegratedStorage.toggleMenuItem, Menu.toggleMenuItem, LocalFileStorage.saveMenuItem.
  rewrite Hg. cbn [fst snd memStorage menuFiles].
  assert (jsonMenuItem (MenuItem.toggled item) ∈
          LocalFileStorage.getMenuItemsByCategory (MenuItem.categoryId item)
            (JsMap.set id (jsonMenuItem (MenuItem.toggled item)) (menuFiles s))) as Hin.
  { unfold LocalFileStorage.getMenuItemsByCategory, LocalFileStorage.getAllMenuItems.
    apply list_elem_of_filter. split; [done | apply elem_of_values_set]. }
  split_and!.
  - unfold jsonMenuItem, MenuItem.toggled. simpl. by rewrite Hact.
  - unfold LocalIntegratedStorage.getMenuItemsByCategory. cbn [menuFiles memStorage].
    destruct (LocalFileStorage.getMenuItemsByCategory _ _) as [|x l] eqn:Hl; [|done].
    by apply elem_of_nil in Hin.
  - unfold Menu.getMenuItemsByCategory. cbn [fst]. intros Hin'.
    apply list_elem_of_filter in Hin' as [[_ Ha] _]. simpl in Ha. rewrite Hact in Ha. discriminate.
Qed.

(** ** Ticket, then bill *)

Lemma with_status_same item st : OrderItem.status item = st -> OrderItem.with_status item st = item.
Proof. intros <-. by destruct item. Qed.

Lemma restatus_fixed sel st (m : JsMap OrderItem.t) :
  (forall k item, (k, item) ∈ m -> sel k = true -> OrderItem.status item = st) ->
  restatus sel st m = m.
Proof.
  intros Hm. unfold restatus. rewrite <- (map_id m) at 2. apply map_ext_in.
  intros [k item] Hin. apply list_elem_of_In in Hin. cbn [fst snd].
  destruct (sel k) eqn:Hs; [|done]. by rewrite with_status_same by (by eapply Hm).
Qed.

(** Billing an order whose items are all [completed] changes nothing. *)
Lemma bill_of_completed s orderId order :
  wf s -> JsMap.get orderId (orders s) = Some order ->
  Forall (fun x => OrderItem.status x = JStr "completed") (itemsOf s orderId) ->
  get_bill orderId s = (Json 200 (mkBill order (itemsOf s orderId)), s).
Proof.
  intros Hwf Hg Hall. rewrite get_bill_run, Hg. cbv zeta.
  rewrite some_pending, bool_decide_eq_false_2.
  2: { intros Hex. apply Exists_exists in Hex as (x & Hx & Hp).
       rewrite Forall_forall in Hall. rewrite (Hall x Hx) in Hp. discriminate. }
  assert (snd (forEach (fun item => updateOrderItemStatus (OrderItem.id item) (JStr "completed"))
                 (itemsOf s orderId) s) = s) as Hsame.
  { rewrite forEach_updateOrderItemStatus by apply Hwf. rewrite restatus_fixed; [by destruct s|].
    intros k item Hin Hsel. apply bool_decide_eq_true in Hsel.
    apply get_of_elem in Hin; [|apply Hwf].
    rewrite <- (filter_all (itemsOf s orderId)) in Hsel.
    unfold itemsOf, getOrderItems in Hsel. cbn [fst] in Hsel. rewrite list_filter_filter in Hsel.
    apply (proj1 (selected_by_id s (fun a => True /\ OrderItem.orderId a = orderId)
                    k item Hwf Hin)) in Hsel.
    destruct Hsel as [_ Ho]. rewrite Forall_forall in Hall. apply Hall.
    rewrite <- Ho. by eapply listed_of_lookup. }
  by rewrite Hsame.
Qed.

(** X20. Ticket, then bill.  On a well-formed store, printing the KOT of
    an order and then its bill never meets the refusal: the bill answers
    200 with every item of the order [completed], whatever status each
    had before, and with the items otherwise as they were.  Printing the
    bill again gives the same answer and changes nothing. *)
Theorem kot_then_bill_completes (s : MemStorage) (orderId : Z) (order : Order.t) :
  wf s ->
  JsMap.get orderId (orders s) = Some order ->
  let s1 := snd (get_kot orderId s) in
  let s2 := snd (get_bill orderId s1) in
  let completed := map (fun x => OrderItem.with_status x (JStr "completed")) (itemsOf s orderId) in
  get_bill orderId s1 = (Json 200 (mkBill order completed), s2) /\
  itemsOf s2 orderId = completed /\
  get_bill orderId s2 = (Json 200 (mkBill order completed), s2).
Proof.
  intros Hwf Hg. cbv zeta.
  pose proof (get_kot_wf orderId s Hwf) as Hwf1.
  assert (JsMap.get orderId (orders (snd (get_kot orderId s))) = Some order) as Hg1.
  { rewrite get_kot_run, Hg. cbv zeta. cbn [snd]. by rewrite forEach_status_orders. }
  assert (itemsOf (snd (get_kot orderId s)) orderId =
          map (fun x => if decide (is_pending x = true)
                        then OrderItem.with_status x (JStr "kot_printed") else x)
            (itemsOf s orderId)) as Hl1.
  { rewrite get_kot_run, Hg. cbv zeta. cbn [snd].
    apply (itemsOf_after_batch s orderId (fun x => is_pending x = true) _ Hwf). }
  set (s1 := snd (get_kot orderId s)) in *.
  pose proof (get_bill_wf orderId s1 Hwf1) as Hwf2.
  assert (get_bill orderId s1 =
          (Json 200 (mkBill order (itemsOf (snd (get_bill orderId s1)) orderId)),
           snd (get_bill orderId s1)) /\
          itemsOf (snd (get_bill orderId s1)) orderId =
          map (fun x => OrderItem.with_status x (JStr "completed")) (itemsOf s orderId)) as [Hb Hl2].
  { rewrite get_bill_run, Hg1. cbv zeta. rewrite some_pending, bool_decide_eq_false_2.
    2: { intros Hex. apply Exists_exists in Hex as (x & Hx & Hp). rewrite Hl1 in Hx.
         apply list_elem_of_fmap in Hx as (y & -> & _).
         case_decide as Hy; [discriminate|]. by apply is_pending_spec in Hp. }
    cbn [fst snd]. split; [done|].
    pose proof (itemsOf_after_batch s1 orderId (fun _ => True) (JStr "completed") Hwf1) as Hl.
    rewrite filter_all in Hl. rewrite Hl, Hl1, map_map. apply map_ext. intros x.
    repeat case_decide; try done; by destruct x. }
  set (s2 := snd (get_bill orderId s1)) in *.
  assert (JsMap.get orderId (orders s2) = Some order) as Hg2.
  { unfold s2. rewrite get_bill_run, Hg1. cbv zeta.
    destruct (0 <? _)%nat; [done|]. cbn [snd]. by rewrite forEach_status_orders. }
  rewrite Hb, Hl2. split_and!; try done.
  rewrite <- Hl2. apply bill_of_completed; [done | done |].
  rewrite Hl2. apply Forall_forall. intros x Hx. by apply list_elem_of_fmap in Hx as (y & -> & _).
Qed.

Section Orphans.
Context `{JsRuntime}.

(** X21. An item needs no order, and an order adopts what is filed under
    its id.  From a well-formed store, an item posted for the next order id
    (which no order has yet) is stored; the order created next gets that
    id, lists the item from the start, and carries the totals of its own
    input fields: nothing recomputes them at creation. *)
Theorem orphan_item_is_adopted (s : MemStorage) (itemData : InsertOrderItem.t) (body : InsertOrder.t)
    (t1 t2 t3 t4 : Date) :
  wf s ->
  InsertOrderItem.orderId itemData = currentOrderId s ->
  let item := fst (addOrderItem itemData t1 t2 s) in
  let s1 := snd (handle (PostItem itemData t1 t2) s) in
  let s2 := snd (handle (PostOrder body t3 t4) s1) in
  fst (post_items itemData t1 t2 s) = Json 201 item /\
  JsMap.get (currentOrderId s) (orders s1) = None /\
  (exists order,
     fst (post_orders body t3 t4 s1) = Json 201 order /\
     Order.id order = currentOrderId s /\
     JsMap.get (currentOrderId s) (orders s2) = Some order /\
     Order.subtotal order = InsertOrder.subtotal body /\
     Order.totalAmount order = InsertOrder.totalAmount body) /\
  item ∈ itemsOf s2 (currentOrderId s).
Proof.
  intros Hwf Ho. cbv zeta.
  assert (JsMap.get (currentOrderId s) (orders s) = None) as Hnone.
  { apply get_None_keys. intros Hin. destruct Hwf as [_ Hf _ _ _]. rewrite Forall_forall in Hf.
    specialize (Hf _ Hin). simpl in Hf. lia. }
  rewrite !handle_effect. unfold post_items. rewrite bind_run. cbn [fst ret].
  rewrite addOrderItem_run. cbv zeta. cbn [fst snd]. set (s0 := mkStorage _ _ _ _).
  assert (recalculateOrderTotal (InsertOrderItem.orderId itemData) t2 s0 = (tt, s0)) as Hr.
  { rewrite recalculateOrderTotal_run. cbn [orders s0]. by rewrite Ho, Hnone. }
  rewrite Hr. cbn [snd]. rewrite post_orders_run. cbv zeta. cbn [fst snd orders s0 currentOrderId].
  split_and!; try done.
  - eexists. split; [reflexivity|]. split_and!; try done.
    by rewrite get_set, Z.eqb_refl.
  - unfold itemsOf, getOrderItems. cbn [fst orderItems]. apply list_elem_of_filter.
    split; [done | apply elem_of_values_set].
Qed.

End Orphans.


(** * Worked examples *)

#[local] Existing Instance DecimalRuntime.runtime.

Lemma opened_wf : wf opened.
Proof. apply serve_wf, newStorage_wf. Qed.

Lemma ordered_wf : wf ordered.
Proof. apply serve_wf, opened_wf. Qed.

Lemma ticketed_wf : wf ticketed.
Proof. apply serve_wf, ordered_wf. Qed.

(** The totals of the specification's scenario: 300 / 15 / 315 after the
    first dish, 350 / 17.5 / 367.5 after the second. *)
Example scenario_totals :
  (fun o => (Order.subtotal o, Order.tax o, Order.totalAmount o)) <$>
    JsMap.get 1 (orders (snd (serve [PostItem (dish 1 7 "150.00" 2) 11 11] opened))) =
    Some (JStr "300", JStr "15", JStr "315") /\
  (fun o => (Order.subtotal o, Order.tax o, Order.totalAmount o)) <$>
    JsMap.get 1 (orders ordered) =
    Some (JStr "350", JStr "17.5", JStr "367.5").
Proof. split; vm_compute; reflexivity. Qed.

Example scenario_statuses :
  map OrderItem.status (itemsOf ordered 1) = [JStr "pending"; JStr "pending"] /\
  map OrderItem.status (itemsOf ticketed 1) = [JStr "kot_printed"; JStr "kot_printed"] /\
  map OrderItem.status (itemsOf billed 1) = [JStr "completed"; JStr "completed"] /\
  Order.paymentStatus <$>
    fst (updateOrderPayment 1 (JStr "cash") JUndefined JUndefined JUndefined 20 billed) =
    Some (JStr "paid").
Proof. split_and!; vm_compute; reflexivity. Qed.

Example bill_before_ticket_refused :
  get_bill 1 ordered =
  (Message 400 "Cannot print bill with pending items. Please print KOT first.", ordered).
Proof. vm_compute; reflexivity. Qed.

(** A PUT body that carries an [id] is spread over the record: the order
    filed under 1 then says its id is 7, and keeps its number. *)
Example put_order_overwrites_id :
  (fun o => (Order.id o, Order.orderNumber o, Order.updatedAt o)) <$>
    JsMap.get 1
      (orders (snd (serve
                      [PutOrder 1
                         (PartialOrder.mk (Some 7) None None None None None None None None None
                            None None None None None None None) 20]
                      opened))) =
    Some (7, JStr "1001", 20).
Proof. vm_compute; reflexivity. Qed.

(** Orders created at the same instant are listed in the sequence they
    were stored in, after the newer ones. *)
Example same_instant_keeps_sequence :
  map Order.id
    (fst (getAllOrders
            (snd (serve [PostOrder tableOrder 10 10; PostOrder tableOrder 30 30] opened)))) =
    [3; 1; 2].
Proof. vm_compute; reflexivity. Qed.

(** The runtime on some strings and numbers: decimal strings as the menu
    holds them, padding, a literal that is none, and the sum that does not
    print as 0.3. *)
Example runtime_conversions :
  map numToString
    [parseNumber "150.00" * 2; parseNumber " 50 " + parseNumber "1e2"; 0.1 + 0.2;
     parseNumber "12px"; 1e21; 0.000001 / 10; parseNumber "-0"; parseNumber "."]%float =
    ["300"; "150"; "0.30000000000000004"; "NaN"; "1e+21"; "1e-7"; "0"; "NaN"].
Proof. vm_compute; reflexivity. Qed.

(** ** Instances of the theorems *)

Lemma item_mutation_recalculates_totals_witness :
  mutatedOrder opened (PostItem (dish 1 7 "150.00" 2) 11 11) = Some 1 /\
  is_Some (JsMap.get 1 (orders opened)) /\
  totals_in_step (snd (handle (PostItem (dish 1 7 "150.00" 2) 11 11) opened)) 1.
Proof.
  assert (is_Some (JsMap.get 1 (orders opened))) as Hs by (eexists; vm_compute; reflexivity).
  split_and!; [reflexivity | exact Hs |].
  exact (item_mutation_recalculates_totals opened (PostItem (dish 1 7 "150.00" 2) 11 11) 1 eq_refl Hs).
Defined.

Lemma printBill_refuses_pending_witness :
  wf ticketed /\
  (exists order, JsMap.get 1 (orders ticketed) = Some order) /\
  Forall (fun item => OrderItem.status item = JStr "completed")
    (itemsOf (snd (get_bill 1 ticketed)) 1).
Proof.
  destruct (JsMap.get 1 (orders ticketed)) as [order|] eqn:Hg; [|vm_compute in Hg; discriminate].
  split_and!; [exact ticketed_wf | by exists order |].
  pose proof (printBill_refuses_pending ticketed 1 order ticketed_wf Hg) as Hb.
  rewrite bool_decide_eq_false_2 in Hb.
  - apply Hb.
  - vm_compute. intros Hex. apply Exists_exists in Hex as (x & Hx & Hst).
    repeat (apply elem_of_cons in Hx as [->|Hx]; [discriminate|]). by apply elem_of_nil in Hx.
Defined.

Lemma printKOT_transitions_pending_witness :
  wf ordered /\
  map OrderItem.status (itemsOf (snd (get_kot 1 ordered)) 1) = [JStr "kot_printed"; JStr "kot_printed"] /\
  snd (get_kot 1 (snd (get_kot 1 ordered))) = snd (get_kot 1 ordered).
Proof.
  pose proof (printKOT_transitions_pending ordered 1 ordered_wf) as Hk.
  destruct (JsMap.get 1 (orders ordered)) as [order|] eqn:Hg; [|vm_compute in Hg; discriminate].
  cbv zeta in Hk. destruct Hk as (_ & Hlist & _ & _ & _ & Hidem).
  split_and!; [exact ordered_wf | | exact Hidem].
  rewrite Hlist. vm_compute. reflexivity.
Defined.

Lemma status_advances_without_status_update_witness :
  wf ordered /\
  forallb (fun rq => negb (is_status_update rq)) secondRound = true /\
  map (fun p => (fst p, OrderItem.status (snd p))) (orderItems (snd (serve secondRound ordered))) =
    [(1, JStr "completed"); (2, JStr "completed"); (3, JStr "completed")] /\
  forall k item item',
    JsMap.get k (orderItems ordered) = Some item ->
    JsMap.get k (orderItems (snd (serve secondRound ordered))) = Some item' ->
    advances (OrderItem.status item) (OrderItem.status item').
Proof.
  split_and!; [exact ordered_wf | reflexivity | vm_compute; reflexivity |].
  intros k item item' Hg Hg'.
  exact (proj1 (proj1 (status_advances_without_status_update ordered secondRound ordered_wf eq_refl)
                  k item item' Hg Hg')).
Defined.

Lemma createOrder_keeps_input_totals_witness :
  wf opened /\
  (fun o => (Order.id o, Order.subtotal o, Order.tax o, Order.totalAmount o))
    (fst (createOrder
            (InsertOrder.mk (JStr "1002") (JStr "parcel") JNull (JStr "Asha") JNull
               (JStr "500") (JStr "25") (JStr "10") (JStr "535") (JStr "unpaid")
               JNull JNull JNull JNull JNull) 20 20 opened)) =
  (2, JStr "500", JStr "25", JStr "535").
Proof.
  split; [exact opened_wf|].
  destruct (createOrder_keeps_input_totals opened
              (InsertOrder.mk (JStr "1002") (JStr "parcel") JNull (JStr "Asha") JNull
                 (JStr "500") (JStr "25") (JStr "10") (JStr "535") (JStr "unpaid")
                 JNull JNull JNull JNull JNull) 20 20 opened_wf)
    as (Hid & _ & _ & _ & _ & _ & Hs & Ht & Ha).
  cbv zeta in *. rewrite Hid, Hs, Ht, Ha. reflexivity.
Defined.

Lemma removeOrderItem_unknown_id_witness :
  JsMap.get 5 (orderItems ordered) = None /\
  removeOrderItem 5 30 ordered = (false, ordered) /\
  delete_item 5 30 ordered = (Message 404 "Order item not found", ordered).
Proof.
  assert (JsMap.get 5 (orderItems ordered) = None) as Hg by (vm_compute; reflexivity).
  split; [exact Hg|]. exact (removeOrderItem_unknown_id ordered 5 30 Hg).
Defined.


Lemma updateOrderPayment_falsy_is_null_witness :
  (exists order, JsMap.get 1 (orders billed) = Some order) /\
  Order.cashAmount <$>
    fst (updateOrderPayment 1 (JStr "split") (JStr "UTR42") (JNum 0) (JNum 367.5) 20 billed) =
    Some JNull /\
  updateOrderPayment 1 (JStr "split") (JStr "UTR42") (JNum 0) (JNum 367.5) 20 billed =
  updateOrderPayment 1 (JStr "split") (JStr "UTR42") JUndefined (JNum 367.5) 20 billed /\
  Order.cashAmount <$>
    JsMap.get 1
      (orders (snd (updateOrderPayment 1 (JStr "split") (JStr "UTR42") (JNum 0) (JNum 367.5) 20
                      billed))) =
    Some JNull.
Proof.
  destruct (JsMap.get 1 (orders billed)) as [order|] eqn:Hg; [|vm_compute in Hg; discriminate].
  split; [by exists order|].
  destruct (updateOrderPayment_falsy_is_null billed 1 order (JStr "split") (JStr "UTR42")
              (JNum 0) (JNum 367.5) 20 Hg) as (Hc & _ & _ & He & _ & _ & (Hs & _) & _).
  split_and!; [exact Hc | exact He | exact Hs].
Defined.

Lemma order_number_from_count_witness :
  wf opened /\
  assignedNumbers [PostOrder tableOrder 20 20; GetKot 1; PostOrder tableOrder 21 21]
    (fst (serve [PostOrder tableOrder 20 20; GetKot 1; PostOrder tableOrder 21 21] opened)) =
    [JStr "1002"; JStr "1003"] /\
  NoDup (assignedNumbers [PostOrder tableOrder 20 20; GetKot 1; PostOrder tableOrder 21 21]
           (fst (serve [PostOrder tableOrder 20 20; GetKot 1; PostOrder tableOrder 21 21] opened))).
Proof.
  split_and!; [exact opened_wf | vm_compute; reflexivity |].
  exact (proj2 (order_number_from_count opened tableOrder 20 20
                  [PostOrder tableOrder 20 20; GetKot 1; PostOrder tableOrder 21 21]) opened_wf).
Defined.

(** ** Where the specification's wording fails *)

(** C4: a status update puts a ticketed item back to [pending]. *)
Lemma status_update_reverts : ~ status_never_reverts.
Proof.
  intros Hc.
  pose proof (Hc DecimalRuntime.runtime
                [PostOrder tableOrder 10 10; PostItem (dish 1 7 "150.00" 2) 11 11; GetKot 1]
                [PutItemStatus 1 (JStr "pending")] 1
                (OrderItem.mk 1 1 (JNum 7) (JNum 2) (JStr "150.00") (JStr "kot_printed") (JStr EmptyString) 11)
                (OrderItem.mk 1 1 (JNum 7) (JNum 2) (JStr "150.00") (JStr "pending") (JStr EmptyString) 11))
    as Hc1.
  cbv zeta in Hc1.
  destruct Hc1 as (Hback & _); [vm_compute; reflexivity | vm_compute; reflexivity |].
  by apply Hback.
Qed.

(** C5: a split settlement with cash amount 0 stores [null], not 0. *)
Lemma settlement_drops_zero_amount : ~ settlement_stores_arguments.
Proof.
  intros Hc.
  destruct (JsMap.get 1 (orders billed)) as [order|] eqn:Hg; [|vm_compute in Hg; discriminate].
  destruct (Hc billed 1 order (JStr "split") (JStr "UTR42") (JNum 0) (JNum 367.5) 20 Hg)
    as (order' & Hr & _ & _ & _ & Hcash & _).
  unfold updateOrderPayment in Hr. rewrite Hg in Hr. injection Hr as <-. discriminate Hcash.
Qed.

(** C6: totals sent with the order are kept, not zeroed. *)
Lemma createOrder_keeps_nonzero_total : ~ createOrder_zeroes_totals.
Proof.
  intros Hc.
  destruct (Hc DecimalRuntime.runtime newStorage
              (InsertOrder.mk (JStr "1002") (JStr "parcel") JNull (JStr "Asha") JNull
                 (JStr "500") (JStr "25") (JStr "10") (JStr "535") (JStr "unpaid")
                 JNull JNull JNull JNull JNull) 20 20) as (Hs & _).
  vm_compute in Hs. discriminate Hs.
Qed.

(** ** Instances of the further properties *)

Lemma twoTables_wf : wf twoTables.
Proof. apply serve_wf, ordered_wf. Qed.

Lemma ordered_in_step : totals_in_step ordered 1.
Proof.
  destruct (JsMap.get 1 (orders (snd (handle (PostItem (dish 1 7 "150.00" 2) 11 11) opened))))
    as [order|] eqn:Hg; [|vm_compute in Hg; discriminate].
  exact (mutation_recalculates _ (PostItem (dish 1 8 "50" 1) 12 12) 1 order eq_refl Hg).
Qed.

Lemma request_leaves_other_orders_witness :
  wf twoTables /\
  JsMap.get 1 (orders (snd (handle (PostItem (dish 2 9 "20" 1) 21 21) twoTables))) =
    JsMap.get 1 (orders twoTables) /\
  itemsOf (snd (handle (PostItem (dish 2 9 "20" 1) 21 21) twoTables)) 1 = itemsOf twoTables 1.
Proof.
  split; [exact twoTables_wf|].
  apply (request_leaves_other_orders twoTables (PostItem (dish 2 9 "20" 1) 21 21) 1 twoTables_wf);
    vm_compute; discriminate.
Defined.

Lemma addOrderItem_appends_witness :
  wf opened /\
  itemsOf (snd (addOrderItem (dish 1 7 "150.00" 2) 11 11 opened)) 1 =
    itemsOf opened 1 ++ [fst (addOrderItem (dish 1 7 "150.00" 2) 11 11 opened)].
Proof.
  split; [exact opened_wf|].
  exact (proj1 (addOrderItem_appends opened (dish 1 7 "150.00" 2) 11 11 opened_wf)).
Defined.

Lemma removeOrderItem_removes_witness :
  wf ordered /\
  is_Some (JsMap.get 1 (orderItems ordered)) /\
  fst (removeOrderItem 1 13 ordered) = true /\
  removeOrderItem 1 14 (snd (removeOrderItem 1 13 ordered)) =
    (false, snd (removeOrderItem 1 13 ordered)).
Proof.
  destruct (JsMap.get 1 (orderItems ordered)) as [item|] eqn:Hg; [|vm_compute in Hg; discriminate].
  split_and!; [exact ordered_wf | by exists item | |];
    apply (removeOrderItem_removes ordered 1 item 13 14 ordered_wf Hg).
Defined.

Lemma removed_item_never_returns_witness :
  wf ordered /\
  is_Some (JsMap.get 1 (orderItems ordered)) /\
  JsMap.get 1 (orderItems (snd (serve [DeleteItem 1 13; PostItem (dish 1 9 "20" 1) 14 14] ordered))) =
    None.
Proof.
  destruct (JsMap.get 1 (orderItems ordered)) as [item|] eqn:Hg; [|vm_compute in Hg; discriminate].
  split_and!; [exact ordered_wf | by exists item |].
  exact (removed_item_never_returns ordered 1 item 13 [PostItem (dish 1 9 "20" 1) 14 14]
           ordered_wf Hg).
Defined.

Lemma totals_stay_in_step_witness :
  wf ordered /\
  totals_in_step ordered 1 /\
  forallb (keeps_billing 1) secondRound = true /\
  totals_in_step (snd (serve secondRound ordered)) 1.
Proof.
  split_and!; [exact ordered_wf | exact ordered_in_step | reflexivity |].
  exact (proj1 (totals_stay_in_step ordered secondRound 1 ordered_wf ordered_in_step eq_refl)).
Defined.

Lemma order_number_names_order_witness :
  forallb keeps_numbers [PostOrder tableOrder 10 10] = true /\
  forallb keeps_ids [PostOrder tableOrder 10 10] = true /\
  exists order,
    JsMap.get 1 (orders opened) = Some order /\
    Order.orderNumber order = JStr "1001" /\
    fst (getOrderByNumber "1001" opened) = Some order /\
    Order.id order = 1.
Proof.
  split_and!; [reflexivity | reflexivity |].
  destruct (JsMap.get 1 (orders opened)) as [order|] eqn:Hg; [|vm_compute in Hg; discriminate].
  exists order. split; [done|].
  destruct (order_number_names_order [PostOrder tableOrder 10 10] 1 order eq_refl Hg)
    as (Hnum & Hfind & Hid).
  split_and!; [exact Hnum | exact Hfind | exact (Hid eq_refl)].
Defined.

Lemma free_table_clears_order_witness :
  wf ordered /\
  is_Some (JsMap.get 1 (orders ordered)) /\
  itemsOf (snd (serve (freeTableRequests ordered 1 (fun _ => 30) 31) ordered)) 1 = [].
Proof.
  destruct (JsMap.get 1 (orders ordered)) as [order|] eqn:Hg; [|vm_compute in Hg; discriminate].
  split_and!; [exact ordered_wf | by exists order |].
  exact (proj1 (free_table_clears_order ordered 1 order (fun _ => 30) 31 ordered_wf Hg)).
Defined.

Lemma created_without_isActive_is_hidden_witness :
  InsertMenuItem.isActive paneer = JUndefined /\
  fst (Menu.createMenuItem paneer (mkMenu [] 1)) ∉
    fst (Menu.getMenuItemsByCategory 2 (snd (Menu.createMenuItem paneer (mkMenu [] 1)))).
Proof.
  split; [reflexivity|].
  pose proof (created_without_isActive_is_hidden (mkMenu [] 1) paneer eq_refl) as Hc.
  cbv zeta in Hc. apply Hc.
Defined.


Lemma blocked_item_still_listed_witness :
  is_Some (JsMap.get 1 (menuItems (memStorage menuOfOne))) /\
  MenuItem.mk 1 (JStr "Paneer Tikka") (JStr "180.00") 2 (JBool false) ∈
    LocalIntegratedStorage.getMenuItemsByCategory 2
      (snd (LocalIntegratedStorage.toggleMenuItem 1 true menuOfOne)).
Proof.
  split; [by eexists|].
  pose proof (blocked_item_still_listed menuOfOne 1 _ eq_refl eq_refl) as Hb.
  cbv zeta in Hb. apply Hb.
Defined.

Lemma kot_then_bill_completes_witness :
  wf ordered /\
  is_Some (JsMap.get 1 (orders ordered)) /\
  map OrderItem.status (itemsOf (snd (get_bill 1 (snd (get_kot 1 ordered)))) 1) =
    [JStr "completed"; JStr "completed"].
Proof.
  destruct (JsMap.get 1 (orders ordered)) as [order|] eqn:Hg; [|vm_compute in Hg; discriminate].
  split_and!; [exact ordered_wf | by exists order |].
  pose proof (kot_then_bill_completes ordered 1 order ordered_wf Hg) as Hk.
  cbv zeta in Hk. destruct Hk as (_ & Hl & _). rewrite Hl. vm_compute. reflexivity.
Defined.

Lemma orphan_item_is_adopted_witness :
  InsertOrderItem.orderId (dish 2 7 "150.00" 2) = currentOrderId opened /\
  fst (addOrderItem (dish 2 7 "150.00" 2) 11 11 opened) ∈
    itemsOf (snd (serve [PostItem (dish 2 7 "150.00" 2) 11 11; PostOrder tableOrder 12 12] opened)) 2.
Proof.
  split; [reflexivity|].
  pose proof (orphan_item_is_adopted opened (dish 2 7 "150.00" 2) tableOrder 11 11 12 12
                opened_wf eq_refl) as Ho.
  cbv zeta in Ho. apply Ho.
Defined.
